(** * migration_cleanup: the post-migration clean-up command of djangocms-4-migration

    A shallow embedding of
    [djangocms_4_migration/management/commands/migration_cleanup.py]: the
    database is a finite map of tables, every table a finite map from primary
    key to row, and the command is a computation in a state-and-exception
    monad over the database and the records handed to the logger.

    The models, their managers and the database are Django's and the CMS's,
    not the command's. What the command needs of them is modelled as follows.
    A query set returns the rows of its table in the order of the keys of the
    finite map. The default manager [objects] returns every row, except on
    [PageContent], where the versioning add-on has it return the published
    page contents only; [_base_manager] returns every row. A write changes
    the rows it names and no others. So what [delete()] takes along in
    cascade, over a foreign key or a generic relation from another model, is
    not followed: of a [delete()] the properties below say which rows are
    gone, and what is kept of the tables of pages, URLs, page contents and
    placeholders, and of no other table that it is as it was. A many-to-many
    relation is kept with the rows of the related model, as the set of keys
    each is related to, not as rows of a table of its own. Whether a write
    fails, and with which exception, is for the environment to say. *)

From stdpp Require Import gmap strings list fin_maps.
From Stdlib Require Import ZArith.

Open Scope Z_scope.

(** ** Rows, tables and model instances *)

(** The value of a column: an integer (keys and numbers) or a string. *)
Inductive Value :=
  | Int (z : Z)
  | Str (s : string).

#[global] Instance Value_eq_dec : EqDecision Value.
Proof. solve_decision. Defined.

(** A row: [fields] maps a field, under the name the lookups of the command
    use for it, to its value (no entry is SQL's NULL), and [related] maps a
    many-to-many field to the primary keys its row is related to. *)
Record Row := {
  fields : gmap string Value;
  related : gmap string (gset Z);
}.

(** A table maps a primary key to its row, so a key names at most one row; the
    database maps a model to its table. *)
Abbreviation Table := (gmap Z Row).
Abbreviation Model := string (only parsing).
Abbreviation Tables := (gmap string (gmap Z Row)).

(** The models the command names, by their database table. *)
Definition Page : Model := "cms_page".
Definition PageContent : Model := "cms_pagecontent".
Definition PageUrl : Model := "cms_pageurl".
Definition Placeholder : Model := "cms_placeholder".
Definition Version : Model := "djangocms_versioning_version".
Definition ContentType : Model := "django_content_type".

(** A model instance as Python holds it: the primary key and the row as it was
    when fetched. *)
Record Obj := { pk : Z; row : Row }.

#[global] Instance Row_eq_dec : EqDecision Row.
Proof. solve_decision. Defined.

#[global] Instance Obj_eq_dec : EqDecision Obj.
Proof. solve_decision. Defined.

Definition table (tb : Tables) (m : Model) : Table := default ∅ (tb !! m).

Definition instances (t : Table) : list Obj :=
  (λ kr, {| pk := kr.1; row := kr.2 |}) <$> map_to_list t.

(** [obj.id], [obj.pk] and the other attributes of an instance. *)
Definition getattr (obj : Obj) (name : string) : option Value :=
  if bool_decide (name = "id" ∨ name = "pk") then Some (Int (pk obj))
  else fields (row obj) !! name.

(** The keys a many-to-many field of a row relates it to. *)
Definition related_keys (r : Row) (field : string) : gset Z :=
  default ∅ (related r !! field).

(** ** Exceptions, log records, statistics *)

Inductive Exn :=
  | ProtectedError
  | IntegrityError
  | DoesNotExist
  | MultipleObjectsReturned
  | ProgrammingError
  | OtherError (name : string).

#[global] Instance Exn_eq_dec : EqDecision Exn.
Proof. solve_decision. Defined.

(** The [stats] dictionary of [handle]. *)
Record Stats := {
  page_count : Z;
  page_deleted : Z;
  pagecontents_count : Z;
  pagecontents_deleted : Z;
}.

Inductive Level := DEBUG | INFO | ERROR.

Inductive LogArg :=
  | AInt (z : Z)
  | AExn (e : Exn)
  | AStats (s : Stats).

(** What a call of [logger.debug], [logger.info] or [logger.error] hands to
    the logger: the level, the format string and its arguments. *)
Record LogRecord := { level : Level; msg : string; args : list LogArg }.

(** ** The schema of [Page], as Django's [_meta] reports it *)

Inductive Cardinality := OneToOne | OneToMany | ManyToOne | ManyToMany.

(** An entry of [Page._meta.get_fields()]. [cardinality] is [None] for a field
    that is no relation; [related_model] and [field_name] (the [rel.field.name]
    of the source) are read for reverse relations only. *)
Record Field := {
  cardinality : option Cardinality;
  auto_created : bool;
  concrete : bool;
  related_model : Model;
  field_name : string;
}.

Definition one_to_one (f : Field) : bool :=
  match cardinality f with Some OneToOne => true | _ => false end.
Definition one_to_many (f : Field) : bool :=
  match cardinality f with Some OneToMany => true | _ => false end.
Definition many_to_many (f : Field) : bool :=
  match cardinality f with Some ManyToMany => true | _ => false end.

(** The class of a relation field. *)
Inductive FieldType :=
  | ForeignKey
  | OneToOneField
  | ManyToManyField
  | PageField
  | OtherField (cls : string).

#[global] Instance FieldType_eq_dec : EqDecision FieldType.
Proof. solve_decision. Defined.

(** An entry of [Page._meta._relation_tree]: a field of [model], called [name],
    that points to [Page]. *)
Record RelatedField := { ftype : FieldType; model : Model; name : string }.

(** ** Query sets *)

Inductive Manager := objects | _base_manager.

(** A keyword lookup [name = v]. Django resolves it by the kind of the field
    [name]: on a many-to-many field the lookup holds when the key of [v] is
    among the related keys ([Related]), on any other field when the stored
    value is [v], [None] standing for [IS NULL] ([Exact]). *)
Inductive Lookup :=
  | Exact (name : string) (v : option Value)
  | Related (name : string) (key : Z).

(** [filter] keeps the rows on which every lookup holds, [exclude] those on
    which not all of them hold. *)
Inductive Clause :=
  | Filter (kw : list Lookup)
  | Exclude (kw : list Lookup).

(** A query set is lazy: it is a description, evaluated against the tables as
    they are when it is counted, tested or iterated. *)
Record QuerySet := {
  qs_model : Model;
  qs_manager : Manager;
  qs_clauses : list Clause;
}.

Definition all (m : Model) (mgr : Manager) : QuerySet :=
  {| qs_model := m; qs_manager := mgr; qs_clauses := [] |}.

Definition qfilter (kw : list Lookup) (qs : QuerySet) : QuerySet :=
  {| qs_model := qs_model qs; qs_manager := qs_manager qs;
     qs_clauses := qs_clauses qs ++ [Filter kw] |}.

Definition qexclude (kw : list Lookup) (qs : QuerySet) : QuerySet :=
  {| qs_model := qs_model qs; qs_manager := qs_manager qs;
     qs_clauses := qs_clauses qs ++ [Exclude kw] |}.

Definition lookup_holds (obj : Obj) (kw : Lookup) : bool :=
  match kw with
  | Exact name v => bool_decide (getattr obj name = v)
  | Related name key => bool_decide (key ∈ related_keys (row obj) name)
  end.

Definition clause_holds (obj : Obj) (c : Clause) : bool :=
  match c with
  | Filter kw => forallb (lookup_holds obj) kw
  | Exclude kw => negb (forallb (lookup_holds obj) kw)
  end.

(** A model instance as a lookup value is its primary key. *)
Definition ref (obj : Obj) : option Value := Some (Int (pk obj)).

(** ** The environment of the command

    What the command takes from code outside this repository: the schema, the
    default manager that the versioning add-on installs on [PageContent], and
    the exception, if any, with which a database call fails. *)

Inductive Call :=
  | Execute (sql : string) (params : list Z)
  | InstanceDelete (m : Model) (key : Z)
  | QueryDelete (qs : QuerySet)
  | QueryUpdate (qs : QuerySet) (field : string) (v : Value)
  | RelatedRemove (m : Model) (key : Z) (field : string) (target : Z)
  | RelatedAdd (m : Model) (key : Z) (field : string) (target : Z).

Record Env := {
  (** [Page._meta.get_fields()] *)
  get_fields : list Field;
  (** [Page._meta._relation_tree] *)
  _relation_tree : list RelatedField;
  (** the rows of [PageContent] that its default manager [objects] returns;
      [_base_manager] returns them all *)
  published : Tables → Obj → bool;
  (** the exception a database call raises on the given tables, [None] when it
      goes through *)
  fault : Call → Tables → option Exn;
}.

(** ** The monad: database and log as state, exceptions *)

Record State := { db : Tables; log : list LogRecord }.

Inductive Result (A : Type) :=
  | Ok (a : A) (st : State)
  | Raise (e : Exn) (st : State).
Arguments Ok {A} a st.
Arguments Raise {A} e st.

Definition M (A : Type) : Type := State → Result A.

Definition ret {A} (a : A) : M A := λ st, Ok a st.

Definition bind {A B} (m : M A) (k : A → M B) : M B :=
  λ st, match m st with
        | Ok a st' => k a st'
        | Raise e st' => Raise e st'
        end.

Notation "x <- m ;; k" := (bind m (λ x, k))
  (at level 100, m at next level, right associativity).
Notation "m ;;; k" := (bind m (λ _, k))
  (at level 100, right associativity).

(** [try: body except exc as err: handler]; what [body] did before it raised
    stays done. *)
Definition try_except {A} (body : M A) (exc : Exn) (handler : Exn → M A) : M A :=
  λ st, match body st with
        | Ok a st' => Ok a st'
        | Raise e st' => if bool_decide (e = exc) then handler e st' else Raise e st'
        end.

(** [for x in l: body x] *)
Fixpoint for_each {A} (l : list A) (body : A → M unit) : M unit :=
  match l with
  | [] => ret ()
  | x :: l' => body x ;;; for_each l' body
  end.

(** A loop that updates a local variable [acc]. *)
Fixpoint for_each_acc {A S} (l : list A) (body : S → A → M S) (acc : S) : M S :=
  match l with
  | [] => ret acc
  | x :: l' => acc' <- body acc x ;; for_each_acc l' body acc'
  end.

Definition emit (lv : Level) (m : string) (a : list LogArg) : M unit :=
  λ st, Ok () {| db := db st; log := log st ++ [{| level := lv; msg := m; args := a |}] |}.

Definition logger_debug := emit DEBUG.
Definition logger_info := emit INFO.
Definition logger_error := emit ERROR.

(** ** The object-relational mapper *)

Section Command.

Variable env : Env.

(** The rows a manager of model [m] returns: all of them, but for the default
    manager of [PageContent], which returns the published ones. *)
Definition manager_rows (m : Model) (mgr : Manager) (tb : Tables) : list Obj :=
  match mgr with
  | _base_manager => instances (table tb m)
  | objects =>
      if bool_decide (m = PageContent)
      then filter (λ obj, published env tb obj) (instances (table tb m))
      else instances (table tb m)
  end.

(** The rows of a query set on the tables [tb]. *)
Definition evaluate (qs : QuerySet) (tb : Tables) : list Obj :=
  filter (λ obj, forallb (clause_holds obj) (qs_clauses qs))
         (manager_rows (qs_model qs) (qs_manager qs) tb).

(** Iterating a query set fetches its rows once, when the loop starts. *)
Definition iterate (qs : QuerySet) : M (list Obj) :=
  λ st, Ok (evaluate qs (db st)) st.

Definition count (qs : QuerySet) : M Z :=
  λ st, Ok (Z.of_nat (length (evaluate qs (db st)))) st.

Definition exists_ (qs : QuerySet) : M bool :=
  λ st, Ok (bool_decide (evaluate qs (db st) ≠ [])) st.

Definition get (qs : QuerySet) : M Obj :=
  λ st, match evaluate qs (db st) with
        | [] => Raise DoesNotExist st
        | [obj] => Ok obj st
        | _ :: _ :: _ => Raise MultipleObjectsReturned st
        end.

(** A database call that writes: it raises what the environment says it
    raises, leaving the tables as they are, and otherwise [effect] replaces
    the tables. *)
Definition write (c : Call) (effect : Tables → Tables) : M unit :=
  λ st, match fault env c (db st) with
        | Some e => Raise e st
        | None => Ok () {| db := effect (db st); log := log st |}
        end.

Definition delete_keys (m : Model) (keys : list Z) (tb : Tables) : Tables :=
  <[m := foldr delete (table tb m) keys]> tb.

Definition set_field (field : string) (v : Value) (r : Row) : Row :=
  {| fields := <[field := v]> (fields r); related := related r |}.

Definition set_related (field : string) (keys : gset Z) (r : Row) : Row :=
  {| fields := fields r; related := <[field := keys]> (related r) |}.

Definition update_keys (m : Model) (keys : list Z) (field : string) (v : Value)
    (tb : Tables) : Tables :=
  <[m := foldr (alter (set_field field v)) (table tb m) keys]> tb.

(** [obj.delete()]: the row of [obj] goes; rows of other models that Django
    deletes along with it are not followed. *)
Definition obj_delete (m : Model) (obj : Obj) : M unit :=
  write (InstanceDelete m (pk obj)) (delete_keys m [pk obj]).

(** [qs.delete()]: the rows of the query set go; rows of other models that
    Django deletes along with them are not followed. *)
Definition qdelete (qs : QuerySet) : M unit :=
  write (QueryDelete qs)
        (λ tb, delete_keys (qs_model qs) (pk <$> evaluate qs tb) tb).

(** [qs.update(field=v)] *)
Definition qupdate (qs : QuerySet) (field : string) (v : Value) : M unit :=
  write (QueryUpdate qs field v)
        (λ tb, update_keys (qs_model qs) (pk <$> evaluate qs tb) field v tb).

(** [getattr(obj, field).remove(target)] on a many-to-many field: the key of
    [target] leaves the set of keys that the row of [obj] is related to. *)
Definition related_remove (m : Model) (obj : Obj) (field : string) (target : Obj) : M unit :=
  write (RelatedRemove m (pk obj) field (pk target))
        (λ tb, <[m := alter (λ r, set_related field (related_keys r field ∖ {[pk target]}) r)
                            (pk obj) (table tb m)]> tb).

(** [getattr(obj, field).add(target)] on a many-to-many field: the key of
    [target] joins the set of keys that the row of [obj] is related to. *)
Definition related_add (m : Model) (obj : Obj) (field : string) (target : Obj) : M unit :=
  write (RelatedAdd m (pk obj) field (pk target))
        (λ tb, <[m := alter (λ r, set_related field (related_keys r field ∪ {[pk target]}) r)
                            (pk obj) (table tb m)]> tb).

(** The two statements the command hands to [cursor.execute], [page_id] being
    the column of the field [page]; any other statement is refused. *)
Definition sql_effect (sql : string) (params : list Z) (tb : Tables) : option Tables :=
  match params with
  | [p] =>
      if bool_decide (sql = "DELETE FROM cms_pageurl WHERE page_id = %s")
      then Some (delete_keys PageUrl
                   (pk <$> filter (λ obj, lookup_holds obj (Exact "page" (Some (Int p))))
                                  (instances (table tb PageUrl))) tb)
      else if bool_decide (sql = "DELETE FROM cms_page WHERE id = %s")
      then Some (delete_keys Page [p] tb)
      else None
  | _ => None
  end.

Definition cursor_execute (sql : string) (params : list Z) : M unit :=
  λ st, match fault env (Execute sql params) (db st) with
        | Some e => Raise e st
        | None =>
            match sql_effect sql params (db st) with
            | Some tb' => Ok () {| db := tb'; log := log st |}
            | None => Raise ProgrammingError st
            end
        end.

(** ** The command *)

Definition _get_replacement_page (page : Obj) : M Obj :=
  get (qexclude [Exact "id" (getattr page "id")]
         (qfilter [Exact "node_id" (getattr page "node_id")] (all Page objects))).

Definition relations : list Field :=
  filter (λ f, (one_to_many f || one_to_one f || many_to_many f)
               && auto_created f && negb (concrete f))
         (get_fields env).

(** The lookup [rel.field.name = page] on the related model of [rel]. *)
Definition refers_to (rel : Field) (page : Obj) : Lookup :=
  if many_to_many rel then Related (field_name rel) (pk page)
  else Exact (field_name rel) (ref page).

(** The body of the loop over [relations]. *)
Definition fix_relation (page replacement_page : Obj) (rel : Field) : M unit :=
  let model := related_model rel in
  if bool_decide (model = PageUrl) then ret ()
  else if one_to_one rel then
    qdelete (qfilter [refers_to rel page] (all model objects))
  else if many_to_many rel then
    m2m_objs <- iterate (qfilter [refers_to rel page] (all model objects)) ;;
    for_each m2m_objs (λ m2m_obj,
      related_remove model m2m_obj (field_name rel) page ;;;
      related_add model m2m_obj (field_name rel) replacement_page)
  else
    qupdate (qfilter [refers_to rel page] (all model objects))
            (field_name rel) (Int (pk replacement_page)).

Definition _fix_page_references (page : Obj) : M unit :=
  replacement_page <- _get_replacement_page page ;;
  logger_info "Fixing reference from Page %s to %s"
              [AInt (pk page); AInt (pk replacement_page)] ;;;
  for_each relations (fix_relation page replacement_page).

Definition plugin_relation_models : list RelatedField :=
  filter (λ r, ftype r = PageField) (_relation_tree env).

Definition _fix_pagefield_references (page : Obj) : M unit :=
  replacement_page <- _get_replacement_page page ;;
  logger_info "Fixing PageField references from Page %s to %s"
              [AInt (pk page); AInt (pk replacement_page)] ;;;
  for_each plugin_relation_models (λ rel,
    qupdate (qfilter [Exact (name rel) (ref page)] (all (model rel) objects))
            (name rel) (Int (pk replacement_page))).

Definition _delete_page (page : Obj) : M unit :=
  try_except
    (logger_info "Deleting Page %s" [AInt (pk page)] ;;;
     cursor_execute "DELETE FROM cms_pageurl WHERE page_id = %s" [pk page] ;;;
     cursor_execute "DELETE FROM cms_page WHERE id = %s" [pk page])
    ProtectedError
    (λ err, logger_error "Couldn't delete Page %s %s" [AInt (pk page); AExn err]).

(** The body of the loop over [placeholders]. *)
Definition delete_placeholder (placeholder : Obj) : M unit :=
  try_except
    (logger_debug "Deleting PageContent Placeholder %s" [AInt (pk placeholder)] ;;;
     obj_delete Placeholder placeholder)
    ProtectedError
    (λ err, logger_error "Couldn't delete PageContent Placeholder %s %s"
                         [AInt (pk placeholder); AExn err]).

Definition _delete_page_content_placeholders (page_content_contenttype page_content : Obj)
    : M unit :=
  placeholders <- iterate (qfilter [Exact "object_id" (getattr page_content "pk");
                                    Exact "content_type" (ref page_content_contenttype)]
                                   (all Placeholder objects)) ;;
  for_each placeholders delete_placeholder.

Definition _delete_page_content (page_content : Obj) : M unit :=
  try_except
    (logger_debug "Deleting PageContent %s" [AInt (pk page_content)] ;;;
     obj_delete PageContent page_content)
    ProtectedError
    (λ err, logger_error "Couldn't delete PageContent %s %s"
                         [AInt (pk page_content); AExn err]).

Definition _get_page_contents (page : Obj) : QuerySet :=
  qfilter [Exact "page" (ref page)] (all PageContent _base_manager).

Definition add_page_deleted (stats : Stats) : Stats :=
  {| page_count := page_count stats;
     page_deleted := page_deleted stats + 1;
     pagecontents_count := pagecontents_count stats;
     pagecontents_deleted := pagecontents_deleted stats |}.

Definition add_pagecontents_count (stats : Stats) (n : Z) : Stats :=
  {| page_count := page_count stats;
     page_deleted := page_deleted stats;
     pagecontents_count := pagecontents_count stats + n;
     pagecontents_deleted := pagecontents_deleted stats |}.

Definition add_pagecontents_deleted (stats : Stats) : Stats :=
  {| page_count := page_count stats;
     page_deleted := page_deleted stats;
     pagecontents_count := pagecontents_count stats;
     pagecontents_deleted := pagecontents_deleted stats + 1 |}.

(** The body of the loop over [page_content_list]. *)
Definition handle_page_content (page_content_contenttype : Obj) (stats : Stats)
    (page_content : Obj) : M Stats :=
  versions <- count (qfilter [Exact "object_id" (getattr page_content "pk");
                              Exact "content_type" (ref page_content_contenttype)]
                             (all Version objects)) ;;
  if bool_decide (versions = 0) then
    _delete_page_content_placeholders page_content_contenttype page_content ;;;
    _delete_page_content page_content ;;;
    ret (add_pagecontents_deleted stats)
  else ret stats.

(** The body of the loop over [page_list]. *)
Definition handle_page (page_content_contenttype : Obj) (stats : Stats) (page : Obj)
    : M Stats :=
  let page_content_list := _get_page_contents page in
  nonempty <- exists_ page_content_list ;;
  if negb nonempty then
    _fix_page_references page ;;;
    _fix_pagefield_references page ;;;
    _delete_page page ;;;
    ret (add_page_deleted stats)
  else
    n <- count page_content_list ;;
    let stats := add_pagecontents_count stats n in
    page_contents <- iterate page_content_list ;;
    for_each_acc page_contents (handle_page_content page_content_contenttype) stats.

Definition handle : M unit :=
  page_content_contenttype <-
    get (qfilter [Exact "app_label" (Some (Str "cms")); Exact "model" (Some (Str "pagecontent"))]
                 (all ContentType objects)) ;;
  let page_list := all Page objects in
  n <- count page_list ;;
  let stats := {| page_count := n; page_deleted := 0;
                  pagecontents_count := 0; pagecontents_deleted := 0 |} in
  pages <- iterate page_list ;;
  stats <- for_each_acc pages (handle_page page_content_contenttype) stats ;;
  logger_info "Stats: %s" [AStats stats].

End Command.

(** ** Notions the properties are stated with *)

(** The state in which a run ends, whether it returns or raises. *)
Definition final {A} (r : Result A) : State :=
  match r with Ok _ st => st | Raise _ st => st end.

(** The siblings of [page]: the other rows of [Page] on the same node. *)
Definition siblings (page : Obj) (tb : Tables) : list Obj :=
  filter (λ obj, getattr obj "node_id" = getattr page "node_id" ∧ pk obj ≠ pk page)
         (instances (table tb Page)).

(** The statistics [handle] starts from. *)
Definition initial_stats (n : Z) : Stats :=
  {| page_count := n; page_deleted := 0;
     pagecontents_count := 0; pagecontents_deleted := 0 |}.

(** The environment of [env] in which only [ProtectedError] is ever raised: a
    database call that fails with another exception goes through instead. *)
Definition only_protected (env : Env) : Env :=
  {| get_fields := get_fields env;
     _relation_tree := _relation_tree env;
     published := published env;
     fault := λ c tb, match fault env c tb with
                      | Some ProtectedError => Some ProtectedError
                      | _ => None
                      end |}.

(** The calls made inside a [try]: the raw SQL of [_delete_page] and the
    [delete()] of a placeholder or of a page content. *)
Definition in_try (c : Call) : bool :=
  match c with
  | Execute _ _ | InstanceDelete _ _ => true
  | _ => false
  end.

(** [m] raises no other exceptions than those of [P]. *)
Definition raises_only {A} (P : Exn → Prop) (m : M A) : Prop :=
  ∀ st e st', m st = Raise e st' → P e.

(** Whatever [m] does without meeting another exception than [ProtectedError],
    [m'] does too. *)
Definition agrees {A} (m m' : M A) : Prop :=
  ∀ st, match m st with
        | Ok a st' => m' st = Ok a st'
        | Raise e st' => e = ProtectedError → m' st = Raise e st'
        end.

(** What the loop over [m2m_objs] makes of a row: [page] is removed from the
    keys the many-to-many field relates it to and [replacement_page] added. *)
Definition repoint (field : string) (page replacement_page : Z) (r : Row) : Row :=
  set_related field (related_keys r field ∖ {[page]} ∪ {[replacement_page]}) r.

(** The objects of the related model of [rel] that refer to [page]: the rows
    of [model.objects.filter(rel.field.name = page)]. *)
Definition related_objects (env : Env) (rel : Field) (page : Obj) (tb : Tables) : list Obj :=
  evaluate env (qfilter [refers_to rel page] (all (related_model rel) objects)) tb.

(** The tables of the models outside [P] are in [s'] what they are in [s]. *)
Definition same_outside (P : Model → Prop) (s s' : State) : Prop :=
  ∀ m, ¬ P m → table (db s') m = table (db s) m.

(** The row [k] of model [m] has the key [target] in its field [field]. *)
Definition points_to (tb : Tables) (m : Model) (k : Z) (field : string) (target : Z) : Prop :=
  ∃ r, table tb m !! k = Some r ∧ fields r !! field = Some (Int target).

(** The rows of [model] attached to [page_content] through the generic
    relation [(content_type, object_id)]: the versions of a page content are
    [attached env Version ...], its placeholders [attached env Placeholder ...]. *)
Definition attached (env : Env) (model : Model) (page_content_contenttype page_content : Obj)
    (tb : Tables) : list Obj :=
  evaluate env (qfilter [Exact "object_id" (getattr page_content "pk");
                         Exact "content_type" (ref page_content_contenttype)]
                        (all model objects)) tb.

(** Deleting the rows [keys] of model [m], some of them perhaps not. *)
Definition deletes (m : Model) (keys : list Z) (s s' : State) : Prop :=
  same_outside (λ m', m' = m) s s' ∧
  ∀ k, table (db s') m !! k = table (db s) m !! k ∨
       (k ∈ keys ∧ table (db s') m !! k = None).

(** The page content with key [k] has a version. *)
Definition versioned (tb : Tables) (page_content_contenttype : Obj) (k : Z) : Prop :=
  ∃ v r, table tb Version !! v = Some r ∧
         fields r !! "object_id" = Some (Int k) ∧
         fields r !! "content_type" = Some (Int (pk page_content_contenttype)).


(** From [s] to [s'] only placeholders and page contents have changed, and
    neither a page content that has a version nor a placeholder of it. *)
Definition keeps_versioned (page_content_contenttype : Obj) (s s' : State) : Prop :=
  same_outside (λ m, m = Placeholder ∨ m = PageContent) s s' ∧
  ∀ k, versioned (db s) page_content_contenttype k →
       table (db s') PageContent !! k = table (db s) PageContent !! k ∧
       ∀ p r, table (db s) Placeholder !! p = Some r →
              fields r !! "object_id" = Some (Int k) →
              table (db s') Placeholder !! p = Some r.

(** The rows [keys] of model [m] may have gone from [s] to [s']; no other row
    of [m] has changed. *)
Definition shrinks (m : Model) (keys : list Z) (s s' : State) : Prop :=
  ∀ k, table (db s') m !! k = table (db s) m !! k ∨
       (k ∈ keys ∧ table (db s') m !! k = None).

(** The page with key [p] has a page content. *)
Definition has_content (tb : Tables) (p : Z) : Prop :=
  ∃ k r, table tb PageContent !! k = Some r ∧ fields r !! "page" = Some (Int p).

(** The tables of the CMS and of the versioning add-on that no model of
    another application is stored in. *)
Definition cms_tables : list Model := [Page; PageContent; Placeholder; Version; ContentType].

(** A reverse relation of [Page] as the schema of the CMS has them: the
    foreign key [page] of [PageUrl] or of [PageContent], or a field of a model
    that is none of the CMS's own. *)
Definition cms_relation (rel : Field) : bool :=
  bool_decide (related_model rel = PageUrl)
  || (bool_decide (related_model rel = PageContent)
      && bool_decide (field_name rel = "page") && one_to_many rel)
  || negb (bool_decide (related_model rel ∈ cms_tables)).

(** The schema of the CMS: the reverse relations of [Page] are as above, and a
    [PageField] is a field of a model that is none of the CMS's own. *)
Definition cms_schema (env : Env) : bool :=
  forallb cms_relation (relations env)
  && forallb (λ rel, negb (bool_decide (model rel ∈ cms_tables)))
             (plugin_relation_models env).

(** The statistics after the pages [processed], as the tables [tb] the run
    started from determine them: the number [n] of pages, the processed pages
    without a page content, the page contents of the processed pages, and those
    of them without a version. *)
Definition stats_after (env : Env) (page_content_contenttype : Obj) (tb : Tables) (n : Z)
    (processed : list Obj) : Stats :=
  let contents page := evaluate env (_get_page_contents page) tb in
  let versionless page :=
    filter (λ pc, attached env Version page_content_contenttype pc tb = []) (contents page) in
  {| page_count := n;
     page_deleted := Z.of_nat (length (filter (λ page, contents page = []) processed));
     pagecontents_count :=
       Z.of_nat (sum_list_with (λ page, length (contents page)) processed);
     pagecontents_deleted :=
       Z.of_nat (sum_list_with (λ page, length (versionless page)) processed) |}.

(** The statistics of a whole run. *)
Definition expected_stats (env : Env) (page_content_contenttype : Obj) (tb : Tables) : Stats :=
  let pages := evaluate env (all Page objects) tb in
  stats_after env page_content_contenttype tb (Z.of_nat (length pages)) pages.

(** After [_delete_page]: of the tables of the CMS only [Page] may have
    changed, and of its rows only the one of [page], which may have gone. *)
Definition only_page_row (page : Obj) (s s' : State) : Prop :=
  same_outside (λ m, m ∉ cms_tables ∨ m = Page) s s' ∧
  shrinks Page [pk page] s s'.

(** What holds of the tables [tb'] at any moment of a run that started from
    [tb]: versions and content types are as they were, and so are the page
    contents that have a version and the pages that have a page content; the
    other pages are as they were or gone. *)
Definition safe (page_content_contenttype : Obj) (tb tb' : Tables) : Prop :=
  table tb' Version = table tb Version ∧
  table tb' ContentType = table tb ContentType ∧
  (∀ k r, table tb PageContent !! k = Some r →
          versioned tb page_content_contenttype k →
          table tb' PageContent !! k = Some r) ∧
  (∀ p, has_content tb p → table tb' Page !! p = table tb Page !! p) ∧
  (∀ p, table tb' Page !! p = table tb Page !! p ∨ table tb' Page !! p = None).

(** The invariant of the loop over the pages, [processed] being the pages the
    loop is done with: besides [safe], the page contents are among those the
    run started from, those of the other pages are all there, and a processed
    page without page contents is gone unless a [ProtectedError] of the raw
    SQL was swallowed. *)
Definition page_loop_invariant (env : Env) (page_content_contenttype : Obj) (tb : Tables)
    (processed : list Obj) (tb' : Tables) : Prop :=
  safe page_content_contenttype tb tb' ∧
  (∀ k r, table tb' PageContent !! k = Some r → table tb PageContent !! k = Some r) ∧
  (∀ k r, table tb PageContent !! k = Some r →
          (∀ q, q ∈ processed → fields r !! "page" ≠ Some (Int (pk q))) →
          table tb' PageContent !! k = Some r) ∧
  ((∀ sql params tb, fault env (Execute sql params) tb ≠ Some ProtectedError) →
   ∀ q, q ∈ processed → evaluate env (_get_page_contents q) tb = [] →
        table tb' Page !! pk q = None).

(** [n] more page contents counted as deleted. *)
Definition more_pagecontents_deleted (stats : Stats) (n : nat) : Stats :=
  {| page_count := page_count stats;
     page_deleted := page_deleted stats;
     pagecontents_count := pagecontents_count stats;
     pagecontents_deleted := pagecontents_deleted stats + Z.of_nat n |}.

(** ** A site to run the command on

    Three pages: page 1, without page contents, and page 2 share node 10, and
    page 3 is on node 11. Page content 5 of page 2 has no version, page
    content 6 of page 3 has version 100; each has one placeholder. Page 1 is
    referred to by a permission, by an extension (one-to-one), by a menu
    (many-to-many) and by a link plugin (a [PageField]). *)

Definition make_row (fs : list (string * Value)) (rs : list (string * gset Z)) : Row :=
  {| fields := list_to_map fs; related := list_to_map rs |}.

Definition PagePermission : Model := "cms_pagepermission".
Definition IconExtension : Model := "site_iconextension".
Definition Menu : Model := "site_menu".
Definition Link : Model := "djangocms_link_link".

Definition site_tables : Tables :=
  list_to_map [
    (ContentType,
     list_to_map [(7, make_row [("app_label", Str "cms"); ("model", Str "pagecontent")] [])]);
    (Page,
     list_to_map [(1, make_row [("node_id", Int 10)] []);
                  (2, make_row [("node_id", Int 10)] []);
                  (3, make_row [("node_id", Int 11)] [])]);
    (PageUrl,
     list_to_map [(11, make_row [("page", Int 1)] []);
                  (12, make_row [("page", Int 2)] []);
                  (13, make_row [("page", Int 3)] [])]);
    (PageContent,
     list_to_map [(5, make_row [("page", Int 2)] []);
                  (6, make_row [("page", Int 3)] [])]);
    (Placeholder,
     list_to_map [(50, make_row [("object_id", Int 5); ("content_type", Int 7)] []);
                  (60, make_row [("object_id", Int 6); ("content_type", Int 7)] [])]);
    (Version,
     list_to_map [(100, make_row [("object_id", Int 6); ("content_type", Int 7)] [])]);
    (PagePermission, list_to_map [(70, make_row [("page", Int 1)] [])]);
    (IconExtension, list_to_map [(80, make_row [("extended_object", Int 1)] [])]);
    (Menu, list_to_map [(90, make_row [] [("pages", {[1; 3]})])]);
    (Link, list_to_map [(95, make_row [("internal_link", Int 1)] [])])
  ].

Definition pagecontent_rel : Field :=
  {| cardinality := Some OneToMany; auto_created := true; concrete := false;
     related_model := PageContent; field_name := "page" |}.
Definition pageurl_rel : Field :=
  {| cardinality := Some OneToMany; auto_created := true; concrete := false;
     related_model := PageUrl; field_name := "page" |}.
Definition permission_rel : Field :=
  {| cardinality := Some OneToMany; auto_created := true; concrete := false;
     related_model := PagePermission; field_name := "page" |}.
Definition extension_rel : Field :=
  {| cardinality := Some OneToOne; auto_created := true; concrete := false;
     related_model := IconExtension; field_name := "extended_object" |}.
Definition menu_rel : Field :=
  {| cardinality := Some ManyToMany; auto_created := true; concrete := false;
     related_model := Menu; field_name := "pages" |}.
Definition link_rel : Field :=
  {| cardinality := Some OneToMany; auto_created := true; concrete := false;
     related_model := Link; field_name := "internal_link" |}.

(** The fields of [Page]: its key, its foreign key to the tree node, and the
    reverse relations. *)
Definition site_fields : list Field :=
  [ {| cardinality := None; auto_created := true; concrete := true;
       related_model := ""; field_name := "" |};
    {| cardinality := Some ManyToOne; auto_created := false; concrete := true;
       related_model := "cms_treenode"; field_name := "" |};
    pagecontent_rel; pageurl_rel; permission_rel; extension_rel; menu_rel; link_rel ].

Definition link_field : RelatedField :=
  {| ftype := PageField; model := Link; name := "internal_link" |}.

Definition site_relation_tree : list RelatedField :=
  [ {| ftype := ForeignKey; model := PageContent; name := "page" |};
    {| ftype := ForeignKey; model := PageUrl; name := "page" |};
    {| ftype := ForeignKey; model := PagePermission; name := "page" |};
    {| ftype := OneToOneField; model := IconExtension; name := "extended_object" |};
    {| ftype := ManyToManyField; model := Menu; name := "pages" |};
    link_field ].

Definition page_1 : Obj := {| pk := 1; row := make_row [("node_id", Int 10)] [] |}.
Definition page_2 : Obj := {| pk := 2; row := make_row [("node_id", Int 10)] [] |}.
Definition page_4 : Obj := {| pk := 4; row := make_row [("node_id", Int 12)] [] |}.
Definition page_content_5 : Obj := {| pk := 5; row := make_row [("page", Int 2)] [] |}.
Definition content_type_7 : Obj :=
  {| pk := 7; row := make_row [("app_label", Str "cms"); ("model", Str "pagecontent")] [] |}.

(** The site with no page content published, so that the default manager of
    [PageContent] returns no row, and with no database call failing. *)
Definition site : Env :=
  {| get_fields := site_fields;
     _relation_tree := site_relation_tree;
     published := λ _ _, false;
     fault := λ _ _, None |}.

(** The same site with a protected foreign key to every page content, so that
    the [delete()] of a page content raises [ProtectedError]. *)
Definition protecting_site : Env :=
  {| get_fields := site_fields;
     _relation_tree := site_relation_tree;
     published := λ _ _, false;
     fault := λ c _, match c with
                     | InstanceDelete m _ =>
                         if bool_decide (m = PageContent) then Some ProtectedError else None
                     | _ => None
                     end |}.

(** The site without its one-to-one relation, that of the extension. *)
Definition plain_site : Env :=
  {| get_fields := filter (λ f, one_to_one f = false) site_fields;
     _relation_tree := site_relation_tree;
     published := λ _ _, false;
     fault := λ _ _, None |}.

Definition site_state : State := {| db := site_tables; log := [] |}.

(** A site whose only page has neither page contents nor a sibling. *)
Definition lonely_state : State :=
  {| db := list_to_map [
             (ContentType,
              list_to_map [(7, make_row [("app_label", Str "cms");
                                         ("model", Str "pagecontent")] [])]);
             (Page, list_to_map [(4, make_row [("node_id", Int 12)] [])])];
     log := [] |}.

(** Of the rows of model [m], none has changed from [s] to [s']: each is as it
    was, or gone. *)
Definition unchanged_or_gone (m : Model) (s s' : State) : Prop :=
  ∀ k, table (db s') m !! k = table (db s) m !! k ∨ table (db s') m !! k = None.

(** From [s] to [s'] no row of [Page], [PageContent] or [Placeholder] has
    changed, and the tables of [Version] and [ContentType] are the same. *)
Definition cms_rows_kept (s s' : State) : Prop :=
  (∀ m, m ∈ [Page; PageContent; Placeholder] → unchanged_or_gone m s s') ∧
  (∀ m, m ∈ [Version; ContentType] → table (db s') m = table (db s) m).

(** The row [r] with key [k] of the related model of [rel] refers to [target]
    through the field of [rel]: the lookup [rel.field.name = target] holds of
    it. *)
Definition refers (rel : Field) (target : Obj) (k : Z) (r : Row) : bool :=
  lookup_holds {| pk := k; row := r |} (refers_to rel target).

(** The page content [r] is one of a page of the tables [tb]: its field [page]
    is the key of a row of [Page], so that the loop over the pages comes to
    it. *)
Definition of_a_page (tb : Tables) (r : Row) : Prop :=
  ∃ p, fields r !! "page" = Some (Int p) ∧ is_Some (table tb Page !! p).

(** Of the page contents of the pages [processed], those that had no version
    in [tb] are gone from [tb']. *)
Definition versionless_gone (page_content_contenttype : Obj) (tb : Tables)
    (processed : list Obj) (tb' : Tables) : Prop :=
  ∀ k r q, q ∈ processed →
    table tb PageContent !! k = Some r →
    fields r !! "page" = Some (Int (pk q)) →
    ¬ versioned tb page_content_contenttype k →
    table tb' PageContent !! k = None.

(** A site with nothing to clean up: one page, with a page content that has a
    version. *)
Definition clean_state : State :=
  {| db := list_to_map [
             (ContentType,
              list_to_map [(7, make_row [("app_label", Str "cms");
                                         ("model", Str "pagecontent")] [])]);
             (Page, list_to_map [(3, make_row [("node_id", Int 11)] [])]);
             (PageContent, list_to_map [(6, make_row [("page", Int 3)] [])]);
             (Version,
              list_to_map [(100, make_row [("object_id", Int 6);
                                           ("content_type", Int 7)] [])])];
     log := [] |}.

(** The site on which the [DELETE] on [cms_page] raises [ProtectedError]. *)
Definition page_protecting_site : Env :=
  {| get_fields := site_fields;
     _relation_tree := site_relation_tree;
     published := λ _ _, false;
     fault := λ c _, match c with
                     | Execute sql _ =>
                         if bool_decide (sql = "DELETE FROM cms_page WHERE id = %s")
                         then Some ProtectedError else None
                     | _ => None
                     end |}.

(** The number of records with the message [m] in a log. *)
Definition logged (m : string) (l : list LogRecord) : Z :=
  Z.of_nat (length (filter (λ r, msg r = m) l)).

(** The rows of [Page] there are, and those the statistics count as deleted,
    less the deletions that the log says have failed. *)
Definition page_balance (stats : Stats) (s : State) : Z :=
  Z.of_nat (size (table (db s) Page)) + page_deleted stats
  - logged "Couldn't delete Page %s %s" (log s).

(** The same for the rows of [PageContent]. *)
Definition pagecontent_balance (stats : Stats) (s : State) : Z :=
  Z.of_nat (size (table (db s) PageContent)) + pagecontents_deleted stats
  - logged "Couldn't delete PageContent %s %s" (log s).

(** The row [r] with key [k] refers to [target] through its field [f]: the
    lookup [f = target] holds of it. *)
Definition refers_through (f : string) (target : Obj) (k : Z) (r : Row) : bool :=
  lookup_holds {| pk := k; row := r |} (Exact f (ref target)).

(** The row [r] of [Placeholder] is attached to the page content with key
    [kc]: its [object_id] is [kc] and its [content_type] the content type of
    [PageContent]. *)
Definition attached_to (page_content_contenttype : Obj) (r : Row) (kc : Z) : Prop :=
  fields r !! "object_id" = Some (Int kc) ∧
  fields r !! "content_type" = Some (Int (pk page_content_contenttype)).

(** The placeholder [r] is one of a page content of a page that has no version
    in the tables [tb]. *)
Definition of_versionless (page_content_contenttype : Obj) (tb : Tables) (r : Row) : Prop :=
  ∃ kc rc, attached_to page_content_contenttype r kc ∧
           table tb PageContent !! kc = Some rc ∧
           of_a_page tb rc ∧
           ¬ versioned tb page_content_contenttype kc.

(** The placeholders of [tb'] are those of [tb], but for placeholders of page
    contents without a version. *)
Definition placeholders_kept (page_content_contenttype : Obj) (tb tb' : Tables) : Prop :=
  ∀ k, table tb' Placeholder !! k = table tb Placeholder !! k ∨
       (table tb' Placeholder !! k = None ∧
        ∃ r, table tb Placeholder !! k = Some r ∧
             of_versionless page_content_contenttype tb r).

(** The placeholders of the page contents without a version of the pages
    [processed] are gone from [tb']. *)
Definition placeholders_gone (page_content_contenttype : Obj) (tb : Tables)
    (processed : list Obj) (tb' : Tables) : Prop :=
  ∀ q k r kc rc, q ∈ processed →
    table tb Placeholder !! k = Some r →
    attached_to page_content_contenttype r kc →
    table tb PageContent !! kc = Some rc →
    fields rc !! "page" = Some (Int (pk q)) →
    ¬ versioned tb page_content_contenttype kc →
    table tb' Placeholder !! k = None.

(** The row [r] of [PageUrl] is one of a page without page contents of the
    tables [tb]. *)
Definition of_an_orphan (tb : Tables) (r : Row) : Prop :=
  ∃ p, fields r !! "page" = Some (Int p) ∧ is_Some (table tb Page !! p) ∧
       ¬ has_content tb p.

(** The URLs of [tb'] are those of [tb], but for URLs of pages without page
    contents. *)
Definition urls_kept (tb tb' : Tables) : Prop :=
  ∀ k, table tb' PageUrl !! k = table tb PageUrl !! k ∨
       (table tb' PageUrl !! k = None ∧
        ∃ r, table tb PageUrl !! k = Some r ∧ of_an_orphan tb r).

(** The URLs of the pages [processed] that had no page contents in [tb] are
    gone from [tb']. *)
Definition urls_gone (tb : Tables) (processed : list Obj) (tb' : Tables) : Prop :=
  ∀ q k r, q ∈ processed → ¬ has_content tb (pk q) →
    table tb PageUrl !! k = Some r →
    fields r !! "page" = Some (Int (pk q)) →
    table tb' PageUrl !! k = None.

(** A site whose only page has two page contents, one with a version and one
    without. *)
Definition mixed_state : State :=
  {| db := list_to_map [
             (ContentType,
              list_to_map [(7, make_row [("app_label", Str "cms");
                                         ("model", Str "pagecontent")] [])]);
             (Page, list_to_map [(3, make_row [("node_id", Int 11)] [])]);
             (PageContent, list_to_map [(6, make_row [("page", Int 3)] []);
                                        (8, make_row [("page", Int 3)] [])]);
             (Version,
              list_to_map [(100, make_row [("object_id", Int 6);
                                           ("content_type", Int 7)] [])])];
     log := [] |}.

(** The page with key [p] is one of the pages [processed] that had no page
    contents in [tb]: with the SQL going through, the loop has deleted it. *)
Definition deleted_in (env : Env) (tb : Tables) (processed : list Obj) (p : Z) : Prop :=
  ∃ obj, obj ∈ processed ∧ pk obj = p ∧ evaluate env (_get_page_contents obj) tb = [].

(** A site with two pages on one node, neither with a page content. *)
Definition twins_state : State :=
  {| db := list_to_map [
             (ContentType,
              list_to_map [(7, make_row [("app_label", Str "cms");
                                         ("model", Str "pagecontent")] [])]);
             (Page, list_to_map [(1, make_row [("node_id", Int 10)] []);
                                 (2, make_row [("node_id", Int 10)] [])])];
     log := [] |}.

(** * Properties *)

(** ** Tables and rows *)

Lemma table_insert (tb : Tables) (m m' : Model) (t : Table) :
  table (<[m := t]> tb) m' = if decide (m = m') then t else table tb m'.
Proof.
  unfold table. rewrite lookup_insert.
  destruct (decide (m = m')); reflexivity.
Qed.

Lemma table_insert_ne (tb : Tables) (m m' : Model) (t : Table) :
  m ≠ m' → table (<[m := t]> tb) m' = table tb m'.
Proof. intros Hne. rewrite table_insert. destruct (decide (m = m')); congruence. Qed.

Lemma table_insert_eq (tb : Tables) (m : Model) (t : Table) :
  table (<[m := t]> tb) m = t.
Proof. rewrite table_insert. destruct (decide (m = m)); congruence. Qed.

Lemma lookup_foldr_delete (t : Table) (keys : list Z) (k : Z) :
  foldr delete t keys !! k = if decide (k ∈ keys) then None else t !! k.
Proof.
  induction keys as [|k' keys IH]; simpl.
  - destruct (decide (k ∈ [])) as [H|_]; [inversion H | reflexivity].
  - rewrite lookup_delete. destruct (decide (k' = k)) as [->|Hne].
    + destruct (decide (k ∈ k :: keys)) as [_|H]; [reflexivity|].
      exfalso. apply H. left.
    + rewrite IH. destruct (decide (k ∈ keys)) as [Hin|Hnin].
      * destruct (decide (k ∈ k' :: keys)) as [_|H]; [reflexivity|].
        exfalso. apply H. right. exact Hin.
      * destruct (decide (k ∈ k' :: keys)) as [H|_]; [|reflexivity].
        apply elem_of_cons in H as [->|H]; congruence.
Qed.

Lemma lookup_foldr_alter (f : Row → Row) (t : Table) (keys : list Z) (k : Z) :
  (∀ r, f (f r) = f r) →
  foldr (alter f) t keys !! k = if decide (k ∈ keys) then f <$> t !! k else t !! k.
Proof.
  intros Hf. induction keys as [|k' keys IH]; simpl.
  - destruct (decide (k ∈ [])) as [H|_]; [inversion H | reflexivity].
  - rewrite lookup_alter. destruct (decide (k' = k)) as [->|Hne].
    + destruct (decide (k ∈ k :: keys)) as [_|H]; [|exfalso; apply H; left].
      rewrite IH. destruct (decide (k ∈ keys)); [|reflexivity].
      destruct (t !! k); simpl; [|reflexivity]. rewrite Hf. reflexivity.
    + rewrite IH. destruct (decide (k ∈ keys)) as [Hin|Hnin].
      * destruct (decide (k ∈ k' :: keys)) as [_|H]; [reflexivity|].
        exfalso. apply H. right. exact Hin.
      * destruct (decide (k ∈ k' :: keys)) as [H|_]; [|reflexivity].
        apply elem_of_cons in H as [->|H]; congruence.
Qed.

Lemma set_field_idemp (field : string) (v : Value) (r : Row) :
  set_field field v (set_field field v r) = set_field field v r.
Proof. unfold set_field. simpl. rewrite insert_insert_eq. reflexivity. Qed.

Lemma table_delete_keys (m m' : Model) (keys : list Z) (tb : Tables) (k : Z) :
  table (delete_keys m keys tb) m' !! k =
  if decide (m = m' ∧ k ∈ keys) then None else table tb m' !! k.
Proof.
  unfold delete_keys. rewrite table_insert.
  destruct (decide (m = m')) as [->|Hne].
  - rewrite lookup_foldr_delete.
    destruct (decide (k ∈ keys)), (decide (m' = m' ∧ k ∈ keys)); tauto || reflexivity.
  - destruct (decide (m = m' ∧ k ∈ keys)); tauto || reflexivity.
Qed.

Lemma table_update_keys (m m' : Model) (keys : list Z) (field : string) (v : Value)
    (tb : Tables) (k : Z) :
  table (update_keys m keys field v tb) m' !! k =
  if decide (m = m' ∧ k ∈ keys) then set_field field v <$> table tb m' !! k
  else table tb m' !! k.
Proof.
  unfold update_keys. rewrite table_insert.
  destruct (decide (m = m')) as [->|Hne].
  - rewrite lookup_foldr_alter by apply set_field_idemp.
    destruct (decide (k ∈ keys)), (decide (m' = m' ∧ k ∈ keys)); tauto || reflexivity.
  - destruct (decide (m = m' ∧ k ∈ keys)); tauto || reflexivity.
Qed.

Lemma table_delete_keys_nil (m m' : Model) (tb : Tables) :
  table (delete_keys m [] tb) m' = table tb m'.
Proof.
  apply map_eq. intros k. rewrite table_delete_keys.
  destruct (decide (m = m' ∧ k ∈ [])) as [[_ H]|_]; [inversion H | reflexivity].
Qed.

Lemma table_update_keys_nil (m m' : Model) (field : string) (v : Value) (tb : Tables) :
  table (update_keys m [] field v tb) m' = table tb m'.
Proof.
  apply map_eq. intros k. rewrite table_update_keys.
  destruct (decide (m = m' ∧ k ∈ [])) as [[_ H]|_]; [inversion H | reflexivity].
Qed.

Lemma elem_of_instances (obj : Obj) (t : Table) :
  obj ∈ instances t ↔ t !! pk obj = Some (row obj).
Proof.
  unfold instances. rewrite list_elem_of_fmap. split.
  - intros [[k r] [-> Hin]]. simpl. apply elem_of_map_to_list. exact Hin.
  - intros H. exists (pk obj, row obj). split.
    + destruct obj; reflexivity.
    + apply elem_of_map_to_list. exact H.
Qed.

Lemma pk_instances (t : Table) : pk <$> instances t = (map_to_list t).*1.
Proof.
  unfold instances. rewrite <- list_fmap_compose. apply list_fmap_ext.
  intros i [k r] _. reflexivity.
Qed.

Lemma NoDup_pk_instances (t : Table) : NoDup (pk <$> instances t).
Proof. rewrite pk_instances. apply NoDup_fst_map_to_list. Qed.

Lemma length_instances (t : Table) : length (instances t) = size t.
Proof. unfold instances. rewrite length_fmap. apply length_map_to_list. Qed.

Lemma NoDup_pk_filter (P : Obj → Prop) `{!∀ x, Decision (P x)} (l : list Obj) :
  NoDup (pk <$> l) → NoDup (pk <$> filter P l).
Proof.
  intros Hnd. apply (sublist_NoDup (pk <$> filter P l) (pk <$> l)).
  - exact Hnd.
  - apply fmap_sublist, sublist_filter.
Qed.

Lemma instances_pk_inj (t : Table) (a b : Obj) :
  a ∈ instances t → b ∈ instances t → pk a = pk b → a = b.
Proof.
  rewrite !elem_of_instances. intros Ha Hb Hk. rewrite Hk in Ha.
  destruct a, b; simpl in *. subst. congruence.
Qed.

(** ** Query sets *)

Section Queries.

Variable env : Env.

Lemma elem_of_manager_rows_base (m : Model) (tb : Tables) (obj : Obj) :
  obj ∈ manager_rows env m _base_manager tb ↔ table tb m !! pk obj = Some (row obj).
Proof. apply elem_of_instances. Qed.

Lemma manager_rows_objects (m : Model) (tb : Tables) :
  m ≠ PageContent → manager_rows env m objects tb = instances (table tb m).
Proof. intros Hne. unfold manager_rows. rewrite bool_decide_eq_false_2; done. Qed.

Lemma manager_rows_sub (m : Model) (mgr : Manager) (tb : Tables) (obj : Obj) :
  obj ∈ manager_rows env m mgr tb → table tb m !! pk obj = Some (row obj).
Proof.
  unfold manager_rows. destruct mgr; [|apply elem_of_instances].
  destruct (bool_decide (m = PageContent)); [|apply elem_of_instances].
  intros [_ H]%list_elem_of_filter. apply elem_of_instances, H.
Qed.

Lemma NoDup_pk_manager_rows (m : Model) (mgr : Manager) (tb : Tables) :
  NoDup (pk <$> manager_rows env m mgr tb).
Proof.
  unfold manager_rows. destruct mgr; [|apply NoDup_pk_instances].
  destruct (bool_decide (m = PageContent)); [|apply NoDup_pk_instances].
  apply NoDup_pk_filter, NoDup_pk_instances.
Qed.

Lemma elem_of_evaluate (qs : QuerySet) (tb : Tables) (obj : Obj) :
  obj ∈ evaluate env qs tb ↔
  obj ∈ manager_rows env (qs_model qs) (qs_manager qs) tb ∧
  forallb (clause_holds obj) (qs_clauses qs) = true.
Proof.
  unfold evaluate. rewrite list_elem_of_filter. rewrite Is_true_true. tauto.
Qed.

Lemma evaluate_sub (qs : QuerySet) (tb : Tables) (obj : Obj) :
  obj ∈ evaluate env qs tb → table tb (qs_model qs) !! pk obj = Some (row obj).
Proof. intros [H _]%elem_of_evaluate. eapply manager_rows_sub, H. Qed.

Lemma NoDup_pk_evaluate (qs : QuerySet) (tb : Tables) :
  NoDup (pk <$> evaluate env qs tb).
Proof. apply NoDup_pk_filter, NoDup_pk_manager_rows. Qed.

(** The rows of [m.objects.filter(kw)] or [m._base_manager.filter(kw)]. *)
Lemma elem_of_evaluate_filter (m : Model) (mgr : Manager) (kw : list Lookup)
    (tb : Tables) (obj : Obj) :
  obj ∈ evaluate env (qfilter kw (all m mgr)) tb ↔
  obj ∈ manager_rows env m mgr tb ∧ forallb (lookup_holds obj) kw = true.
Proof.
  rewrite elem_of_evaluate. simpl. rewrite andb_true_r. reflexivity.
Qed.

Lemma evaluate_nil_iff (qs : QuerySet) (tb : Tables) :
  evaluate env qs tb = [] ↔ ∀ obj, obj ∉ evaluate env qs tb.
Proof.
  split.
  - intros -> obj H. inversion H.
  - intros H. destruct (evaluate env qs tb) as [|x l]; [reflexivity|].
    exfalso. apply (H x). left.
Qed.

End Queries.

(** ** Runs *)

Lemma for_each_app {A} (l1 l2 : list A) (body : A → M unit) (st : State) :
  for_each (l1 ++ l2) body st =
  match for_each l1 body st with
  | Ok _ st' => for_each l2 body st'
  | Raise e st' => Raise e st'
  end.
Proof.
  revert st. induction l1 as [|x l1 IH]; intros st; simpl; [reflexivity|].
  unfold bind. destruct (body x st) as [[] st'|e st']; [apply IH | reflexivity].
Qed.

Lemma for_each_acc_app {A S} (l1 l2 : list A) (body : S → A → M S) (acc : S) (st : State) :
  for_each_acc (l1 ++ l2) body acc st =
  match for_each_acc l1 body acc st with
  | Ok acc' st' => for_each_acc l2 body acc' st'
  | Raise e st' => Raise e st'
  end.
Proof.
  revert acc st. induction l1 as [|x l1 IH]; intros acc st; simpl; [reflexivity|].
  unfold bind. destruct (body acc x st) as [acc' st'|e st']; [apply IH | reflexivity].
Qed.

(** A loop invariant: [R] relates the state before an iteration to the state
    in which the iteration ends, and [I] holds before every iteration. *)
Lemma for_each_final {A} (R : State → State → Prop) (I : State → Prop)
    (l : list A) (body : A → M unit) (st : State) :
  (∀ s, R s s) → (∀ s1 s2 s3, R s1 s2 → R s2 s3 → R s1 s3) →
  (∀ x s, x ∈ l → I s → R s (final (body x s)) ∧ ∀ s', body x s = Ok () s' → I s') →
  I st →
  R st (final (for_each l body st)) ∧ ∀ s', for_each l body st = Ok () s' → I s'.
Proof.
  intros Hrefl Htrans. revert st.
  induction l as [|x l IH]; intros st Hbody HI; simpl.
  - split; [apply Hrefl|]. intros s' [= <-]. exact HI.
  - destruct (Hbody x st) as [HR HI']; [left | exact HI |].
    unfold bind. destruct (body x st) as [[] st'|e st'] eqn:Hx; simpl in *.
    + destruct (IH st') as [HR' HI''].
      * intros y s Hy. apply Hbody. right. exact Hy.
      * apply HI'. reflexivity.
      * split; [eapply Htrans; eassumption | exact HI''].
    + split; [exact HR | discriminate].
Qed.

Lemma for_each_acc_final {A S} (R : State → State → Prop) (I : S → State → Prop)
    (l : list A) (body : S → A → M S) (acc : S) (st : State) :
  (∀ s, R s s) → (∀ s1 s2 s3, R s1 s2 → R s2 s3 → R s1 s3) →
  (∀ x a s, x ∈ l → I a s →
     R s (final (body a x s)) ∧ ∀ a' s', body a x s = Ok a' s' → I a' s') →
  I acc st →
  R st (final (for_each_acc l body acc st)) ∧
  ∀ a' s', for_each_acc l body acc st = Ok a' s' → I a' s'.
Proof.
  intros Hrefl Htrans. revert acc st.
  induction l as [|x l IH]; intros acc st Hbody HI; simpl.
  - split; [apply Hrefl|]. intros a' s' [= <- <-]. exact HI.
  - destruct (Hbody x acc st) as [HR HI']; [left | exact HI |].
    unfold bind. destruct (body acc x st) as [acc' st'|e st'] eqn:Hx; simpl in *.
    + destruct (IH acc' st') as [HR' HI''].
      * intros y a s Hy. apply Hbody. right. exact Hy.
      * apply HI'. reflexivity.
      * split; [eapply Htrans; eassumption | exact HI''].
    + split; [exact HR | discriminate].
Qed.

(** ** The replacement page *)

Section Replacement.

Variable env : Env.

Lemma Page_not_PageContent : Page ≠ PageContent.
Proof. discriminate. Qed.

Lemma replacement_query (page : Obj) (tb : Tables) :
  evaluate env (qexclude [Exact "id" (getattr page "id")]
                  (qfilter [Exact "node_id" (getattr page "node_id")] (all Page objects))) tb
  = siblings page tb.
Proof.
  unfold evaluate, siblings.
  change (manager_rows env _ _ tb) with (manager_rows env Page objects tb).
  rewrite manager_rows_objects by apply Page_not_PageContent.
  apply list_filter_iff. intros obj. rewrite Is_true_true. simpl.
  rewrite !andb_true_r, andb_true_iff, negb_true_iff.
  rewrite bool_decide_eq_true, bool_decide_eq_false.
  unfold getattr. simpl. split.
  - intros [H1 H2]. split; [exact H1|]. congruence.
  - intros [H1 H2]. split; [exact H1|]. congruence.
Qed.

Lemma get_replacement_page_run (page : Obj) (st : State) :
  _get_replacement_page env page st =
  match siblings page (db st) with
  | [] => Raise DoesNotExist st
  | [r] => Ok r st
  | _ :: _ :: _ => Raise MultipleObjectsReturned st
  end.
Proof. unfold _get_replacement_page, get. rewrite replacement_query. reflexivity. Qed.

Lemma handle_run (st : State) :
  handle env st =
  match get env (qfilter [Exact "app_label" (Some (Str "cms"));
                          Exact "model" (Some (Str "pagecontent"))]
                         (all ContentType objects)) st with
  | Raise e st' => Raise e st'
  | Ok ct st' =>
      match for_each_acc (evaluate env (all Page objects) (db st')) (handle_page env ct)
              (initial_stats (Z.of_nat (length (evaluate env (all Page objects) (db st')))))
              st' with
      | Raise e st'' => Raise e st''
      | Ok stats st'' => logger_info "Stats: %s" [AStats stats] st''
      end
  end.
Proof.
  unfold handle, bind. destruct (get env _ st) as [ct st'|e st']; reflexivity.
Qed.

Lemma fix_page_references_run (page : Obj) (st : State) :
  _fix_page_references env page st =
  match _get_replacement_page env page st with
  | Raise e st' => Raise e st'
  | Ok replacement_page st' =>
      (logger_info "Fixing reference from Page %s to %s"
                   [AInt (pk page); AInt (pk replacement_page)] ;;;
       for_each (relations env) (fix_relation env page replacement_page)) st'
  end.
Proof.
  unfold _fix_page_references at 1, bind at 1.
  destruct (_get_replacement_page env page st); reflexivity.
Qed.

Lemma fix_pagefield_references_run (page : Obj) (st : State) :
  _fix_pagefield_references env page st =
  match _get_replacement_page env page st with
  | Raise e st' => Raise e st'
  | Ok replacement_page st' =>
      (logger_info "Fixing PageField references from Page %s to %s"
                   [AInt (pk page); AInt (pk replacement_page)] ;;;
       for_each (plugin_relation_models env) (λ rel,
         qupdate env (qfilter [Exact (name rel) (ref page)] (all (model rel) objects))
                 (name rel) (Int (pk replacement_page)))) st'
  end.
Proof.
  unfold _fix_pagefield_references at 1, bind at 1.
  destruct (_get_replacement_page env page st); reflexivity.
Qed.

Lemma handle_page_orphan (ct : Obj) (stats : Stats) (page : Obj) (st : State) :
  evaluate env (_get_page_contents page) (db st) = [] →
  handle_page env ct stats page st =
  (_fix_page_references env page ;;;
   _fix_pagefield_references env page ;;;
   _delete_page env page ;;;
   ret (add_page_deleted stats)) st.
Proof.
  intros Hnil. unfold handle_page at 1, bind at 1, exists_.
  rewrite Hnil. reflexivity.
Qed.

Lemma handle_page_contents (ct : Obj) (stats : Stats) (page : Obj) (st : State) :
  evaluate env (_get_page_contents page) (db st) ≠ [] →
  handle_page env ct stats page st =
  for_each_acc (evaluate env (_get_page_contents page) (db st))
    (handle_page_content env ct)
    (add_pagecontents_count stats
       (Z.of_nat (length (evaluate env (_get_page_contents page) (db st))))) st.
Proof.
  intros Hne. unfold handle_page at 1, bind at 1, exists_.
  rewrite bool_decide_eq_true_2 by exact Hne. reflexivity.
Qed.

(** C2. [_get_replacement_page page] returns the one other row of [Page] on
    the node of [page]. With no such row it raises [DoesNotExist] and with
    several [MultipleObjectsReturned]; neither is [ProtectedError], nothing is
    written, and when [page] is an orphan the exception leaves [handle_page],
    the loop over the pages and [handle]. *)
Theorem replacement_page_is_the_unique_sibling (page ct : Obj) (stats : Stats) (st : State) :
  match siblings page (db st) with
  | [r] =>
      _get_replacement_page env page st = Ok r st ∧
      r ∈ instances (table (db st) Page) ∧
      getattr r "node_id" = getattr page "node_id" ∧ pk r ≠ pk page
  | l =>
      let e := match l with [] => DoesNotExist | _ => MultipleObjectsReturned end in
      e ≠ ProtectedError ∧
      _get_replacement_page env page st = Raise e st ∧
      (evaluate env (_get_page_contents page) (db st) = [] →
       handle_page env ct stats page st = Raise e st ∧
       ∀ (st0 : State) (pre rest : list Obj),
         get env (qfilter [Exact "app_label" (Some (Str "cms"));
                           Exact "model" (Some (Str "pagecontent"))]
                          (all ContentType objects)) st0 = Ok ct st0 →
         evaluate env (all Page objects) (db st0) = pre ++ page :: rest →
         for_each_acc pre (handle_page env ct)
           (initial_stats (Z.of_nat (length (pre ++ page :: rest)))) st0 = Ok stats st →
         handle env st0 = Raise e st)
  end.
Proof.
  pose proof (get_replacement_page_run page st) as Hrun.
  assert (Habort : ∀ e, _get_replacement_page env page st = Raise e st →
            evaluate env (_get_page_contents page) (db st) = [] →
            handle_page env ct stats page st = Raise e st ∧
            ∀ (st0 : State) (pre rest : list Obj),
              get env (qfilter [Exact "app_label" (Some (Str "cms"));
                                Exact "model" (Some (Str "pagecontent"))]
                               (all ContentType objects)) st0 = Ok ct st0 →
              evaluate env (all Page objects) (db st0) = pre ++ page :: rest →
              for_each_acc pre (handle_page env ct)
                (initial_stats (Z.of_nat (length (pre ++ page :: rest)))) st0 = Ok stats st →
              handle env st0 = Raise e st).
  { intros e He Hnil.
    assert (Hpage : handle_page env ct stats page st = Raise e st).
    { rewrite handle_page_orphan by exact Hnil.
      unfold bind at 1. rewrite fix_page_references_run, He. reflexivity. }
    split; [exact Hpage|].
    intros st0 pre rest Hct Hpages Hpre.
    rewrite handle_run, Hct, Hpages, for_each_acc_app, Hpre. simpl.
    unfold bind. rewrite Hpage. reflexivity. }
  destruct (siblings page (db st)) as [|r [|r' l]] eqn:Hsib.
  - simpl. split; [discriminate|]. split; [exact Hrun|]. apply Habort, Hrun.
  - split; [exact Hrun|].
    assert (Hin : r ∈ siblings page (db st)) by (rewrite Hsib; left).
    apply list_elem_of_filter in Hin as [[H1 H2] H3]. auto.
  - simpl. split; [discriminate|]. split; [exact Hrun|]. apply Habort, Hrun.
Qed.

End Replacement.

(** ** Exceptions *)

Lemma raises_only_ret {A} (P : Exn → Prop) (a : A) : raises_only P (ret a).
Proof. intros st e st' H. discriminate. Qed.

Lemma raises_only_bind {A B} (P : Exn → Prop) (m : M A) (k : A → M B) :
  raises_only P m → (∀ a, raises_only P (k a)) → raises_only P (bind m k).
Proof.
  intros Hm Hk st e st'. unfold bind.
  destruct (m st) as [a s|e' s] eqn:Hms.
  - apply Hk.
  - intros [= -> ->]. eapply Hm, Hms.
Qed.

Lemma raises_only_for_each {A} (P : Exn → Prop) (l : list A) (body : A → M unit) :
  (∀ x, raises_only P (body x)) → raises_only P (for_each l body).
Proof.
  intros Hbody. induction l as [|x l IH]; simpl.
  - apply raises_only_ret.
  - apply raises_only_bind; [apply Hbody | intros _; exact IH].
Qed.

Lemma raises_only_for_each_acc {A S} (P : Exn → Prop) (l : list A)
    (body : S → A → M S) (acc : S) :
  (∀ a x, raises_only P (body a x)) → raises_only P (for_each_acc l body acc).
Proof.
  intros Hbody. revert acc. induction l as [|x l IH]; intros acc; simpl.
  - apply raises_only_ret.
  - apply raises_only_bind; [apply Hbody | intros a; apply IH].
Qed.

Lemma raises_only_try_except {A} (P : Exn → Prop) (body : M A) (exc : Exn)
    (handler : Exn → M A) :
  raises_only (λ e, P e ∨ e = exc) body → (∀ e, raises_only P (handler e)) →
  raises_only P (try_except body exc handler).
Proof.
  intros Hbody Hh st e st'. unfold try_except.
  destruct (body st) as [a s|e' s] eqn:Hb; [discriminate|].
  destruct (bool_decide_reflect (e' = exc)) as [->|Hne].
  - apply Hh.
  - intros [= -> ->]. destruct (Hbody _ _ _ Hb); [assumption | contradiction].
Qed.

(** A computation that raises no exception returns. *)
Lemma never_raises {A} (m : M A) (st : State) :
  raises_only (λ _, False) m → ∃ a st', m st = Ok a st'.
Proof.
  intros H. destruct (m st) as [a s|e s] eqn:Hm; [eauto|].
  destruct (H _ _ _ Hm).
Qed.

Lemma raises_only_weaken {A} (P Q : Exn → Prop) (m : M A) :
  (∀ e, P e → Q e) → raises_only P m → raises_only Q m.
Proof. intros HPQ Hm st e st' H. eapply HPQ, Hm, H. Qed.

Lemma raises_only_emit (P : Exn → Prop) (lv : Level) (m : string) (a : list LogArg) :
  raises_only P (emit lv m a).
Proof. intros st e st' H. discriminate. Qed.

Lemma agrees_refl {A} (m : M A) : agrees m m.
Proof. intros st. destruct (m st); auto. Qed.

Lemma agrees_bind {A B} (m m' : M A) (k k' : A → M B) :
  agrees m m' → (∀ a, agrees (k a) (k' a)) → agrees (bind m k) (bind m' k').
Proof.
  intros Hm Hk st. unfold bind. specialize (Hm st).
  destruct (m st) as [a s|e s].
  - rewrite Hm. apply Hk.
  - intros He. rewrite (Hm He). reflexivity.
Qed.

Lemma agrees_for_each {A} (l : list A) (body body' : A → M unit) :
  (∀ x, agrees (body x) (body' x)) → agrees (for_each l body) (for_each l body').
Proof.
  intros Hbody. induction l as [|x l IH]; simpl.
  - apply agrees_refl.
  - apply agrees_bind; [apply Hbody | intros _; exact IH].
Qed.

Lemma agrees_for_each_acc {A S} (l : list A) (body body' : S → A → M S) (acc : S) :
  (∀ a x, agrees (body a x) (body' a x)) →
  agrees (for_each_acc l body acc) (for_each_acc l body' acc).
Proof.
  intros Hbody. revert acc. induction l as [|x l IH]; intros acc; simpl.
  - apply agrees_refl.
  - apply agrees_bind; [apply Hbody | intros a; apply IH].
Qed.

Lemma agrees_try_except {A} (body body' : M A) (handler : Exn → M A) :
  agrees body body' →
  agrees (try_except body ProtectedError handler)
         (try_except body' ProtectedError handler).
Proof.
  intros Hb st. unfold try_except. specialize (Hb st).
  destruct (body st) as [a s|e s].
  - rewrite Hb. reflexivity.
  - destruct (bool_decide_reflect (e = ProtectedError)) as [->|Hne].
    + rewrite Hb by reflexivity. simpl. destruct (handler ProtectedError s); auto.
    + intros He. contradiction.
Qed.

Section Exceptions.

Variable env : Env.

Lemma agrees_write (c : Call) (effect : Tables → Tables) :
  agrees (write env c effect) (write (only_protected env) c effect).
Proof.
  intros st. unfold write. simpl.
  destruct (fault env c (db st)) as [e|]; [|reflexivity].
  intros ->. reflexivity.
Qed.

Lemma agrees_cursor_execute (sql : string) (params : list Z) :
  agrees (cursor_execute env sql params) (cursor_execute (only_protected env) sql params).
Proof.
  intros st. unfold cursor_execute. simpl.
  destruct (fault env (Execute sql params) (db st)) as [e|].
  - intros ->. reflexivity.
  - destruct (sql_effect sql params (db st)); [reflexivity|]. discriminate.
Qed.

Lemma agrees_fix_relation (page replacement_page : Obj) (rel : Field) :
  agrees (fix_relation env page replacement_page rel)
         (fix_relation (only_protected env) page replacement_page rel).
Proof.
  unfold fix_relation.
  destruct (bool_decide (related_model rel = PageUrl)); [apply agrees_refl|].
  destruct (one_to_one rel); [apply agrees_write|].
  destruct (many_to_many rel); [|apply agrees_write].
  apply agrees_bind; [apply agrees_refl|]. intros objs.
  apply agrees_for_each. intros obj.
  apply agrees_bind; [apply agrees_write | intros _; apply agrees_write].
Qed.

Lemma agrees_fix_page_references (page : Obj) :
  agrees (_fix_page_references env page) (_fix_page_references (only_protected env) page).
Proof.
  apply agrees_bind; [apply agrees_refl|]. intros r.
  apply agrees_bind; [apply agrees_refl|]. intros _.
  apply agrees_for_each. intros rel. apply agrees_fix_relation.
Qed.

Lemma agrees_fix_pagefield_references (page : Obj) :
  agrees (_fix_pagefield_references env page)
         (_fix_pagefield_references (only_protected env) page).
Proof.
  apply agrees_bind; [apply agrees_refl|]. intros r.
  apply agrees_bind; [apply agrees_refl|]. intros _.
  apply agrees_for_each. intros rel. apply agrees_write.
Qed.

Lemma agrees_delete_page (page : Obj) :
  agrees (_delete_page env page) (_delete_page (only_protected env) page).
Proof.
  apply agrees_try_except.
  apply agrees_bind; [apply agrees_refl|]. intros _.
  apply agrees_bind; [apply agrees_cursor_execute|]. intros _.
  apply agrees_cursor_execute.
Qed.

Lemma agrees_delete_placeholder (placeholder : Obj) :
  agrees (delete_placeholder env placeholder)
         (delete_placeholder (only_protected env) placeholder).
Proof.
  apply agrees_try_except.
  apply agrees_bind; [apply agrees_refl|]. intros _. apply agrees_write.
Qed.

Lemma agrees_delete_page_content (page_content : Obj) :
  agrees (_delete_page_content env page_content)
         (_delete_page_content (only_protected env) page_content).
Proof.
  apply agrees_try_except.
  apply agrees_bind; [apply agrees_refl|]. intros _. apply agrees_write.
Qed.

Lemma agrees_handle_page_content (ct : Obj) (stats : Stats) (page_content : Obj) :
  agrees (handle_page_content env ct stats page_content)
         (handle_page_content (only_protected env) ct stats page_content).
Proof.
  apply agrees_bind; [apply agrees_refl|]. intros n.
  destruct (bool_decide (n = 0)); [|apply agrees_refl].
  apply agrees_bind.
  { apply agrees_bind; [apply agrees_refl|]. intros phs.
    apply agrees_for_each, agrees_delete_placeholder. }
  intros _. apply agrees_bind; [apply agrees_delete_page_content|].
  intros _. apply agrees_refl.
Qed.

Lemma agrees_handle_page (ct : Obj) (stats : Stats) (page : Obj) :
  agrees (handle_page env ct stats page) (handle_page (only_protected env) ct stats page).
Proof.
  apply agrees_bind; [apply agrees_refl|]. intros b.
  destruct (negb b).
  - apply agrees_bind; [apply agrees_fix_page_references|]. intros _.
    apply agrees_bind; [apply agrees_fix_pagefield_references|]. intros _.
    apply agrees_bind; [apply agrees_delete_page|]. intros _. apply agrees_refl.
  - apply agrees_bind; [apply agrees_refl|]. intros n.
    apply agrees_bind; [apply agrees_refl|]. intros pcs.
    apply agrees_for_each_acc. intros a x. apply agrees_handle_page_content.
Qed.

Lemma agrees_handle : agrees (handle env) (handle (only_protected env)).
Proof.
  apply agrees_bind; [apply agrees_refl|]. intros ct.
  apply agrees_bind; [apply agrees_refl|]. intros n.
  apply agrees_bind; [apply agrees_refl|]. intros pages.
  apply agrees_bind; [|intros s; apply agrees_refl].
  apply agrees_for_each_acc. intros a x. apply agrees_handle_page.
Qed.

Lemma try_except_run {A} (body : M A) (handler : Exn → M A) (st : State) :
  try_except body ProtectedError handler st =
  match body st with
  | Ok a st' => Ok a st'
  | Raise ProtectedError st' => handler ProtectedError st'
  | Raise e st' => Raise e st'
  end.
Proof.
  unfold try_except. destruct (body st) as [a s|e s]; [reflexivity|].
  destruct e; reflexivity.
Qed.

Lemma raises_only_query {A} (P : Exn → Prop) (f : State → A) :
  raises_only P (λ st, Ok (f st) st).
Proof. intros st e st' H. discriminate. Qed.

Lemma raises_only_get (qs : QuerySet) :
  raises_only (λ e, e = DoesNotExist ∨ e = MultipleObjectsReturned) (get env qs).
Proof.
  intros st e st'. unfold get.
  destruct (evaluate env qs (db st)) as [|x [|y l]]; intros [= <- _]; auto.
Qed.

Section Faults.

Hypothesis faults_in_try :
  ∀ c tb e, fault env c tb = Some e → e = ProtectedError ∧ in_try c = true.

Lemma raises_only_write (P : Exn → Prop) (c : Call) (effect : Tables → Tables) :
  in_try c = false → raises_only P (write env c effect).
Proof.
  intros Hc st e st'. unfold write.
  destruct (fault env c (db st)) as [e'|] eqn:Hf; [|discriminate].
  apply faults_in_try in Hf as [_ Hf]. congruence.
Qed.

Lemma raises_only_write_try (P : Exn → Prop) (c : Call) (effect : Tables → Tables) :
  raises_only (λ e, P e ∨ e = ProtectedError) (write env c effect).
Proof.
  intros st e st'. unfold write.
  destruct (fault env c (db st)) as [e'|] eqn:Hf; [|discriminate].
  apply faults_in_try in Hf as [-> _]. intros [= <- _]. right. reflexivity.
Qed.

Lemma raises_only_delete_page (P : Exn → Prop) (page : Obj) :
  raises_only P (_delete_page env page).
Proof.
  apply raises_only_try_except; [|intros e; apply raises_only_emit].
  apply raises_only_bind; [apply raises_only_emit|]. intros _.
  assert (Hex : ∀ sql, (∀ tb, sql_effect sql [pk page] tb ≠ None) →
            raises_only (λ e, P e ∨ e = ProtectedError)
              (cursor_execute env sql [pk page])).
  { intros sql Hsome st e st'. unfold cursor_execute.
    destruct (fault env _ (db st)) as [e'|] eqn:Hf.
    - apply faults_in_try in Hf as [-> _]. intros [= <- _]. right. reflexivity.
    - specialize (Hsome (db st)).
      destruct (sql_effect sql [pk page] (db st)); [discriminate | contradiction]. }
  apply raises_only_bind; [|intros _]; apply Hex; intros tb; unfold sql_effect.
  - rewrite bool_decide_eq_true_2 by reflexivity. discriminate.
  - rewrite bool_decide_eq_false_2 by discriminate.
    rewrite bool_decide_eq_true_2 by reflexivity. discriminate.
Qed.

Lemma raises_only_fix_relation (P : Exn → Prop) (page replacement_page : Obj) (rel : Field) :
  raises_only P (fix_relation env page replacement_page rel).
Proof.
  unfold fix_relation.
  destruct (bool_decide _); [apply raises_only_ret|].
  destruct (one_to_one rel); [apply raises_only_write; reflexivity|].
  destruct (many_to_many rel); [|apply raises_only_write; reflexivity].
  apply raises_only_bind; [apply raises_only_query|]. intros objs.
  apply raises_only_for_each. intros obj.
  apply raises_only_bind; [|intros _]; apply raises_only_write; reflexivity.
Qed.

Lemma raises_only_handle_page_content (P : Exn → Prop) (ct : Obj) (stats : Stats)
    (page_content : Obj) :
  raises_only P (handle_page_content env ct stats page_content).
Proof.
  apply raises_only_bind; [apply raises_only_query|]. intros v.
  destruct (bool_decide (v = 0)); [|apply raises_only_ret].
  apply raises_only_bind.
  { apply raises_only_bind; [apply raises_only_query|]. intros phs.
    apply raises_only_for_each. intros ph.
    apply raises_only_try_except; [|intros e; apply raises_only_emit].
    apply raises_only_bind; [apply raises_only_emit|]. intros _.
    apply raises_only_write_try. }
  intros _. apply raises_only_bind; [|intros _; apply raises_only_ret].
  apply raises_only_try_except; [|intros e; apply raises_only_emit].
  apply raises_only_bind; [apply raises_only_emit|]. intros _.
  apply raises_only_write_try.
Qed.

Lemma raises_only_handle_page (ct : Obj) (stats : Stats) (page : Obj) :
  raises_only (λ e, e = DoesNotExist ∨ e = MultipleObjectsReturned)
              (handle_page env ct stats page).
Proof.
  apply raises_only_bind; [apply raises_only_query|]. intros b.
  destruct (negb b).
  - apply raises_only_bind.
    { apply raises_only_bind; [apply raises_only_get|]. intros r.
      apply raises_only_bind; [apply raises_only_emit|]. intros _.
      apply raises_only_for_each. intros rel. apply raises_only_fix_relation. }
    intros _. apply raises_only_bind.
    { apply raises_only_bind; [apply raises_only_get|]. intros r.
      apply raises_only_bind; [apply raises_only_emit|]. intros _.
      apply raises_only_for_each. intros rel. apply raises_only_write; reflexivity. }
    intros _. apply raises_only_bind; [apply raises_only_delete_page|].
    intros _. apply raises_only_ret.
  - apply raises_only_bind; [apply raises_only_query|]. intros n.
    apply raises_only_bind; [apply raises_only_query|]. intros pcs.
    apply raises_only_for_each_acc. intros a pc.
    apply raises_only_handle_page_content.
Qed.

Lemma raises_only_handle :
  raises_only (λ e, e = DoesNotExist ∨ e = MultipleObjectsReturned) (handle env).
Proof.
  apply raises_only_bind; [apply raises_only_get|]. intros ct.
  apply raises_only_bind; [apply raises_only_query|]. intros n.
  apply raises_only_bind; [apply raises_only_query|]. intros pages.
  apply raises_only_bind; [|intros s; apply raises_only_emit].
  apply raises_only_for_each_acc. intros a x. apply raises_only_handle_page.
Qed.

End Faults.

(** C4. [ProtectedError] is the only exception the command catches. At each of
    the three [try] statements a [ProtectedError] of the body is logged as an
    error and the statement returns, while any other exception leaves it. A
    run of [handle] that returns is a run in which no database call raised
    another exception than [ProtectedError]: with such an exception the run
    ends with an exception. And when the database calls raise nothing but
    [ProtectedError], and raise it inside the [try] statements only, [handle]
    is not ended by a [ProtectedError]: it returns unless a lookup with [get]
    fails. *)
Theorem only_ProtectedError_is_caught (st : State) :
  (∀ page,
     _delete_page env page st =
     match (logger_info "Deleting Page %s" [AInt (pk page)] ;;;
            cursor_execute env "DELETE FROM cms_pageurl WHERE page_id = %s" [pk page] ;;;
            cursor_execute env "DELETE FROM cms_page WHERE id = %s" [pk page]) st with
     | Ok u st' => Ok u st'
     | Raise ProtectedError st' =>
         logger_error "Couldn't delete Page %s %s"
                      [AInt (pk page); AExn ProtectedError] st'
     | Raise e st' => Raise e st'
     end) ∧
  (∀ placeholder,
     delete_placeholder env placeholder st =
     match (logger_debug "Deleting PageContent Placeholder %s" [AInt (pk placeholder)] ;;;
            obj_delete env Placeholder placeholder) st with
     | Ok u st' => Ok u st'
     | Raise ProtectedError st' =>
         logger_error "Couldn't delete PageContent Placeholder %s %s"
                      [AInt (pk placeholder); AExn ProtectedError] st'
     | Raise e st' => Raise e st'
     end) ∧
  (∀ page_content,
     _delete_page_content env page_content st =
     match (logger_debug "Deleting PageContent %s" [AInt (pk page_content)] ;;;
            obj_delete env PageContent page_content) st with
     | Ok u st' => Ok u st'
     | Raise ProtectedError st' =>
         logger_error "Couldn't delete PageContent %s %s"
                      [AInt (pk page_content); AExn ProtectedError] st'
     | Raise e st' => Raise e st'
     end) ∧
  (∀ u st', handle env st = Ok u st' → handle (only_protected env) st = Ok u st') ∧
  ((∀ c tb e, fault env c tb = Some e → e = ProtectedError ∧ in_try c = true) →
   ∀ e st', handle env st = Raise e st' →
            e = DoesNotExist ∨ e = MultipleObjectsReturned).
Proof.
  split; [intros page; apply try_except_run|].
  split; [intros placeholder; apply try_except_run|].
  split; [intros page_content; apply try_except_run|].
  split.
  - intros u st' H. pose proof (agrees_handle st) as Ha. rewrite H in Ha. exact Ha.
  - intros Hf e st' H. eapply raises_only_handle; eassumption.
Qed.

End Exceptions.

(** ** Reverse relations *)

Section Relations.

Variable env : Env.

Lemma write_ok (c : Call) (effect : Tables → Tables) (st st' : State) :
  write env c effect st = Ok () st' →
  fault env c (db st) = None ∧ st' = {| db := effect (db st); log := log st |}.
Proof.
  unfold write. destruct (fault env c (db st)); [discriminate|].
  intros [= <-]. auto.
Qed.

Lemma write_final (c : Call) (effect : Tables → Tables) (st : State) :
  final (write env c effect st) = st ∨
  final (write env c effect st) = {| db := effect (db st); log := log st |}.
Proof. unfold write. destruct (fault env c (db st)); simpl; auto. Qed.


Lemma for_each_repoint (m : Model) (field : string) (page replacement_page : Obj)
    (l : list Obj) (st st' : State) :
  for_each l (λ m2m_obj,
    related_remove env m m2m_obj field page ;;;
    related_add env m m2m_obj field replacement_page) st = Ok () st' →
  NoDup (pk <$> l) →
  (∀ k, table (db st') m !! k =
        if decide (k ∈ pk <$> l)
        then repoint field (pk page) (pk replacement_page) <$> table (db st) m !! k
        else table (db st) m !! k) ∧
  (∀ m', m' ≠ m → table (db st') m' = table (db st) m') ∧
  log st' = log st.
Proof.
  revert st. induction l as [|obj l IH]; intros st; simpl.
  - intros [= <-] _. repeat split; reflexivity.
  - unfold bind at 1 2.
    destruct (related_remove env m obj field page st) as [[] s1|e s1] eqn:H1;
      [|discriminate].
    destruct (related_add env m obj field replacement_page s1) as [[] s2|e s2] eqn:H2;
      [|discriminate].
    apply write_ok in H1 as [_ ->]. apply write_ok in H2 as [_ ->]. simpl in *.
    intros Hrest Hnd. apply NoDup_cons in Hnd as [Hnotin Hnd].
    destruct (IH _ Hrest Hnd) as (Hk & Hm & Hlog). simpl in *.
    split; [|split].
    + intros k. rewrite Hk. rewrite !table_insert_eq.
      destruct (decide (pk obj = k)) as [<-|Hne].
      * rewrite !lookup_alter_eq.
        rewrite decide_False by exact Hnotin.
        rewrite decide_True by left.
        destruct (table (db st) m !! pk obj) as [r|]; [|reflexivity]. simpl.
        f_equal. unfold repoint, set_related, related_keys. simpl.
        rewrite !lookup_insert_eq. simpl. rewrite insert_insert_eq. reflexivity.
      * rewrite !lookup_alter_ne by exact Hne.
        destruct (decide (k ∈ pk <$> l)) as [Hin|Hnin].
        -- rewrite decide_True by (right; exact Hin). reflexivity.
        -- rewrite decide_False; [reflexivity|].
           intros [->|H]%elem_of_cons; [congruence | exact (Hnin H)].
    + intros m' Hm'. rewrite Hm by exact Hm'.
      rewrite !table_insert_ne by congruence. reflexivity.
    + exact Hlog.
Qed.

Lemma elem_of_related_objects (rel : Field) (page : Obj) (tb : Tables) (obj : Obj) :
  obj ∈ related_objects env rel page tb ↔
  obj ∈ manager_rows env (related_model rel) objects tb ∧
  if many_to_many rel then pk page ∈ related_keys (row obj) (field_name rel)
  else getattr obj (field_name rel) = Some (Int (pk page)).
Proof.
  unfold related_objects. rewrite elem_of_evaluate_filter. simpl.
  rewrite andb_true_r. unfold refers_to.
  destruct (many_to_many rel); simpl; rewrite bool_decide_eq_true; reflexivity.
Qed.


End Relations.

(** ** What a run leaves as it was *)

Lemma same_outside_refl (P : Model → Prop) (s : State) : same_outside P s s.
Proof. intros m _. reflexivity. Qed.

Lemma same_outside_trans (P : Model → Prop) (s1 s2 s3 : State) :
  same_outside P s1 s2 → same_outside P s2 s3 → same_outside P s1 s3.
Proof. intros H1 H2 m Hm. rewrite H2, H1 by exact Hm. reflexivity. Qed.

Lemma same_outside_weaken (P Q : Model → Prop) (s s' : State) :
  (∀ m, P m → Q m) → same_outside P s s' → same_outside Q s s'.
Proof. intros HPQ H m Hm. apply H. intros HP. apply Hm, HPQ, HP. Qed.

Lemma bind_final {A B} (R : State → State → Prop) (m : M A) (k : A → M B) (st : State) :
  (∀ s1 s2 s3, R s1 s2 → R s2 s3 → R s1 s3) →
  R st (final (m st)) →
  (∀ a s', m st = Ok a s' → R s' (final (k a s'))) →
  R st (final (bind m k st)).
Proof.
  intros Htrans Hm Hk. unfold bind. destruct (m st) as [a s'|e s']; simpl in *.
  - eapply Htrans; [exact Hm | apply Hk; reflexivity].
  - exact Hm.
Qed.

Lemma try_except_final {A} (R : State → State → Prop) (body : M A) (exc : Exn)
    (handler : Exn → M A) (st : State) :
  (∀ s1 s2 s3, R s1 s2 → R s2 s3 → R s1 s3) →
  R st (final (body st)) →
  (∀ e s', body st = Raise e s' → R s' (final (handler e s'))) →
  R st (final (try_except body exc handler st)).
Proof.
  intros Htrans Hb Hh. unfold try_except. destruct (body st) as [a s'|e s']; simpl in *.
  - exact Hb.
  - destruct (bool_decide (e = exc)); simpl; [|exact Hb].
    eapply Htrans; [exact Hb | apply Hh; reflexivity].
Qed.

Lemma emit_db (lv : Level) (m : string) (a : list LogArg) (st : State) :
  db (final (emit lv m a st)) = db st.
Proof. reflexivity. Qed.

Lemma emit_same_outside (P : Model → Prop) (lv : Level) (m : string) (a : list LogArg)
    (st : State) :
  same_outside P st (final (emit lv m a st)).
Proof. intros m' _. reflexivity. Qed.

Section Frame.

Variable env : Env.

Lemma get_final (qs : QuerySet) (st : State) : final (get env qs st) = st.
Proof. unfold get. destruct (evaluate env qs (db st)) as [|x [|y l]]; reflexivity. Qed.

Lemma get_ok (qs : QuerySet) (st st' : State) (obj : Obj) :
  get env qs st = Ok obj st' → st' = st ∧ evaluate env qs (db st) = [obj].
Proof.
  unfold get. destruct (evaluate env qs (db st)) as [|x [|y l]]; try discriminate.
  intros [= <- <-]. auto.
Qed.

Lemma write_same_outside (P : Model → Prop) (c : Call) (effect : Tables → Tables)
    (st : State) :
  (∀ m, ¬ P m → table (effect (db st)) m = table (db st) m) →
  same_outside P st (final (write env c effect st)).
Proof.
  intros Heff. destruct (write_final env c effect st) as [->| ->].
  - apply same_outside_refl.
  - exact Heff.
Qed.

Lemma obj_delete_same_outside (m : Model) (obj : Obj) (st : State) :
  same_outside (λ m', m' = m) st (final (obj_delete env m obj st)).
Proof.
  apply write_same_outside. intros m' Hm'.
  unfold delete_keys. apply table_insert_ne. congruence.
Qed.

Lemma qdelete_same_outside (qs : QuerySet) (st : State) :
  same_outside (λ m', m' = qs_model qs) st (final (qdelete env qs st)).
Proof.
  apply write_same_outside. intros m' Hm'.
  unfold delete_keys. apply table_insert_ne. congruence.
Qed.

Lemma qupdate_same_outside (qs : QuerySet) (field : string) (v : Value) (st : State) :
  same_outside (λ m', m' = qs_model qs) st (final (qupdate env qs field v st)).
Proof.
  apply write_same_outside. intros m' Hm'.
  unfold update_keys. apply table_insert_ne. congruence.
Qed.

Lemma related_remove_same_outside (m : Model) (obj : Obj) (field : string) (target : Obj)
    (st : State) :
  same_outside (λ m', m' = m) st (final (related_remove env m obj field target st)).
Proof.
  apply write_same_outside. intros m' Hm'. apply table_insert_ne. congruence.
Qed.

Lemma related_add_same_outside (m : Model) (obj : Obj) (field : string) (target : Obj)
    (st : State) :
  same_outside (λ m', m' = m) st (final (related_add env m obj field target st)).
Proof.
  apply write_same_outside. intros m' Hm'. apply table_insert_ne. congruence.
Qed.

Lemma for_each_same_outside {A} (P : Model → Prop) (l : list A) (body : A → M unit)
    (st : State) :
  (∀ x s, x ∈ l → same_outside P s (final (body x s))) →
  same_outside P st (final (for_each l body st)).
Proof.
  intros Hbody.
  refine (proj1 (for_each_final (same_outside P) (λ _, True) l body st _ _ _ I)).
  - apply same_outside_refl.
  - apply same_outside_trans.
  - intros x s Hx _. split; [apply Hbody, Hx | auto].
Qed.

Lemma fix_relation_same_outside (page replacement_page : Obj) (rel : Field) (st : State) :
  same_outside (λ m, m = related_model rel ∧ m ≠ PageUrl) st
               (final (fix_relation env page replacement_page rel st)).
Proof.
  unfold fix_relation.
  destruct (bool_decide_reflect (related_model rel = PageUrl)) as [Hurl|Hurl].
  { apply same_outside_refl. }
  apply (same_outside_weaken (λ m, m = related_model rel)).
  { intros m ->. auto. }
  destruct (one_to_one rel).
  { exact (qdelete_same_outside (qfilter _ (all (related_model rel) objects)) st). }
  destruct (many_to_many rel).
  2: { exact (qupdate_same_outside (qfilter _ (all (related_model rel) objects)) _ _ st). }
  apply bind_final; [apply same_outside_trans | apply same_outside_refl |].
  intros objs s' [= <- <-]. apply for_each_same_outside. intros obj s _.
  apply bind_final; [apply same_outside_trans | apply related_remove_same_outside |].
  intros _ s' _. apply related_add_same_outside.
Qed.

Lemma fix_page_references_same_outside (page : Obj) (st : State) :
  same_outside (λ m, m ≠ PageUrl ∧ ∃ rel, rel ∈ relations env ∧ m = related_model rel)
               st (final (_fix_page_references env page st)).
Proof.
  unfold _fix_page_references.
  apply bind_final; [apply same_outside_trans | |].
  { unfold _get_replacement_page. rewrite get_final. apply same_outside_refl. }
  intros r s' _.
  apply bind_final; [apply same_outside_trans | apply emit_same_outside |].
  intros _ s'' _. apply for_each_same_outside. intros rel s Hrel.
  eapply same_outside_weaken; [|apply fix_relation_same_outside].
  intros m [-> Hm]. simpl. eauto.
Qed.

Lemma fix_pagefield_references_same_outside (page : Obj) (st : State) :
  same_outside (λ m, ∃ rel, rel ∈ plugin_relation_models env ∧ m = model rel)
               st (final (_fix_pagefield_references env page st)).
Proof.
  unfold _fix_pagefield_references.
  apply bind_final; [apply same_outside_trans | |].
  { unfold _get_replacement_page. rewrite get_final. apply same_outside_refl. }
  intros r s' _.
  apply bind_final; [apply same_outside_trans | apply emit_same_outside |].
  intros _ s'' _. apply for_each_same_outside. intros rel s Hrel.
  eapply same_outside_weaken;
    [|exact (qupdate_same_outside (qfilter _ (all (model rel) objects)) _ _ s)].
  intros m ->. simpl. eauto.
Qed.

End Frame.

(** ** [PageField] references and the deletion of the page *)

Section Orphan.

Variable env : Env.

Lemma getattr_set_field (k : Z) (r : Row) (field name : string) (v : Value) :
  name ≠ field →
  getattr {| pk := k; row := set_field field v r |} name = getattr {| pk := k; row := r |} name.
Proof.
  intros Hne. unfold getattr. simpl.
  destruct (bool_decide _); [reflexivity|]. apply lookup_insert_ne. congruence.
Qed.

Lemma points_to_update_keys (m m' : Model) (keys : list Z) (field field' : string)
    (target : Z) (tb : Tables) (k : Z) :
  points_to tb m k field target →
  points_to (update_keys m' keys field' (Int target) tb) m k field target.
Proof.
  intros (r & Hr & Hf). unfold points_to. rewrite table_update_keys.
  destruct (decide (m' = m ∧ k ∈ keys)) as [_|_]; [|eauto].
  rewrite Hr. simpl. eexists. split; [reflexivity|]. simpl.
  destruct (decide (field' = field)) as [->|Hne].
  - apply lookup_insert_eq.
  - rewrite lookup_insert_ne by exact Hne. exact Hf.
Qed.

Lemma for_each_pagefield_updates (page replacement_page : Obj) (l : list RelatedField)
    (st st' : State) :
  for_each l (λ rel,
    qupdate env (qfilter [Exact (name rel) (ref page)] (all (model rel) objects))
            (name rel) (Int (pk replacement_page))) st = Ok () st' →
  ∀ rel k,
    (rel ∈ l ∧ model rel ≠ PageContent ∧
     ∃ r, table (db st) (model rel) !! k = Some r ∧
          getattr {| pk := k; row := r |} (name rel) = Some (Int (pk page))) ∨
    points_to (db st) (model rel) k (name rel) (pk replacement_page) →
    points_to (db st') (model rel) k (name rel) (pk replacement_page).
Proof.
  revert st. induction l as [|rel0 l IH]; intros st; simpl.
  - intros [= <-] rel k [[H _]|H]; [inversion H | exact H].
  - unfold bind at 1.
    destruct (qupdate env _ (name rel0) _ st) as [[] s1|e s1] eqn:H0; [|discriminate].
    apply write_ok in H0 as [_ ->]. simpl in *.
    intros Hrest rel k Hpre. apply (IH _ Hrest). simpl.
    destruct Hpre as [(Hin & Hpc & r & Hr & Hattr)|Hpt].
    2: { right. apply points_to_update_keys, Hpt. }
    set (keys := pk <$> evaluate env _ (db st)).
    destruct (decide (model rel0 = model rel ∧ k ∈ keys)) as [[Hm Hk]|Hnot].
    + (* the row is updated by this step *)
      destruct (decide (name rel0 = name rel)) as [Hn|Hn].
      * right. unfold points_to. rewrite table_update_keys.
        rewrite decide_True by auto. rewrite Hr. simpl.
        eexists. split; [reflexivity|]. simpl. rewrite Hn. apply lookup_insert_eq.
      * apply elem_of_cons in Hin as [->|Hin]; [congruence|].
        left. split; [exact Hin|]. split; [exact Hpc|].
        exists (set_field (name rel0) (Int (pk replacement_page)) r). split.
        -- rewrite table_update_keys. rewrite decide_True by auto.
           rewrite Hr. reflexivity.
        -- rewrite getattr_set_field by congruence. exact Hattr.
    + (* the row is not updated by this step *)
      apply elem_of_cons in Hin as [->|Hin].
      * exfalso. apply Hnot. split; [reflexivity|].
        subst keys. apply list_elem_of_fmap.
        exists {| pk := k; row := r |}. split; [reflexivity|].
        apply elem_of_evaluate_filter. split.
        -- rewrite manager_rows_objects by exact Hpc.
           apply elem_of_instances. exact Hr.
        -- simpl. rewrite andb_true_r. apply bool_decide_eq_true. exact Hattr.
      * left. split; [exact Hin|]. split; [exact Hpc|].
        exists r. split; [|exact Hattr].
        rewrite table_update_keys. rewrite decide_False by exact Hnot. exact Hr.
Qed.

Lemma elem_of_plugin_relation_models (rel : RelatedField) :
  rel ∈ plugin_relation_models env ↔ rel ∈ _relation_tree env ∧ ftype rel = PageField.
Proof. unfold plugin_relation_models. rewrite list_elem_of_filter. tauto. Qed.

Lemma fix_pagefield_references_ok (page : Obj) (st st' : State) :
  _fix_pagefield_references env page st = Ok () st' →
  ∃ replacement_page, siblings page (db st) = [replacement_page] ∧
    ∀ rel k r, rel ∈ _relation_tree env → ftype rel = PageField →
      model rel ≠ PageContent →
      table (db st) (model rel) !! k = Some r →
      getattr {| pk := k; row := r |} (name rel) = Some (Int (pk page)) →
      points_to (db st') (model rel) k (name rel) (pk replacement_page).
Proof.
  rewrite fix_pagefield_references_run, get_replacement_page_run.
  destruct (siblings page (db st)) as [|repl [|x l]]; try discriminate.
  unfold bind at 1. simpl. intros Hloop. exists repl. split; [reflexivity|].
  intros rel k r Hin Hty Hpc Hr Hattr.
  apply (for_each_pagefield_updates _ _ _ _ _ Hloop). left.
  split; [apply elem_of_plugin_relation_models; auto|]. split; [exact Hpc|].
  exists r. auto.
Qed.

Lemma delete_page_ok (page : Obj) (st : State) :
  (∀ sql tb, fault env (Execute sql [pk page]) tb = None) →
  ∃ st', _delete_page env page st = Ok () st' ∧
    table (db st') Page = delete (pk page) (table (db st) Page) ∧
    (∀ k, table (db st') PageUrl !! k =
          r ← table (db st) PageUrl !! k;
          if decide (fields r !! "page" = Some (Int (pk page))) then None else Some r) ∧
    (∀ m, m ≠ Page → m ≠ PageUrl → table (db st') m = table (db st) m) ∧
    log st' = log st ++ [{| level := INFO; msg := "Deleting Page %s";
                            args := [AInt (pk page)] |}].
Proof.
  intros Hf. unfold _delete_page, try_except, bind, cursor_execute, logger_info, emit.
  simpl. rewrite !Hf. simpl. eexists. split; [reflexivity|]. simpl.
  split; [|split; [|split; [|reflexivity]]].
  - apply map_eq. intros k. rewrite table_delete_keys.
    unfold delete_keys at 1. rewrite table_insert_ne by discriminate.
    destruct (decide (k = pk page)) as [->|Hne].
    + rewrite decide_True by (split; [reflexivity | left]).
      rewrite lookup_delete_eq. reflexivity.
    + rewrite decide_False by (intros [_ [->|H]%elem_of_cons]; [congruence | inversion H]).
      rewrite lookup_delete_ne by congruence. reflexivity.
  - intros k. unfold delete_keys at 1. rewrite table_insert_ne by discriminate.
    rewrite table_delete_keys.
    destruct (table (db st) PageUrl !! k) as [r|] eqn:Hr; simpl.
    + destruct (decide (fields r !! "page" = Some (Int (pk page)))) as [Hp|Hp].
      * rewrite decide_True; [reflexivity|]. split; [reflexivity|].
        apply list_elem_of_fmap. exists {| pk := k; row := r |}.
        split; [reflexivity|]. apply list_elem_of_filter. split.
        -- apply Is_true_true. apply bool_decide_eq_true. exact Hp.
        -- apply elem_of_instances. exact Hr.
      * rewrite decide_False; [reflexivity|].
        intros [_ (obj & -> & Hobj)%list_elem_of_fmap].
        apply list_elem_of_filter in Hobj as [Hh Hobj].
        apply Is_true_true, bool_decide_eq_true in Hh.
        apply elem_of_instances in Hobj. rewrite Hr in Hobj.
        injection Hobj as Heq. apply Hp. rewrite Heq. exact Hh.
    + destruct (decide _); reflexivity.
  - intros m Hm1 Hm2. unfold delete_keys. rewrite !table_insert_ne by congruence.
    reflexivity.
Qed.

(** C7. When [_fix_pagefield_references] returns, as it does when the page has
    exactly one sibling and the calls to the database go through, every row
    that referred to the page through a field of exact type [PageField] of the
    relation tree refers to the replacement page, the one sibling of the page.
    The reverse relations from [PageUrl] are skipped by
    [_fix_page_references], which leaves the table of [PageUrl] as it is.
    [_delete_page], when its two SQL statements go through, deletes the rows
    of [cms_pageurl] of the page and the row of the page, and nothing else.
    For an orphaned page the three run in this order. *)
Theorem pagefield_references_then_raw_delete (page : Obj) (st : State) :
  (∀ st', _fix_pagefield_references env page st = Ok () st' →
     ∃ replacement_page, siblings page (db st) = [replacement_page] ∧
       ∀ rel k r, rel ∈ _relation_tree env → ftype rel = PageField →
         model rel ≠ PageContent →
         table (db st) (model rel) !! k = Some r →
         getattr {| pk := k; row := r |} (name rel) = Some (Int (pk page)) →
         points_to (db st') (model rel) k (name rel) (pk replacement_page)) ∧
  ((∀ c tb, fault env c tb = None) →
   ∀ replacement_page, siblings page (db st) = [replacement_page] →
   ∃ st', _fix_pagefield_references env page st = Ok () st') ∧
  (∀ replacement_page rel,
     related_model rel = PageUrl →
     fix_relation env page replacement_page rel st = Ok () st) ∧
  table (db (final (_fix_page_references env page st))) PageUrl = table (db st) PageUrl ∧
  ((∀ sql tb, fault env (Execute sql [pk page]) tb = None) →
   ∃ st', _delete_page env page st = Ok () st' ∧
     table (db st') Page = delete (pk page) (table (db st) Page) ∧
     (∀ k, table (db st') PageUrl !! k =
           r ← table (db st) PageUrl !! k;
           if decide (fields r !! "page" = Some (Int (pk page))) then None else Some r) ∧
     (∀ m, m ≠ Page → m ≠ PageUrl → table (db st') m = table (db st) m) ∧
     log st' = log st ++ [{| level := INFO; msg := "Deleting Page %s";
                             args := [AInt (pk page)] |}]) ∧
  (∀ ct stats,
     evaluate env (_get_page_contents page) (db st) = [] →
     handle_page env ct stats page st =
     (_fix_page_references env page ;;;
      _fix_pagefield_references env page ;;;
      _delete_page env page ;;;
      ret (add_page_deleted stats)) st).
Proof.
  split; [intros st'; apply fix_pagefield_references_ok|].
  split.
  { intros Hf repl Hsib.
    rewrite fix_pagefield_references_run, get_replacement_page_run, Hsib.
    destruct (never_raises
                (logger_info "Fixing PageField references from Page %s to %s"
                             [AInt (pk page); AInt (pk repl)] ;;;
                 for_each (plugin_relation_models env) (λ rel,
                   qupdate env (qfilter [Exact (name rel) (ref page)] (all (model rel) objects))
                           (name rel) (Int (pk repl)))) st) as ([] & st' & Hrun); [|eauto].
    apply raises_only_bind; [apply raises_only_emit|]. intros _.
    apply raises_only_for_each. intros rel.
    apply raises_only_write; [|reflexivity].
    intros c tb e He. rewrite Hf in He. discriminate. }
  split.
  { intros repl rel Hurl. unfold fix_relation.
    rewrite bool_decide_eq_true_2 by exact Hurl. reflexivity. }
  split.
  { apply (fix_page_references_same_outside env page st). tauto. }
  split; [apply delete_page_ok|].
  intros ct stats. apply handle_page_orphan.
Qed.

End Orphan.

(** ** Page contents without a version *)

Section Contents.

Variable env : Env.

Lemma elem_of_attached (m : Model) (ct pc : Obj) (tb : Tables) (obj : Obj) :
  m ≠ PageContent →
  obj ∈ attached env m ct pc tb ↔
  table tb m !! pk obj = Some (row obj) ∧
  fields (row obj) !! "object_id" = Some (Int (pk pc)) ∧
  fields (row obj) !! "content_type" = Some (Int (pk ct)).
Proof.
  intros Hm. unfold attached. rewrite elem_of_evaluate_filter.
  rewrite manager_rows_objects by exact Hm. rewrite elem_of_instances. simpl.
  rewrite andb_true_r, andb_true_iff, !bool_decide_eq_true. reflexivity.
Qed.

Lemma attached_ext (m : Model) (ct pc : Obj) (tb tb' : Tables) :
  m ≠ PageContent → table tb' m = table tb m →
  attached env m ct pc tb' = attached env m ct pc tb.
Proof.
  intros Hm Heq. unfold attached, evaluate. simpl.
  rewrite bool_decide_eq_false_2 by exact Hm. rewrite Heq. reflexivity.
Qed.

Lemma delete_placeholder_run (placeholder : Obj) (st : State) :
  let debug := {| level := DEBUG; msg := "Deleting PageContent Placeholder %s";
                  args := [AInt (pk placeholder)] |} in
  delete_placeholder env placeholder st =
  match fault env (InstanceDelete Placeholder (pk placeholder)) (db st) with
  | None => Ok () {| db := delete_keys Placeholder [pk placeholder] (db st);
                     log := log st ++ [debug] |}
  | Some ProtectedError =>
      Ok () {| db := db st;
               log := (log st ++ [debug]) ++
                      [{| level := ERROR;
                          msg := "Couldn't delete PageContent Placeholder %s %s";
                          args := [AInt (pk placeholder); AExn ProtectedError] |}] |}
  | Some e => Raise e {| db := db st; log := log st ++ [debug] |}
  end.
Proof.
  unfold delete_placeholder, try_except, bind, obj_delete, write, logger_debug, emit.
  simpl. destruct (fault env _ (db st)) as [[]|]; reflexivity.
Qed.

Lemma delete_page_content_run (page_content : Obj) (st : State) :
  let debug := {| level := DEBUG; msg := "Deleting PageContent %s";
                  args := [AInt (pk page_content)] |} in
  _delete_page_content env page_content st =
  match fault env (InstanceDelete PageContent (pk page_content)) (db st) with
  | None => Ok () {| db := delete_keys PageContent [pk page_content] (db st);
                     log := log st ++ [debug] |}
  | Some ProtectedError =>
      Ok () {| db := db st;
               log := (log st ++ [debug]) ++
                      [{| level := ERROR; msg := "Couldn't delete PageContent %s %s";
                          args := [AInt (pk page_content); AExn ProtectedError] |}] |}
  | Some e => Raise e {| db := db st; log := log st ++ [debug] |}
  end.
Proof.
  unfold _delete_page_content, try_except, bind, obj_delete, write, logger_debug, emit.
  simpl. destruct (fault env _ (db st)) as [[]|]; reflexivity.
Qed.

Lemma deletes_refl (m : Model) (keys : list Z) (s : State) : deletes m keys s s.
Proof. split; [apply same_outside_refl | auto]. Qed.

Lemma deletes_trans (m : Model) (keys : list Z) (s1 s2 s3 : State) :
  deletes m keys s1 s2 → deletes m keys s2 s3 → deletes m keys s1 s3.
Proof.
  intros [Ho1 Hk1] [Ho2 Hk2]. split; [eapply same_outside_trans; eassumption|].
  intros k. destruct (Hk2 k) as [H2|[Hin H2]]; [|auto].
  rewrite H2. apply Hk1.
Qed.

Lemma deletes_weaken (m : Model) (keys keys' : list Z) (s s' : State) :
  keys ⊆ keys' → deletes m keys s s' → deletes m keys' s s'.
Proof.
  intros Hsub [Ho Hk]. split; [exact Ho|].
  intros k. destruct (Hk k) as [H|[Hin H]]; auto.
Qed.

Lemma deletes_delete_keys (m : Model) (k : Z) (tb : Tables) (l l' : list LogRecord) :
  deletes m [k] {| db := tb; log := l |} {| db := delete_keys m [k] tb; log := l' |}.
Proof.
  split.
  - intros m' Hm'. simpl. unfold delete_keys. apply table_insert_ne. congruence.
  - intros k'. simpl. rewrite table_delete_keys.
    destruct (decide (m = m ∧ k' ∈ [k])) as [[_ Hin]|_]; auto.
Qed.

Lemma deletes_same_db (m : Model) (keys : list Z) (s s' : State) :
  db s' = db s → deletes m keys s s'.
Proof. intros Heq. split; [intros m' _|intros k]; rewrite Heq; auto. Qed.

Lemma delete_placeholder_deletes (placeholder : Obj) (st : State) :
  deletes Placeholder [pk placeholder] st (final (delete_placeholder env placeholder st)).
Proof.
  rewrite delete_placeholder_run.
  destruct (fault env _ (db st)) as [[]|]; simpl;
    try (apply deletes_same_db; reflexivity).
  destruct st. apply deletes_delete_keys.
Qed.

Lemma delete_page_content_deletes (page_content : Obj) (st : State) :
  deletes PageContent [pk page_content] st
          (final (_delete_page_content env page_content st)).
Proof.
  rewrite delete_page_content_run.
  destruct (fault env _ (db st)) as [[]|]; simpl;
    try (apply deletes_same_db; reflexivity).
  destruct st. apply deletes_delete_keys.
Qed.

Lemma for_each_delete_placeholder_deletes (l : list Obj) (st : State) :
  deletes Placeholder (pk <$> l) st (final (for_each l (delete_placeholder env) st)).
Proof.
  refine (proj1 (for_each_final (deletes Placeholder (pk <$> l)) (λ _, True)
                   l _ st _ _ _ I)).
  - apply deletes_refl.
  - apply deletes_trans.
  - intros x s Hx _. split; [|auto].
    eapply deletes_weaken; [|apply delete_placeholder_deletes].
    intros k ->%list_elem_of_singleton. apply list_elem_of_fmap. eauto.
Qed.


Lemma for_each_delete_placeholder_ok (l : list Obj) (st : State) :
  (∀ k tb, fault env (InstanceDelete Placeholder k) tb = None) →
  ∃ st', for_each l (delete_placeholder env) st = Ok () st' ∧
    (∀ k, table (db st') Placeholder !! k =
          if decide (k ∈ pk <$> l) then None else table (db st) Placeholder !! k) ∧
    same_outside (λ m, m = Placeholder) st st'.
Proof.
  intros Hf. revert st. induction l as [|ph l IH]; intros st;
    cbn [for_each]; rewrite ?fmap_cons.
  - eexists. split; [reflexivity|]. split; [|apply same_outside_refl].
    intros k. reflexivity.
  - unfold bind. rewrite delete_placeholder_run, Hf.
    destruct (IH {| db := delete_keys Placeholder [pk ph] (db st);
                    log := log st ++ [{| level := DEBUG;
                                         msg := "Deleting PageContent Placeholder %s";
                                         args := [AInt (pk ph)] |}] |})
      as (st' & -> & Hk & Ho). simpl in *.
    eexists. split; [reflexivity|]. split.
    + intros k. rewrite Hk, table_delete_keys.
      repeat case_decide; try reflexivity; exfalso.
      all: rewrite ?elem_of_cons, ?elem_of_nil in *; tauto.
    + intros m Hm. rewrite Ho by exact Hm. simpl.
      unfold delete_keys. apply table_insert_ne. congruence.
Qed.

Lemma versions_nil_iff (ct pc : Obj) (tb : Tables) :
  attached env Version ct pc tb = [] ↔ ¬ versioned tb ct (pk pc).
Proof.
  unfold attached at 1. rewrite evaluate_nil_iff.
  fold (attached env Version ct pc tb). split.
  - intros Hnil (v & r & Hr & Ho & Hc).
    apply (Hnil {| pk := v; row := r |}).
    apply elem_of_attached; [discriminate|]. auto.
  - intros Hnv obj Hobj. apply Hnv.
    apply elem_of_attached in Hobj as (Hr & Ho & Hc); [|discriminate].
    exists (pk obj), (row obj). auto.
Qed.

Lemma versioned_ext (ct : Obj) (k : Z) (tb tb' : Tables) :
  table tb' Version = table tb Version → versioned tb ct k → versioned tb' ct k.
Proof. intros Heq (v & r & H). exists v, r. rewrite Heq. exact H. Qed.

Lemma keeps_versioned_refl (ct : Obj) (s : State) : keeps_versioned ct s s.
Proof. split; [apply same_outside_refl|]. intros k _. auto. Qed.

Lemma keeps_versioned_trans (ct : Obj) (s1 s2 s3 : State) :
  keeps_versioned ct s1 s2 → keeps_versioned ct s2 s3 → keeps_versioned ct s1 s3.
Proof.
  intros [Ho1 Hk1] [Ho2 Hk2]. split; [eapply same_outside_trans; eassumption|].
  intros k Hv. destruct (Hk1 k Hv) as [Hc1 Hp1].
  assert (Hv2 : versioned (db s2) ct k).
  { eapply versioned_ext; [|exact Hv]. apply Ho1. intros [H|H]; discriminate. }
  destruct (Hk2 k Hv2) as [Hc2 Hp2]. split; [congruence|].
  intros p r Hr Hobj. apply Hp2; [|exact Hobj]. eapply Hp1; eassumption.
Qed.

Lemma handle_page_content_run (ct : Obj) (stats : Stats) (pc : Obj) (st : State) :
  handle_page_content env ct stats pc st =
  if decide (attached env Version ct pc (db st) = [])
  then (for_each (attached env Placeholder ct pc (db st)) (delete_placeholder env) ;;;
        _delete_page_content env pc ;;;
        ret (add_pagecontents_deleted stats)) st
  else Ok stats st.
Proof.
  unfold handle_page_content, bind at 1, count. fold (attached env Version ct pc (db st)).
  destruct (attached env Version ct pc (db st)) as [|v l] eqn:Hv; simpl.
  - reflexivity.
  - reflexivity.
Qed.

Lemma handle_page_content_keeps_versioned (ct : Obj) (stats : Stats) (pc : Obj)
    (st : State) :
  keeps_versioned ct st (final (handle_page_content env ct stats pc st)).
Proof.
  rewrite handle_page_content_run.
  destruct (decide _) as [Hnil|_]; [|apply keeps_versioned_refl].
  apply versions_nil_iff in Hnil.
  set (phs := attached env Placeholder ct pc (db st)).
  assert (Hphs : deletes Placeholder (pk <$> phs) st
                   (final (for_each phs (delete_placeholder env) st)))
    by apply for_each_delete_placeholder_deletes.
  unfold bind at 1.
  destruct (for_each phs (delete_placeholder env) st) as [[] s1|e s1]; simpl in Hphs |- *.
  - assert (Hpc : deletes PageContent [pk pc] s1 (final (_delete_page_content env pc s1)))
      by apply delete_page_content_deletes.
    unfold bind at 1.
    destruct (_delete_page_content env pc s1) as [[] s2|e s2]; simpl in Hpc |- *.
    all: destruct Hphs as [Ho1 Hk1], Hpc as [Ho2 Hk2]; split.
    all: try (intros m Hm; rewrite Ho2, Ho1 by tauto; reflexivity).
    all: intros k Hv; assert (Hne : k ≠ pk pc) by (intros ->; exact (Hnil Hv)); split.
    all: try (rewrite <- (Ho1 PageContent) by discriminate;
              destruct (Hk2 k) as [H|[[->|H]%elem_of_cons _]];
              [exact H | congruence | inversion H]).
    all: intros p r Hr Hobj; rewrite (Ho2 Placeholder) by discriminate;
      destruct (Hk1 p) as [H|[Hin _]]; [congruence|]; exfalso;
      apply list_elem_of_fmap in Hin as (ph & -> & Hph);
      apply elem_of_attached in Hph as (Hrow & Hobj' & _); [|discriminate];
      rewrite Hr in Hrow; injection Hrow as ->; congruence.
  - destruct Hphs as [Ho1 Hk1]. split.
    + intros m Hm. apply Ho1. tauto.
    + intros k Hv. assert (Hne : k ≠ pk pc) by (intros ->; exact (Hnil Hv)). split.
      * rewrite (Ho1 PageContent) by discriminate. reflexivity.
      * intros p r Hr Hobj. destruct (Hk1 p) as [H|[Hin _]]; [congruence|]. exfalso.
        apply list_elem_of_fmap in Hin as (ph & -> & Hph).
        apply elem_of_attached in Hph as (Hrow & Hobj' & _); [|discriminate].
        rewrite Hr in Hrow. injection Hrow as ->. congruence.
Qed.


Lemma handle_page_keeps_versioned (ct : Obj) (stats : Stats) (page : Obj) (st : State) :
  evaluate env (_get_page_contents page) (db st) ≠ [] →
  keeps_versioned ct st (final (handle_page env ct stats page st)).
Proof.
  intros Hne. rewrite handle_page_contents by exact Hne.
  refine (proj1 (for_each_acc_final (keeps_versioned ct) (λ _ _, True) _ _ _ st _ _ _ I)).
  - apply keeps_versioned_refl.
  - apply keeps_versioned_trans.
  - intros pc a s _ _. split; [apply handle_page_content_keeps_versioned | auto].
Qed.

End Contents.

(** ** The treatment of one page *)

Section Page.

Variable env : Env.

Lemma has_content_iff (page : Obj) (tb : Tables) :
  evaluate env (_get_page_contents page) tb ≠ [] ↔ has_content tb (pk page).
Proof.
  split.
  - intros Hne. destruct (evaluate env (_get_page_contents page) tb) as [|pc l] eqn:He;
      [contradiction|].
    assert (Hin : pc ∈ evaluate env (_get_page_contents page) tb) by (rewrite He; left).
    apply elem_of_evaluate_filter in Hin as [Hrow Hl]. simpl in Hl.
    rewrite andb_true_r in Hl. apply bool_decide_eq_true in Hl.
    apply elem_of_instances in Hrow. exists (pk pc), (row pc). auto.
  - intros (k & r & Hr & Hp) Hnil.
    apply (proj1 (evaluate_nil_iff env _ _) Hnil {| pk := k; row := r |}).
    apply elem_of_evaluate_filter. split.
    + apply elem_of_instances. exact Hr.
    + simpl. rewrite andb_true_r. apply bool_decide_eq_true. exact Hp.
Qed.

Lemma elem_of_page_contents (page pc : Obj) (tb : Tables) :
  pc ∈ evaluate env (_get_page_contents page) tb ↔
  table tb PageContent !! pk pc = Some (row pc) ∧
  fields (row pc) !! "page" = Some (Int (pk page)).
Proof.
  unfold _get_page_contents. rewrite elem_of_evaluate_filter. simpl.
  rewrite elem_of_instances, andb_true_r, bool_decide_eq_true. reflexivity.
Qed.

Lemma objects_sub_base (m : Model) (kw : list Lookup) (tb : Tables) :
  evaluate env (qfilter kw (all m _base_manager)) tb = [] →
  evaluate env (qfilter kw (all m objects)) tb = [].
Proof.
  rewrite !evaluate_nil_iff. intros Hnil obj Hobj. apply (Hnil obj).
  apply elem_of_evaluate_filter in Hobj as [Hrow Hkw].
  apply elem_of_evaluate_filter. split; [|exact Hkw].
  apply elem_of_instances. eapply manager_rows_sub, Hrow.
Qed.

Lemma evaluate_base_ext (m : Model) (kw : list Lookup) (tb tb' : Tables) :
  table tb' m = table tb m →
  evaluate env (qfilter kw (all m _base_manager)) tb' =
  evaluate env (qfilter kw (all m _base_manager)) tb.
Proof. intros Heq. unfold evaluate. simpl. rewrite Heq. reflexivity. Qed.

Lemma evaluate_objects_ext (m : Model) (kw : list Lookup) (tb tb' : Tables) :
  m ≠ PageContent → table tb' m = table tb m →
  evaluate env (qfilter kw (all m objects)) tb' =
  evaluate env (qfilter kw (all m objects)) tb.
Proof.
  intros Hm Heq. unfold evaluate. simpl.
  rewrite bool_decide_eq_false_2 by exact Hm. rewrite Heq. reflexivity.
Qed.

Lemma cms_schema_relation (rel : Field) :
  cms_schema env = true → rel ∈ relations env → cms_relation rel = true.
Proof.
  unfold cms_schema. rewrite andb_true_iff, !forallb_forall.
  intros [H _] Hin. apply H, list_elem_of_In, Hin.
Qed.

Lemma cms_schema_pagefield (rel : RelatedField) :
  cms_schema env = true → rel ∈ plugin_relation_models env → model rel ∉ cms_tables.
Proof.
  unfold cms_schema. rewrite andb_true_iff, !forallb_forall.
  intros [_ H] Hin. apply list_elem_of_In in Hin.
  specialize (H _ Hin). apply negb_true_iff, bool_decide_eq_false in H.
  exact H.
Qed.

(** Fixing the references of a page without page contents leaves the tables of
    the CMS as they are. *)
Lemma fix_relation_cms (page replacement_page : Obj) (rel : Field) (st : State) :
  cms_relation rel = true →
  evaluate env (_get_page_contents page) (db st) = [] →
  same_outside (λ m, m ∉ cms_tables) st
               (final (fix_relation env page replacement_page rel st)).
Proof.
  intros Hrel Horphan. unfold cms_relation in Hrel.
  rewrite !orb_true_iff, !andb_true_iff, negb_true_iff in Hrel.
  rewrite !bool_decide_eq_true, bool_decide_eq_false in Hrel.
  destruct Hrel as [[Hurl|[[Hpc Hname] Hmany]]|Hout].
  - unfold fix_relation. rewrite bool_decide_eq_true_2 by exact Hurl.
    apply same_outside_refl.
  - unfold fix_relation. rewrite bool_decide_eq_false_2 by (rewrite Hpc; discriminate).
    unfold one_to_many in Hmany. unfold one_to_one, many_to_many, refers_to, many_to_many.
    destruct (cardinality rel) as [[]|]; try discriminate.
    rewrite Hpc, Hname.
    assert (Hnil : evaluate env (qfilter [Exact "page" (ref page)]
                                   (all PageContent objects)) (db st) = [])
      by (apply objects_sub_base; exact Horphan).
    destruct (write_final env
                (QueryUpdate (qfilter [Exact "page" (ref page)] (all PageContent objects))
                   "page" (Int (pk replacement_page)))
                (λ tb, update_keys PageContent
                         (pk <$> evaluate env (qfilter [Exact "page" (ref page)]
                                                 (all PageContent objects)) tb)
                         "page" (Int (pk replacement_page)) tb) st) as [H|H];
      unfold qupdate; simpl; rewrite H.
    + apply same_outside_refl.
    + intros m _. simpl. rewrite Hnil. apply table_update_keys_nil.
  - eapply same_outside_weaken; [|apply fix_relation_same_outside].
    intros m [-> _]. exact Hout.
Qed.

Lemma page_contents_ext (page : Obj) (tb tb' : Tables) :
  table tb' PageContent = table tb PageContent →
  evaluate env (_get_page_contents page) tb' = evaluate env (_get_page_contents page) tb.
Proof. apply evaluate_base_ext. Qed.

Lemma cms_tables_PageContent : PageContent ∈ cms_tables.
Proof. unfold cms_tables. rewrite !elem_of_cons. auto. Qed.

Lemma fix_page_references_cms (page : Obj) (st : State) :
  cms_schema env = true →
  evaluate env (_get_page_contents page) (db st) = [] →
  same_outside (λ m, m ∉ cms_tables) st (final (_fix_page_references env page st)).
Proof.
  intros Hschema Horphan. unfold _fix_page_references.
  apply bind_final; [apply same_outside_trans | |].
  { unfold _get_replacement_page. rewrite get_final. apply same_outside_refl. }
  intros r s' [-> _]%get_ok.
  apply bind_final; [apply same_outside_trans | apply emit_same_outside |].
  intros u s' Hemit. unfold logger_info, emit in Hemit.
  injection Hemit as _ <-.
  refine (proj1 (for_each_final (same_outside (λ m, m ∉ cms_tables))
                   (λ s, evaluate env (_get_page_contents page) (db s) = [])
                   _ _ _ _ _ _ _)).
  - apply same_outside_refl.
  - apply same_outside_trans.
  - intros rel s Hrel Hs.
    assert (HR : same_outside (λ m, m ∉ cms_tables) s
                   (final (fix_relation env page r rel s))).
    { apply fix_relation_cms; [|exact Hs]. apply cms_schema_relation; assumption. }
    split; [exact HR|]. intros s'' Hok. rewrite Hok in HR. simpl in HR.
    rewrite (page_contents_ext page (db s) (db s'')); [exact Hs|].
    apply HR. intros H. apply H, cms_tables_PageContent.
  - exact Horphan.
Qed.

Lemma fix_pagefield_references_cms (page : Obj) (st : State) :
  cms_schema env = true →
  same_outside (λ m, m ∉ cms_tables) st (final (_fix_pagefield_references env page st)).
Proof.
  intros Hschema.
  eapply same_outside_weaken; [|apply fix_pagefield_references_same_outside].
  intros m (rel & Hrel & ->). apply cms_schema_pagefield; assumption.
Qed.

Lemma delete_page_run (page : Obj) (st : State) :
  let info := {| level := INFO; msg := "Deleting Page %s"; args := [AInt (pk page)] |} in
  let error := {| level := ERROR; msg := "Couldn't delete Page %s %s";
                  args := [AInt (pk page); AExn ProtectedError] |} in
  let tb1 := delete_keys PageUrl
               (pk <$> filter (λ obj, lookup_holds obj (Exact "page" (Some (Int (pk page)))))
                              (instances (table (db st) PageUrl))) (db st) in
  _delete_page env page st =
  match fault env (Execute "DELETE FROM cms_pageurl WHERE page_id = %s" [pk page]) (db st) with
  | Some ProtectedError => Ok () {| db := db st; log := (log st ++ [info]) ++ [error] |}
  | Some e => Raise e {| db := db st; log := log st ++ [info] |}
  | None =>
      match fault env (Execute "DELETE FROM cms_page WHERE id = %s" [pk page]) tb1 with
      | Some ProtectedError => Ok () {| db := tb1; log := (log st ++ [info]) ++ [error] |}
      | Some e => Raise e {| db := tb1; log := log st ++ [info] |}
      | None => Ok () {| db := delete_keys Page [pk page] tb1; log := log st ++ [info] |}
      end
  end.
Proof.
  unfold _delete_page, try_except, bind, cursor_execute, logger_info, logger_error, emit.
  simpl. destruct (fault env _ (db st)) as [[]|]; try reflexivity. simpl.
  destruct (fault env _ _) as [[]|]; reflexivity.
Qed.

Lemma shrinks_refl (m : Model) (keys : list Z) (s : State) : shrinks m keys s s.
Proof. intros k. auto. Qed.

Lemma shrinks_trans (m : Model) (keys : list Z) (s1 s2 s3 : State) :
  shrinks m keys s1 s2 → shrinks m keys s2 s3 → shrinks m keys s1 s3.
Proof.
  intros H1 H2 k. destruct (H2 k) as [H|[Hin H]]; [|auto].
  rewrite H. apply H1.
Qed.

Lemma shrinks_weaken (m : Model) (keys keys' : list Z) (s s' : State) :
  keys ⊆ keys' → shrinks m keys s s' → shrinks m keys' s s'.
Proof. intros Hsub H k. destruct (H k) as [Hk|[Hin Hk]]; auto. Qed.

Lemma shrinks_same (m : Model) (keys : list Z) (s s' : State) :
  table (db s') m = table (db s) m → shrinks m keys s s'.
Proof. intros Heq k. rewrite Heq. auto. Qed.

Lemma only_page_row_refl (page : Obj) (s : State) : only_page_row page s s.
Proof. split; [apply same_outside_refl | apply shrinks_refl]. Qed.

Lemma only_page_row_trans (page : Obj) (s1 s2 s3 : State) :
  only_page_row page s1 s2 → only_page_row page s2 s3 → only_page_row page s1 s3.
Proof.
  intros [Ho1 Hp1] [Ho2 Hp2]. split; [eapply same_outside_trans; eassumption|].
  eapply shrinks_trans; eassumption.
Qed.

Lemma only_page_row_other (page : Obj) (s s' : State) (p : Z) :
  only_page_row page s s' → p ≠ pk page →
  table (db s') Page !! p = table (db s) Page !! p.
Proof.
  intros [_ Hp] Hne. destruct (Hp p) as [H|[Hin _]]; [exact H|].
  apply list_elem_of_singleton in Hin. contradiction.
Qed.

Lemma only_page_row_cms (page : Obj) (s s' : State) :
  same_outside (λ m, m ∉ cms_tables) s s' → only_page_row page s s'.
Proof.
  intros Ho. split.
  - eapply same_outside_weaken; [|exact Ho]. intros m Hm. left. exact Hm.
  - apply shrinks_same, Ho. intros H. apply H. unfold cms_tables. left.
Qed.

Lemma PageUrl_not_cms : PageUrl ∉ cms_tables.
Proof.
  unfold cms_tables. rewrite !elem_of_cons, elem_of_nil.
  intros [H|[H|[H|[H|[H|[]]]]]]; discriminate.
Qed.

Lemma delete_page_only_page_row (page : Obj) (st : State) :
  only_page_row page st (final (_delete_page env page st)).
Proof.
  assert (Hurl : ∀ keys l, only_page_row page st
            {| db := delete_keys PageUrl keys (db st); log := l |}).
  { intros keys l. split.
    - intros m Hm. simpl. unfold delete_keys. apply table_insert_ne.
      intros <-. apply Hm. left. apply PageUrl_not_cms.
    - apply shrinks_same. simpl. unfold delete_keys.
      rewrite table_insert_ne by discriminate. reflexivity. }
  assert (Hsame : ∀ l, only_page_row page st {| db := db st; log := l |}).
  { intros l. split; [intros m _; reflexivity | apply shrinks_same; reflexivity]. }
  rewrite delete_page_run. cbv zeta.
  destruct (fault env (Execute _ _) (db st)) as [[]|]; simpl; try apply Hsame.
  destruct (fault env (Execute _ _) _) as [[]|]; simpl; try apply Hurl.
  split.
  - intros m Hm. simpl. unfold delete_keys. rewrite !table_insert_ne; [reflexivity| |].
    + intros <-. apply Hm. left. apply PageUrl_not_cms.
    + intros <-. tauto.
  - intros p. simpl. rewrite table_delete_keys.
    destruct (decide (p = pk page)) as [->|Hp].
    + right. split; [left|]. rewrite decide_True by (split; [reflexivity | left]).
      reflexivity.
    + left. rewrite decide_False by (rewrite elem_of_cons, elem_of_nil; tauto).
      unfold delete_keys. rewrite table_insert_ne by discriminate. reflexivity.
Qed.

Lemma delete_page_ok_deleted (page : Obj) (st st' : State) :
  (∀ sql params tb, fault env (Execute sql params) tb ≠ Some ProtectedError) →
  _delete_page env page st = Ok () st' →
  table (db st') Page !! pk page = None.
Proof.
  intros Hf. rewrite delete_page_run. cbv zeta.
  destruct (fault env (Execute _ _) (db st)) as [e|] eqn:H1.
  { destruct e; try discriminate; exfalso; eapply Hf, H1. }
  destruct (fault env (Execute "DELETE FROM cms_page WHERE id = %s" _) _) as [e|] eqn:H2.
  { destruct e; try discriminate; exfalso; eapply Hf, H2. }
  intros Heq. injection Heq as <-. cbn [db]. rewrite table_delete_keys.
  rewrite decide_True by (split; [reflexivity | left]). reflexivity.
Qed.

Lemma handle_page_orphan_step (ct : Obj) (stats : Stats) (page : Obj) (st : State) :
  cms_schema env = true →
  evaluate env (_get_page_contents page) (db st) = [] →
  only_page_row page st (final (handle_page env ct stats page st)) ∧
  ∀ stats' st', handle_page env ct stats page st = Ok stats' st' →
    stats' = add_page_deleted stats ∧
    ((∀ sql params tb, fault env (Execute sql params) tb ≠ Some ProtectedError) →
     table (db st') Page !! pk page = None).
Proof.
  intros Hschema Horphan. rewrite handle_page_orphan by exact Horphan.
  pose proof (fix_page_references_cms page st Hschema Horphan) as H1.
  unfold bind.
  destruct (_fix_page_references env page st) as [[] s1|e s1]; simpl in H1 |- *.
  2: { split; [apply only_page_row_cms, H1 | intros ? ? [=]]. }
  pose proof (fix_pagefield_references_cms page s1 Hschema) as H2.
  destruct (_fix_pagefield_references env page s1) as [[] s2|e s2]; simpl in H2 |- *.
  2: { split; [|intros ? ? [=]].
       apply only_page_row_cms. eapply same_outside_trans; eassumption. }
  pose proof (delete_page_only_page_row page s2) as H3.
  assert (H12 : only_page_row page st s2).
  { apply only_page_row_cms. eapply same_outside_trans; eassumption. }
  destruct (_delete_page env page s2) as [[] s3|e s3] eqn:Hdel; simpl in H3 |- *.
  2: { split; [|intros ? ? [=]]. eapply only_page_row_trans; eassumption. }
  split; [eapply only_page_row_trans; eassumption|].
  intros stats' st' [= <- <-]. split; [reflexivity|].
  intros Hf. eapply delete_page_ok_deleted; eassumption.
Qed.

(** One page content in its turn: only placeholders and the page content can
    have changed, the page content by being deleted, and then it had no
    version. *)
Lemma handle_page_content_step (ct : Obj) (stats : Stats) (pc : Obj) (st : State) :
  let versionless := bool_decide (attached env Version ct pc (db st) = []) in
  same_outside (λ m, m = Placeholder ∨ m = PageContent) st
               (final (handle_page_content env ct stats pc st)) ∧
  shrinks PageContent (if versionless then [pk pc] else []) st
          (final (handle_page_content env ct stats pc st)) ∧
  ∀ stats' st', handle_page_content env ct stats pc st = Ok stats' st' →
    stats' = more_pagecontents_deleted stats (if versionless then 1 else 0).
Proof.
  simpl. rewrite handle_page_content_run.
  destruct (decide _) as [Hnil|Hv].
  2: { rewrite bool_decide_eq_false_2 by exact Hv. simpl.
       split; [apply same_outside_refl|]. split; [apply shrinks_refl|].
       intros stats' st' [= <- <-]. unfold more_pagecontents_deleted.
       destruct stats; simpl. f_equal. lia. }
  rewrite bool_decide_eq_true_2 by exact Hnil.
  pose proof (for_each_delete_placeholder_deletes env
                (attached env Placeholder ct pc (db st)) st) as [Ho1 _].
  unfold bind.
  destruct (for_each _ (delete_placeholder env) st) as [[] s1|e s1]; simpl in Ho1 |- *.
  2: { split; [|split; [|intros ? ? [=]]].
       - eapply same_outside_weaken; [|exact Ho1]. simpl. tauto.
       - apply shrinks_same. apply Ho1. discriminate. }
  pose proof (delete_page_content_deletes env pc s1) as [Ho2 Hk2].
  assert (Hout : ∀ s2, same_outside (λ m, m = PageContent) s1 s2 →
            same_outside (λ m, m = Placeholder ∨ m = PageContent) st s2).
  { intros s2 H m Hm. rewrite H, Ho1 by tauto. reflexivity. }
  assert (Hshr : ∀ s2, shrinks PageContent [pk pc] s1 s2 →
            shrinks PageContent [pk pc] st s2).
  { intros s2 H k. rewrite <- (Ho1 PageContent) by discriminate. apply H. }
  destruct (_delete_page_content env pc s1) as [[] s2|e s2]; simpl in Ho2, Hk2 |- *.
  - split; [apply Hout, Ho2|]. split; [exact (Hshr _ Hk2)|].
    intros stats' st' [= <- <-]. reflexivity.
  - split; [apply Hout, Ho2|]. split; [exact (Hshr _ Hk2) | intros ? ? [=]].
Qed.

Lemma content_loop (ct : Obj) (tb0 : Tables) (l : list Obj) (acc : Stats) (s : State) :
  table (db s) Version = table tb0 Version →
  same_outside (λ m, m = Placeholder ∨ m = PageContent) s
               (final (for_each_acc l (handle_page_content env ct) acc s)) ∧
  shrinks PageContent (pk <$> filter (λ pc, attached env Version ct pc tb0 = []) l) s
          (final (for_each_acc l (handle_page_content env ct) acc s)) ∧
  ∀ acc' s', for_each_acc l (handle_page_content env ct) acc s = Ok acc' s' →
    acc' = more_pagecontents_deleted acc
             (length (filter (λ pc, attached env Version ct pc tb0 = []) l)).
Proof.
  revert acc s. induction l as [|pc l IH]; intros acc s Hver; cbn [for_each_acc].
  - split; [apply same_outside_refl|]. split; [apply shrinks_refl|].
    intros acc' s' [= <- <-]. unfold more_pagecontents_deleted.
    destruct acc; simpl. f_equal. lia.
  - destruct (handle_page_content_step ct acc pc s) as (Ho & Hs & Hacc).
    rewrite (attached_ext env Version ct pc tb0 (db s)) in Hs, Hacc
      by (discriminate || exact Hver).
    rewrite filter_cons. unfold bind.
    destruct (handle_page_content env ct acc pc s) as [acc1 s1|e s1]; simpl in Ho, Hs |- *.
    + specialize (Hacc _ _ eq_refl).
      destruct (IH acc1 s1) as (Ho' & Hs' & Hacc').
      { rewrite (Ho Version); [exact Hver|]. intros [H|H]; discriminate. }
      split; [eapply same_outside_trans; eassumption|]. split.
      * eapply shrinks_trans.
        -- eapply shrinks_weaken; [|exact Hs].
           destruct (decide _) as [Hv|Hv];
             rewrite ?bool_decide_eq_true_2, ?bool_decide_eq_false_2 by exact Hv;
             intros k Hk; rewrite ?fmap_cons, ?elem_of_cons, ?elem_of_nil in *; tauto.
        -- eapply shrinks_weaken; [|exact Hs'].
           destruct (decide _) as [Hv|Hv];
             intros k Hk; rewrite ?fmap_cons, ?elem_of_cons in *; tauto.
      * intros acc' s' Hok. rewrite (Hacc' _ _ Hok), Hacc.
        unfold more_pagecontents_deleted. simpl.
        destruct (decide _) as [Hv|Hv];
          rewrite ?bool_decide_eq_true_2, ?bool_decide_eq_false_2 by exact Hv;
          simpl; f_equal; lia.
    + split; [exact Ho|]. split; [|intros ? ? [=]].
      eapply shrinks_weaken; [|exact Hs].
      destruct (decide _) as [Hv|Hv];
        rewrite ?bool_decide_eq_true_2, ?bool_decide_eq_false_2 by exact Hv;
        intros k Hk; rewrite ?fmap_cons, ?elem_of_cons, ?elem_of_nil in *; tauto.
Qed.

Lemma handle_page_contents_step (ct : Obj) (tb0 : Tables) (stats : Stats) (page : Obj)
    (s : State) :
  table (db s) Version = table tb0 Version →
  evaluate env (_get_page_contents page) (db s) ≠ [] →
  let l := evaluate env (_get_page_contents page) (db s) in
  let versionless := filter (λ pc, attached env Version ct pc tb0 = []) l in
  same_outside (λ m, m = Placeholder ∨ m = PageContent) s
               (final (handle_page env ct stats page s)) ∧
  shrinks PageContent (pk <$> versionless) s (final (handle_page env ct stats page s)) ∧
  ∀ stats' s', handle_page env ct stats page s = Ok stats' s' →
    stats' = more_pagecontents_deleted
               (add_pagecontents_count stats (Z.of_nat (length l))) (length versionless).
Proof.
  intros Hver Hne. cbv zeta. rewrite handle_page_contents by exact Hne.
  apply content_loop. exact Hver.
Qed.

End Page.

(** ** The loop over the pages *)

Section Pages.

Variable env : Env.
Variable ct : Obj.
Variable tb0 : Tables.
Variable n : Z.

Hypothesis schema : cms_schema env = true.

Lemma stats_after_snoc (processed : list Obj) (q : Obj) :
  let c := evaluate env (_get_page_contents q) tb0 in
  let before := stats_after env ct tb0 n processed in
  stats_after env ct tb0 n (processed ++ [q]) =
  {| page_count := n;
     page_deleted := page_deleted before + (if decide (c = []) then 1 else 0);
     pagecontents_count := pagecontents_count before + Z.of_nat (length c);
     pagecontents_deleted :=
       pagecontents_deleted before +
       Z.of_nat (length (filter (λ pc, attached env Version ct pc tb0 = []) c)) |}.
Proof.
  cbv zeta. unfold stats_after. simpl.
  rewrite filter_app, length_app, !sum_list_with_app. simpl.
  rewrite filter_cons, filter_nil.
  destruct (decide (evaluate env (_get_page_contents q) tb0 = [])); simpl; f_equal; lia.
Qed.

Lemma contents_as_at_start (processed : list Obj) (q : Obj) (tb : Tables) :
  page_loop_invariant env ct tb0 processed tb →
  (∀ q', q' ∈ processed → pk q' ≠ pk q) →
  evaluate env (_get_page_contents q) tb ≡ₚ evaluate env (_get_page_contents q) tb0.
Proof.
  intros (_ & Hb1 & Hb2 & _) Hq. apply NoDup_Permutation.
  - eapply NoDup_fmap_1, NoDup_pk_evaluate.
  - eapply NoDup_fmap_1, NoDup_pk_evaluate.
  - intros pc. rewrite !elem_of_page_contents. split; intros [Hrow Hpage].
    + split; [apply Hb1, Hrow | exact Hpage].
    + split; [|exact Hpage]. apply Hb2; [exact Hrow|].
      intros q' Hq'. rewrite Hpage. intros [= H]. exact (Hq q' Hq' (eq_sym H)).
Qed.

Lemma safe_Version (tb : Tables) : safe ct tb0 tb → table tb Version = table tb0 Version.
Proof. intros (H & _). exact H. Qed.

Lemma Version_in_cms : Version ∈ cms_tables.
Proof. unfold cms_tables. rewrite !elem_of_cons. auto. Qed.

Lemma ContentType_in_cms : ContentType ∈ cms_tables.
Proof. unfold cms_tables. rewrite !elem_of_cons. auto 10. Qed.

Lemma page_step (processed : list Obj) (q : Obj) (s : State) :
  page_loop_invariant env ct tb0 processed (db s) →
  (∀ q', q' ∈ processed → pk q' ≠ pk q) →
  safe ct tb0 (db (final (handle_page env ct (stats_after env ct tb0 n processed) q s))) ∧
  ∀ stats1 s1,
    handle_page env ct (stats_after env ct tb0 n processed) q s = Ok stats1 s1 →
    page_loop_invariant env ct tb0 (processed ++ [q]) (db s1) ∧
    stats1 = stats_after env ct tb0 n (processed ++ [q]).
Proof.
  intros Hinv Hq.
  pose proof (contents_as_at_start processed q (db s) Hinv Hq) as Hperm.
  destruct Hinv as (Hsafe & Hb1 & Hb2 & Hdel).
  destruct Hsafe as (Hver & Hct & Hb3 & Hd & Hc).
  destruct (decide (evaluate env (_get_page_contents q) (db s) = [])) as [Horphan|Hne].
  - (* a page without page contents *)
    assert (Horphan0 : evaluate env (_get_page_contents q) tb0 = []).
    { rewrite Horphan in Hperm. symmetry. apply Permutation_nil_l. exact Hperm. }
    destruct (handle_page_orphan_step env ct (stats_after env ct tb0 n processed) q s
                schema Horphan) as (Hrow & Hok).
    set (s' := final (handle_page env ct (stats_after env ct tb0 n processed) q s)) in *.
    pose proof (λ p, only_page_row_other q s s' p Hrow) as Hp.
    destruct Hrow as [Ho Hsh].
    assert (Hkeep : ∀ m, m ∈ cms_tables → m ≠ Page → table (db s') m = table (db s) m).
    { intros m Hm Hne. apply Ho. tauto. }
    assert (Hpc : table (db s') PageContent = table (db s) PageContent).
    { apply Hkeep; [apply cms_tables_PageContent | discriminate]. }
    assert (Hsafe' : safe ct tb0 (db s')).
    { split; [|split; [|split; [|split]]].
      - rewrite Hkeep; [exact Hver | apply Version_in_cms | discriminate].
      - rewrite Hkeep; [exact Hct | apply ContentType_in_cms | discriminate].
      - intros k r Hr Hv. rewrite Hpc. apply Hb3; assumption.
      - intros p Hcont. rewrite Hp; [apply Hd, Hcont|].
        intros ->. apply (has_content_iff env q tb0) in Hcont. contradiction.
      - intros p. destruct (Hsh p) as [H|[_ H]]; [rewrite H; apply Hc | auto]. }
    split; [exact Hsafe'|].
    intros stats1 s1 Hrun. destruct (Hok _ _ Hrun) as [-> Hgone].
    subst s'. rewrite Hrun in *. simpl in *. split.
    + split; [exact Hsafe'|]. split; [|split].
      * intros k r. rewrite Hpc. apply Hb1.
      * intros k r Hr Hnot. rewrite Hpc. apply Hb2; [exact Hr|].
        intros q' Hq'. apply Hnot. apply elem_of_app. auto.
      * intros Hf q' [Hq'|Hq']%elem_of_app Ho'.
        -- rewrite Hp by (apply Hq, Hq'). apply Hdel; assumption.
        -- apply list_elem_of_singleton in Hq' as ->. apply Hgone, Hf.
    + rewrite stats_after_snoc. cbv zeta. rewrite Horphan0. simpl.
      unfold add_page_deleted, stats_after. simpl. f_equal; lia.
  - (* a page with page contents *)
    destruct (handle_page_contents_step env ct tb0 (stats_after env ct tb0 n processed)
                q s Hver Hne) as (Ho & Hs & Hok).
    pose proof (handle_page_keeps_versioned env ct (stats_after env ct tb0 n processed)
                  q s Hne) as [_ Hkv].
    set (s' := final (handle_page env ct (stats_after env ct tb0 n processed) q s)) in *.
    assert (Hpage : table (db s') Page = table (db s) Page).
    { apply Ho. intros [H|H]; discriminate. }
    assert (Hsafe' : safe ct tb0 (db s')).
    { split; [|split; [|split; [|split]]].
      - rewrite (Ho Version); [exact Hver|]. intros [H|H]; discriminate.
      - rewrite (Ho ContentType); [exact Hct|]. intros [H|H]; discriminate.
      - intros k r Hr Hv. destruct (Hkv k) as [Hk _].
        { eapply versioned_ext; [|exact Hv]. exact Hver. }
        rewrite Hk. apply Hb3; assumption.
      - intros p Hcont. rewrite Hpage. apply Hd, Hcont.
      - intros p. rewrite Hpage. apply Hc. }
    split; [exact Hsafe'|].
    intros stats1 s1 Hrun. specialize (Hok _ _ Hrun).
    subst s'. rewrite Hrun in *. simpl in *. split.
    + split; [exact Hsafe'|]. split; [|split].
      * intros k r Hr. apply Hb1. destruct (Hs k) as [Hk|[_ Hk]]; congruence.
      * intros k r Hr Hnot.
        assert (Hrs : table (db s) PageContent !! k = Some r).
        { apply Hb2; [exact Hr|]. intros q' Hq'. apply Hnot, elem_of_app. auto. }
        destruct (Hs k) as [Hk|[Hin _]]; [congruence|]. exfalso.
        apply list_elem_of_fmap in Hin as (pc & -> & Hpc).
        apply list_elem_of_filter in Hpc as [_ Hpc].
        apply elem_of_page_contents in Hpc as [Hrow Hpg].
        rewrite Hrs in Hrow. injection Hrow as Hrow.
        apply (Hnot q); [apply elem_of_app; right; left|].
        rewrite Hrow. exact Hpg.
      * intros Hf q' [Hq'|Hq']%elem_of_app Ho'.
        -- rewrite Hpage. apply Hdel; assumption.
        -- apply list_elem_of_singleton in Hq' as ->. exfalso.
           rewrite Ho' in Hperm. apply Permutation_nil_r in Hperm. contradiction.
    + rewrite stats_after_snoc. cbv zeta. rewrite Hok.
      rewrite decide_False.
      2: { intros H0. rewrite H0 in Hperm. apply Permutation_nil_r in Hperm.
           contradiction. }
      rewrite <- Hperm.
      unfold more_pagecontents_deleted, add_pagecontents_count, stats_after. simpl.
      f_equal; lia.
Qed.

Lemma page_loop (rest processed : list Obj) (s : State) :
  NoDup (pk <$> (processed ++ rest)) →
  page_loop_invariant env ct tb0 processed (db s) →
  match for_each_acc rest (handle_page env ct) (stats_after env ct tb0 n processed) s with
  | Ok stats' s' =>
      page_loop_invariant env ct tb0 (processed ++ rest) (db s') ∧
      stats' = stats_after env ct tb0 n (processed ++ rest)
  | Raise _ s' => safe ct tb0 (db s')
  end.
Proof.
  revert processed s. induction rest as [|q rest IH]; intros processed s Hnd Hinv.
  - simpl. rewrite app_nil_r. auto.
  - cbn [for_each_acc]. unfold bind.
    assert (Hq : ∀ q', q' ∈ processed → pk q' ≠ pk q).
    { intros q' Hq' Heq. rewrite fmap_app, fmap_cons in Hnd.
      apply NoDup_app in Hnd as (_ & Hdisj & _).
      apply (Hdisj (pk q')); [apply list_elem_of_fmap; eauto|].
      rewrite Heq. left. }
    destruct (page_step processed q s Hinv Hq) as [Hsafe Hok].
    destruct (handle_page env ct _ q s) as [stats1 s1|e s1]; simpl in Hsafe.
    + destruct (Hok _ _ eq_refl) as [Hinv1 ->].
      specialize (IH (processed ++ [q]) s1).
      rewrite <- app_assoc in IH. simpl in IH. apply IH; assumption.
    + exact Hsafe.
Qed.

End Pages.

Section Run.

Variable env : Env.

Lemma safe_refl (ct : Obj) (tb : Tables) : safe ct tb tb.
Proof. repeat split; auto. Qed.

Lemma page_loop_invariant_start (ct : Obj) (tb : Tables) :
  page_loop_invariant env ct tb [] tb.
Proof.
  split; [apply safe_refl|]. split; [auto|]. split; [auto|].
  intros _ q Hq. inversion Hq.
Qed.

Lemma all_pages (tb : Tables) :
  evaluate env (all Page objects) tb = instances (table tb Page).
Proof.
  unfold evaluate. simpl. induction (instances (table tb Page)) as [|x l IH];
    [reflexivity|].
  rewrite filter_cons_True by exact I. rewrite IH. reflexivity.
Qed.

(** A run of [handle] under the schema of the CMS: when the content type of
    [PageContent] is found, the loop over the pages keeps its invariant. *)
Lemma handle_invariant (st : State) :
  cms_schema env = true →
  match get env (qfilter [Exact "app_label" (Some (Str "cms"));
                          Exact "model" (Some (Str "pagecontent"))]
                         (all ContentType objects)) st with
  | Raise e _ => handle env st = Raise e st
  | Ok ct _ =>
      match handle env st with
      | Ok _ st' =>
          page_loop_invariant env ct (db st) (evaluate env (all Page objects) (db st))
            (db st') ∧
          ∃ l, log st' = l ++ [{| level := INFO; msg := "Stats: %s";
                                  args := [AStats (expected_stats env ct (db st))] |}]
      | Raise _ st' => safe ct (db st) (db st')
      end
  end.
Proof.
  intros Hschema. rewrite handle_run.
  destruct (get env _ st) as [ct s|e s] eqn:Hget.
  2: { pose proof (f_equal final Hget) as Hf. rewrite get_final in Hf. simpl in Hf.
       subst s. reflexivity. }
  apply get_ok in Hget as [-> _].
  pose proof (page_loop env ct (db st)
                (Z.of_nat (length (evaluate env (all Page objects) (db st)))) Hschema
                (evaluate env (all Page objects) (db st)) [] st) as Hloop.
  simpl in Hloop.
  change (stats_after env ct (db st) _ []) with
    (initial_stats (Z.of_nat (length (evaluate env (all Page objects) (db st))))) in Hloop.
  destruct (for_each_acc _ (handle_page env ct) _ st) as [stats s|e s].
  - destruct Hloop as [Hinv ->];
      [apply NoDup_pk_evaluate | apply page_loop_invariant_start|].
    split; [exact Hinv|]. simpl. eauto.
  - apply Hloop; [apply NoDup_pk_evaluate | apply page_loop_invariant_start].
Qed.

End Run.

(** ** Runs that return *)

Section Returns.

Variable env : Env.

Hypothesis schema : cms_schema env = true.
Hypothesis faults_in_try :
  ∀ c tb e, fault env c tb = Some e → e = ProtectedError ∧ in_try c = true.

Lemma siblings_ext (page : Obj) (tb tb' : Tables) :
  table tb' Page = table tb Page → siblings page tb' = siblings page tb.
Proof. intros H. unfold siblings. rewrite H. reflexivity. Qed.

(** The treatment of a page returns when the page has a page content, and
    when it has none and exactly one sibling. *)
Lemma handle_page_returns (ct : Obj) (stats : Stats) (page : Obj) (st : State) :
  (evaluate env (_get_page_contents page) (db st) = [] →
   ∃ r, siblings page (db st) = [r]) →
  ∃ stats' st', handle_page env ct stats page st = Ok stats' st'.
Proof.
  intros Hsib.
  destruct (decide (evaluate env (_get_page_contents page) (db st) = [])) as [Horphan|Hne].
  - destruct (Hsib Horphan) as [r Hr].
    rewrite handle_page_orphan by exact Horphan.
    pose proof (fix_page_references_cms env page st schema Horphan) as H1.
    unfold bind at 1.
    rewrite fix_page_references_run, get_replacement_page_run, Hr in H1 |- *.
    destruct (never_raises
                (logger_info "Fixing reference from Page %s to %s" [AInt (pk page); AInt (pk r)] ;;;
                 for_each (relations env) (fix_relation env page r)) st) as ([] & s1 & Hs1).
    { apply raises_only_bind; [apply raises_only_emit|]. intros _.
      apply raises_only_for_each. intros rel.
      apply raises_only_fix_relation, faults_in_try. }
    rewrite Hs1 in H1 |- *. simpl in H1.
    assert (Hr1 : siblings page (db s1) = [r]).
    { rewrite <- Hr. apply siblings_ext, H1.
      intros H. apply H. unfold cms_tables. left. }
    unfold bind at 1.
    rewrite fix_pagefield_references_run, get_replacement_page_run, Hr1.
    destruct (never_raises
                (logger_info "Fixing PageField references from Page %s to %s"
                             [AInt (pk page); AInt (pk r)] ;;;
                 for_each (plugin_relation_models env) (λ rel,
                   qupdate env (qfilter [Exact (name rel) (ref page)] (all (model rel) objects))
                           (name rel) (Int (pk r)))) s1) as ([] & s2 & Hs2).
    { apply raises_only_bind; [apply raises_only_emit|]. intros _.
      apply raises_only_for_each. intros rel.
      apply raises_only_write; [assumption | reflexivity]. }
    rewrite Hs2. unfold bind at 1.
    destruct (never_raises (_delete_page env page) s2) as ([] & s3 & Hs3).
    { apply raises_only_delete_page. assumption. }
    rewrite Hs3. simpl. eauto.
  - rewrite handle_page_contents by exact Hne.
    apply never_raises, raises_only_for_each_acc. intros a pc.
    apply raises_only_handle_page_content, faults_in_try.
Qed.

(** The siblings of a page whose only sibling has a page content do not
    change in the course of a run. *)
Lemma siblings_as_at_start (ct : Obj) (tb0 tb : Tables) (q r : Obj) :
  safe ct tb0 tb → siblings q tb0 = [r] → has_content tb0 (pk r) →
  siblings q tb = [r].
Proof.
  intros (_ & _ & _ & Hd & Hc) Hsib Hcont.
  apply Permutation_singleton_r, NoDup_Permutation.
  - eapply NoDup_fmap_1, NoDup_pk_filter, NoDup_pk_instances.
  - apply NoDup_singleton.
  - intros obj. rewrite <- Hsib. unfold siblings.
    rewrite !list_elem_of_filter, !elem_of_instances. split; intros [HP Hrow].
    + split; [exact HP|]. destruct (Hc (pk obj)) as [H|H]; congruence.
    + split; [exact HP|].
      assert (Hin : obj ∈ siblings q tb0).
      { apply list_elem_of_filter. rewrite elem_of_instances. auto. }
      rewrite Hsib in Hin. apply list_elem_of_singleton in Hin as ->.
      rewrite Hd by exact Hcont. exact Hrow.
Qed.

Lemma page_loop_returns (ct : Obj) (tb0 : Tables) (n : Z) (rest processed : list Obj)
    (s : State) :
  NoDup (pk <$> (processed ++ rest)) →
  page_loop_invariant env ct tb0 processed (db s) →
  (∀ q, q ∈ rest → evaluate env (_get_page_contents q) tb0 = [] →
        ∃ r, siblings q tb0 = [r] ∧ has_content tb0 (pk r)) →
  ∃ stats' s',
    for_each_acc rest (handle_page env ct) (stats_after env ct tb0 n processed) s
    = Ok stats' s'.
Proof.
  revert processed s. induction rest as [|q rest IH]; intros processed s Hnd Hinv Hsib.
  - simpl. unfold ret. eauto.
  - cbn [for_each_acc]. unfold bind.
    assert (Hq : ∀ q', q' ∈ processed → pk q' ≠ pk q).
    { intros q' Hq' Heq. rewrite fmap_app, fmap_cons in Hnd.
      apply NoDup_app in Hnd as (_ & Hdisj & _).
      apply (Hdisj (pk q')); [apply list_elem_of_fmap; eauto|].
      rewrite Heq. left. }
    destruct (page_step env ct tb0 n schema processed q s Hinv Hq) as [_ Hok].
    destruct (handle_page_returns ct (stats_after env ct tb0 n processed) q s)
      as (stats1 & s1 & Hrun).
    { intros Horphan.
      pose proof (contents_as_at_start env ct tb0 processed q (db s) Hinv Hq) as Hperm.
      rewrite Horphan in Hperm. symmetry in Hperm. apply Permutation_nil_r in Hperm.
      destruct (Hsib q) as (r & Hr & Hcont); [left | exact Hperm |].
      exists r. eapply siblings_as_at_start; [apply Hinv | exact Hr | exact Hcont]. }
    rewrite Hrun. destruct (Hok _ _ Hrun) as [Hinv1 ->].
    apply IH.
    + rewrite <- app_assoc. exact Hnd.
    + exact Hinv1.
    + intros q' Hq'. apply Hsib. right. exact Hq'.
Qed.

(** A run returns when the content type of [PageContent] is there and every
    page without a page content has exactly one sibling, which has a page
    content. *)
Lemma handle_returns (st : State) (ct : Obj) :
  evaluate env (qfilter [Exact "app_label" (Some (Str "cms"));
                         Exact "model" (Some (Str "pagecontent"))]
                        (all ContentType objects)) (db st) = [ct] →
  (∀ page, page ∈ evaluate env (all Page objects) (db st) →
           evaluate env (_get_page_contents page) (db st) = [] →
           ∃ r, siblings page (db st) = [r] ∧ has_content (db st) (pk r)) →
  ∃ st', handle env st = Ok () st'.
Proof.
  intros Hct Hsib. rewrite handle_run. unfold get. rewrite Hct.
  destruct (page_loop_returns ct (db st)
              (Z.of_nat (length (evaluate env (all Page objects) (db st))))
              (evaluate env (all Page objects) (db st)) [] st) as (stats & s & Hloop).
  - apply NoDup_pk_evaluate.
  - apply page_loop_invariant_start.
  - exact Hsib.
  - change (stats_after env ct (db st) _ []) with
      (initial_stats (Z.of_nat (length (evaluate env (all Page objects) (db st))))) in Hloop.
    rewrite Hloop. unfold logger_info, emit. eauto.
Qed.

End Returns.

(** ** The whole run *)

Section Handle.

Variable env : Env.

Lemma elem_of_all_pages (tb : Tables) (q : Obj) :
  q ∈ evaluate env (all Page objects) tb ↔ table tb Page !! pk q = Some (row q).
Proof. rewrite all_pages. apply elem_of_instances. Qed.

(** C1. A page is treated as orphaned exactly when [PageContent._base_manager]
    has no row for it: then [handle_page] fixes the references and deletes the
    page, and otherwise it goes through the page contents and leaves the table
    of pages as it is. Under the schema of the CMS, whatever the run does and
    however it ends, a page that has a page content when the command starts is
    never deleted; and when the run returns and no [ProtectedError] of the raw
    SQL was swallowed, the pages that are gone are exactly those that had no
    page content. The run does return, with this result, when the database
    calls raise nothing but a [ProtectedError] of a [delete()] inside a [try],
    the content type of [PageContent] is there, and every page without a page
    content has exactly one sibling, which has a page content. *)
Theorem page_deleted_iff_no_page_content (st : State) :
  cms_schema env = true →
  (∀ page tb, evaluate env (_get_page_contents page) tb ≠ [] ↔ has_content tb (pk page)) ∧
  (∀ ct stats page s,
     if decide (evaluate env (_get_page_contents page) (db s) = [])
     then handle_page env ct stats page s =
          (_fix_page_references env page ;;;
           _fix_pagefield_references env page ;;;
           _delete_page env page ;;;
           ret (add_page_deleted stats)) s
     else table (db (final (handle_page env ct stats page s))) Page = table (db s) Page) ∧
  (∀ p, has_content (db st) p →
        table (db (final (handle env st))) Page !! p = table (db st) Page !! p) ∧
  ((∀ sql params tb, fault env (Execute sql params) tb ≠ Some ProtectedError) →
   ∀ st', handle env st = Ok () st' →
   ∀ p, is_Some (table (db st) Page !! p) →
        (table (db st') Page !! p = None ↔ ¬ has_content (db st) p)) ∧
  ((∀ c tb e, fault env c tb = Some e → e = ProtectedError ∧ in_try c = true) →
   (∀ sql params tb, fault env (Execute sql params) tb ≠ Some ProtectedError) →
   ∀ ct,
   evaluate env (qfilter [Exact "app_label" (Some (Str "cms"));
                          Exact "model" (Some (Str "pagecontent"))]
                         (all ContentType objects)) (db st) = [ct] →
   (∀ page, page ∈ evaluate env (all Page objects) (db st) →
            evaluate env (_get_page_contents page) (db st) = [] →
            ∃ r, siblings page (db st) = [r] ∧ has_content (db st) (pk r)) →
   ∃ st', handle env st = Ok () st' ∧
          ∀ p, is_Some (table (db st) Page !! p) →
               (table (db st') Page !! p = None ↔ ¬ has_content (db st) p)).
Proof.
  intros Hschema.
  split; [intros page tb; apply has_content_iff|].
  split.
  { intros ct stats page s. destruct (decide _) as [Horphan|Hne].
    - apply handle_page_orphan. exact Horphan.
    - destruct (handle_page_contents_step env ct (db s) stats page s eq_refl Hne)
        as (Ho & _). apply Ho. intros [H|H]; discriminate. }
  assert (Hrun : (∀ p, has_content (db st) p →
            table (db (final (handle env st))) Page !! p = table (db st) Page !! p) ∧
          ((∀ sql params tb, fault env (Execute sql params) tb ≠ Some ProtectedError) →
           ∀ st', handle env st = Ok () st' →
           ∀ p, is_Some (table (db st) Page !! p) →
                (table (db st') Page !! p = None ↔ ¬ has_content (db st) p))).
  { pose proof (handle_invariant env st Hschema) as Hinv.
    destruct (get env _ st) as [ct s|e s].
    2: { rewrite Hinv. simpl. split; [reflexivity|]. discriminate. }
    destruct (handle env st) as [[] s'|e s']; simpl.
    - destruct Hinv as [((_ & _ & _ & Hd & _) & _ & _ & Hdel) _].
      split; [exact Hd|].
      intros Hf st' [= <-] p [r Hr]. split.
      + intros Hnone Hcont. rewrite (Hd p Hcont) in Hnone. congruence.
      + intros Hno.
        apply (Hdel Hf {| pk := p; row := r |}).
        * apply elem_of_all_pages. exact Hr.
        * destruct (decide (evaluate env (_get_page_contents {| pk := p; row := r |})
                              (db st) = [])) as [H|H]; [exact H|].
          apply has_content_iff in H. contradiction.
    - destruct Hinv as (_ & _ & _ & Hd & _). split; [exact Hd | discriminate]. }
  destruct Hrun as [Hkept Hgone].
  split; [exact Hkept|]. split; [exact Hgone|].
  intros Hfaults Hf ct Hct Hsib.
  destruct (handle_returns env Hschema Hfaults st ct Hct Hsib) as [st' Hok].
  exists st'. split; [exact Hok|]. apply Hgone; assumption.
Qed.


(** What one page does to the statistics. *)
Lemma handle_page_counts (ct : Obj) (stats stats' : Stats) (page : Obj) (s s' : State) :
  handle_page env ct stats page s = Ok stats' s' →
  page_count stats' = page_count stats ∧
  page_deleted stats ≤ page_deleted stats' ≤ page_deleted stats + 1 ∧
  0 ≤ pagecontents_deleted stats' - pagecontents_deleted stats
    ≤ pagecontents_count stats' - pagecontents_count stats.
Proof.
  destruct (decide (evaluate env (_get_page_contents page) (db s) = [])) as [Horphan|Hne].
  - rewrite handle_page_orphan by exact Horphan. unfold bind.
    destruct (_fix_page_references env page s) as [[] s1|]; [|discriminate].
    destruct (_fix_pagefield_references env page s1) as [[] s2|]; [|discriminate].
    destruct (_delete_page env page s2) as [[] s3|]; [|discriminate].
    intros [= <- <-]. simpl. lia.
  - intros Hrun.
    destruct (handle_page_contents_step env ct (db s) stats page s eq_refl Hne)
      as (_ & _ & Hok).
    rewrite (Hok _ _ Hrun). simpl.
    pose proof (length_filter (λ pc, attached env Version ct pc (db s) = [])
                  (evaluate env (_get_page_contents page) (db s))). lia.
Qed.

Lemma page_loop_counts (ct : Obj) (l : list Obj) (stats stats' : Stats) (s s' : State) :
  for_each_acc l (handle_page env ct) stats s = Ok stats' s' →
  page_count stats' = page_count stats ∧
  page_deleted stats ≤ page_deleted stats' ≤ page_deleted stats + Z.of_nat (length l) ∧
  0 ≤ pagecontents_deleted stats' - pagecontents_deleted stats
    ≤ pagecontents_count stats' - pagecontents_count stats.
Proof.
  revert stats s. induction l as [|q l IH]; intros stats s; cbn [for_each_acc].
  - intros [= <- <-]. simpl. lia.
  - unfold bind. destruct (handle_page env ct stats q s) as [stats1 s1|] eqn:Hq;
      [|discriminate].
    intros Hrest. apply handle_page_counts in Hq. apply IH in Hrest.
    rewrite length_cons. lia.
Qed.

(** C8. A run that returns has logged, as its last record, the statistics:
    [page_count] is the number of rows of [Page] at the start, the two counters
    of deletions are bounded by the two counts, and under the schema of the
    CMS all four are what the tables at the start determine: the pages, the
    pages without a page content, the page contents of the pages, and the page
    contents without a version. And the run does return, and logs these
    statistics, when the database calls raise nothing but [ProtectedError]
    inside a [try], the content type of [PageContent] is there, and every page
    without a page content has exactly one sibling, which has a page
    content. *)
Theorem stats_logged_at_end (st : State) :
  (∀ st', handle env st = Ok () st' →
   ∃ ct stats l,
     evaluate env (qfilter [Exact "app_label" (Some (Str "cms"));
                            Exact "model" (Some (Str "pagecontent"))]
                           (all ContentType objects)) (db st) = [ct] ∧
     log st' = l ++ [{| level := INFO; msg := "Stats: %s"; args := [AStats stats] |}] ∧
     page_count stats = Z.of_nat (size (table (db st) Page)) ∧
     0 ≤ page_deleted stats ≤ page_count stats ∧
     0 ≤ pagecontents_deleted stats ≤ pagecontents_count stats ∧
     (cms_schema env = true → stats = expected_stats env ct (db st))) ∧
  (cms_schema env = true →
   (∀ c tb e, fault env c tb = Some e → e = ProtectedError ∧ in_try c = true) →
   ∀ ct,
   evaluate env (qfilter [Exact "app_label" (Some (Str "cms"));
                          Exact "model" (Some (Str "pagecontent"))]
                         (all ContentType objects)) (db st) = [ct] →
   (∀ page, page ∈ evaluate env (all Page objects) (db st) →
            evaluate env (_get_page_contents page) (db st) = [] →
            ∃ r, siblings page (db st) = [r] ∧ has_content (db st) (pk r)) →
   ∃ st' l,
     handle env st = Ok () st' ∧
     log st' = l ++ [{| level := INFO; msg := "Stats: %s";
                        args := [AStats (expected_stats env ct (db st))] |}]).
Proof.
  split.
  2: { intros Hschema Hfaults ct Hct Hsib.
       destruct (handle_returns env Hschema Hfaults st ct Hct Hsib) as [st' Hok].
       pose proof (handle_invariant env st Hschema) as Hinv.
       unfold get in Hinv. rewrite Hct, Hok in Hinv. destruct Hinv as [_ [l Hl]].
       exists st', l. split; [exact Hok | exact Hl]. }
  intros st' Hrun. pose proof Hrun as Hrun'. rewrite handle_run in Hrun'.
  destruct (get env _ st) as [ct s|] eqn:Hget; [|discriminate].
  apply get_ok in Hget as [-> Hct].
  destruct (for_each_acc _ (handle_page env ct) _ st) as [stats s|] eqn:Hloop;
    [|discriminate].
  injection Hrun' as <-. exists ct, stats, (log s).
  split; [exact Hct|]. split; [reflexivity|].
  apply page_loop_counts in Hloop. simpl in Hloop.
  rewrite all_pages, length_instances in Hloop.
  split; [tauto|]. split; [lia|]. split; [lia|].
  intros Hschema. pose proof (handle_invariant env st Hschema) as Hinv.
  unfold get in Hinv. rewrite Hct, Hrun in Hinv.
  destruct Hinv as [_ [l Hl]]. simpl in Hl.
  apply app_inj_tail in Hl as [_ Hl]. congruence.
Qed.

End Handle.

(** ** Counters and managers *)


Section Managers.

Variable env : Env.

(** C10. Whether a page is orphaned is asked of [_base_manager]: a page
    content of the page counts although the default manager of [PageContent]
    returns no page content of the page. Such a page is treated as a page with
    page contents, the table of pages is left as it is, whatever happens, and
    [page_deleted] is not counted up. *)
Theorem hidden_page_content_keeps_page (ct : Obj) (stats : Stats) (page : Obj) (st : State)
    (k : Z) (r : Row) :
  table (db st) PageContent !! k = Some r →
  fields r !! "page" = Some (Int (pk page)) →
  evaluate env (qfilter [Exact "page" (ref page)] (all PageContent objects)) (db st) = [] →
  {| pk := k; row := r |} ∈ evaluate env (_get_page_contents page) (db st) ∧
  handle_page env ct stats page st =
    for_each_acc (evaluate env (_get_page_contents page) (db st))
      (handle_page_content env ct)
      (add_pagecontents_count stats
         (Z.of_nat (length (evaluate env (_get_page_contents page) (db st))))) st ∧
  table (db (final (handle_page env ct stats page st))) Page = table (db st) Page ∧
  ∀ stats' st', handle_page env ct stats page st = Ok stats' st' →
                page_deleted stats' = page_deleted stats.
Proof.
  intros Hr Hpage _.
  assert (Hin : {| pk := k; row := r |} ∈ evaluate env (_get_page_contents page) (db st)).
  { apply elem_of_page_contents. auto. }
  assert (Hne : evaluate env (_get_page_contents page) (db st) ≠ []).
  { intros Hnil. rewrite Hnil in Hin. inversion Hin. }
  split; [exact Hin|]. split; [apply handle_page_contents, Hne|].
  destruct (handle_page_contents_step env ct (db st) stats page st eq_refl Hne)
    as (Ho & _ & Hok).
  split.
  - apply Ho. intros [H|H]; discriminate.
  - intros stats' st' Hrun. rewrite (Hok _ _ Hrun). reflexivity.
Qed.

End Managers.

(** ** Relations that the loops keep *)

Lemma for_each_rel {A} (R : State → State → Prop) (l : list A) (body : A → M unit)
    (st : State) :
  (∀ s, R s s) → (∀ s1 s2 s3, R s1 s2 → R s2 s3 → R s1 s3) →
  (∀ x s, x ∈ l → R s (final (body x s))) →
  R st (final (for_each l body st)).
Proof.
  intros Hrefl Htrans Hbody.
  refine (proj1 (for_each_final R (λ _, True) l body st Hrefl Htrans _ I)).
  intros x s Hx _. split; [apply Hbody, Hx | auto].
Qed.

Lemma for_each_acc_rel {A S} (R : State → State → Prop) (l : list A)
    (body : S → A → M S) (acc : S) (st : State) :
  (∀ s, R s s) → (∀ s1 s2 s3, R s1 s2 → R s2 s3 → R s1 s3) →
  (∀ x a s, x ∈ l → R s (final (body a x s))) →
  R st (final (for_each_acc l body acc st)).
Proof.
  intros Hrefl Htrans Hbody.
  refine (proj1 (for_each_acc_final R (λ _ _, True) l body acc st Hrefl Htrans _ I)).
  intros x a s Hx _. split; [apply Hbody, Hx | auto].
Qed.

(** ** The tables of the CMS: rows are deleted, never changed *)

Lemma unchanged_or_gone_refl (m : Model) (s : State) : unchanged_or_gone m s s.
Proof. intros k. auto. Qed.

Lemma unchanged_or_gone_trans (m : Model) (s1 s2 s3 : State) :
  unchanged_or_gone m s1 s2 → unchanged_or_gone m s2 s3 → unchanged_or_gone m s1 s3.
Proof.
  intros H1 H2 k. destruct (H2 k) as [H|H]; [rewrite H; apply H1 | auto].
Qed.

Lemma unchanged_or_gone_same (m : Model) (s s' : State) :
  table (db s') m = table (db s) m → unchanged_or_gone m s s'.
Proof. intros Heq k. rewrite Heq. auto. Qed.

Lemma shrinks_unchanged_or_gone (m : Model) (keys : list Z) (s s' : State) :
  shrinks m keys s s' → unchanged_or_gone m s s'.
Proof. intros H k. destruct (H k) as [Hk|[_ Hk]]; auto. Qed.

Section Kept.

Variable env : Env.

Lemma handle_page_content_placeholders (ct : Obj) (stats : Stats) (pc : Obj) (st : State) :
  unchanged_or_gone Placeholder st (final (handle_page_content env ct stats pc st)).
Proof.
  rewrite handle_page_content_run. destruct (decide _); [|apply unchanged_or_gone_refl].
  apply bind_final; [apply unchanged_or_gone_trans | |].
  - destruct (for_each_delete_placeholder_deletes env
                (attached env Placeholder ct pc (db st)) st) as [_ H].
    intros k. destruct (H k) as [Hk|[_ Hk]]; auto.
  - intros _ s1 _. apply bind_final; [apply unchanged_or_gone_trans | |].
    + apply unchanged_or_gone_same.
      apply (delete_page_content_deletes env pc s1). discriminate.
    + intros _ s2 _. apply unchanged_or_gone_refl.
Qed.

Lemma handle_page_placeholders (ct : Obj) (stats : Stats) (page : Obj) (st : State) :
  evaluate env (_get_page_contents page) (db st) ≠ [] →
  unchanged_or_gone Placeholder st (final (handle_page env ct stats page st)).
Proof.
  intros Hne. rewrite handle_page_contents by exact Hne.
  apply for_each_acc_rel; [apply unchanged_or_gone_refl | apply unchanged_or_gone_trans|].
  intros pc a s _. apply handle_page_content_placeholders.
Qed.

Lemma handle_page_kept (ct : Obj) (stats : Stats) (page : Obj) (st : State) :
  cms_schema env = true →
  cms_rows_kept st (final (handle_page env ct stats page st)).
Proof.
  intros Hschema.
  destruct (decide (evaluate env (_get_page_contents page) (db st) = [])) as [Horphan|Hne].
  - destruct (handle_page_orphan_step env ct stats page st Hschema Horphan)
      as [[Ho Hsh] _].
    assert (Hsame : ∀ m, m ∈ cms_tables → m ≠ Page →
              table (db (final (handle_page env ct stats page st))) m = table (db st) m).
    { intros m Hm Hne. apply Ho. tauto. }
    split; intros m Hm; rewrite !elem_of_cons, elem_of_nil in Hm.
    + destruct Hm as [->|[->|[->|[]]]].
      * eapply shrinks_unchanged_or_gone, Hsh.
      * apply unchanged_or_gone_same, Hsame; [|discriminate].
        unfold cms_tables. rewrite !elem_of_cons. auto.
      * apply unchanged_or_gone_same, Hsame; [|discriminate].
        unfold cms_tables. rewrite !elem_of_cons. auto.
    + destruct Hm as [->|[->|[]]]; apply Hsame; try discriminate;
        unfold cms_tables; rewrite !elem_of_cons; auto 10.
  - destruct (handle_page_contents_step env ct (db st) stats page st eq_refl Hne)
      as (Ho & Hs & _).
    split; intros m Hm; rewrite !elem_of_cons, elem_of_nil in Hm.
    + destruct Hm as [->|[->|[->|[]]]].
      * apply unchanged_or_gone_same, Ho. intros [H|H]; discriminate.
      * eapply shrinks_unchanged_or_gone, Hs.
      * apply handle_page_placeholders, Hne.
    + destruct Hm as [->|[->|[]]]; apply Ho; intros [H|H]; discriminate.
Qed.

(** X2. Under the schema of the CMS the command deletes rows of [Page],
    [PageContent] and [Placeholder] and never changes one: however the run
    ends, a row of these tables that is there at the end is there at the
    start, with the same values. *)
Theorem own_rows_are_deleted_never_changed (st : State) :
  cms_schema env = true →
  ∀ m k r, m ∈ [Page; PageContent; Placeholder] →
           table (db (final (handle env st))) m !! k = Some r →
           table (db st) m !! k = Some r.
Proof.
  intros Hschema.
  assert (Hkept : cms_rows_kept st (final (handle env st))).
  { assert (Hrefl : ∀ s, cms_rows_kept s s).
    { intros s. split; intros m _; [apply unchanged_or_gone_refl | reflexivity]. }
    assert (Htrans : ∀ s1 s2 s3, cms_rows_kept s1 s2 → cms_rows_kept s2 s3 → cms_rows_kept s1 s3).
    { intros s1 s2 s3 [H1 H1'] [H2 H2']. split; intros m Hm.
      - eapply unchanged_or_gone_trans; [apply H1, Hm | apply H2, Hm].
      - rewrite H2', H1' by exact Hm. reflexivity. }
    assert (Hdb : ∀ s s', db s' = db s → cms_rows_kept s s').
    { intros s s' Heq. split; intros m _; [apply unchanged_or_gone_same|];
        rewrite Heq; reflexivity. }
    unfold handle. apply bind_final; [exact Htrans | |].
    { rewrite get_final. apply Hrefl. }
    intros ct s _. apply bind_final; [exact Htrans | apply Hrefl|].
    intros n s1 _. apply bind_final; [exact Htrans | apply Hrefl|].
    intros pages s2 _. apply bind_final; [exact Htrans | |].
    - apply for_each_acc_rel; [exact Hrefl | exact Htrans|].
      intros q a s3 _. apply handle_page_kept, Hschema.
    - intros stats s3 _. apply Hdb. reflexivity. }
  destruct Hkept as [Hrows _].
  intros m k r Hm Hr. destruct (Hrows m Hm k) as [H|H]; congruence.
Qed.

End Kept.

(** ** A site with nothing to clean up *)

Section Clean.

Variable env : Env.

Lemma content_loop_versioned (ct : Obj) (l : list Obj) (acc : Stats) (st : State) :
  (∀ pc, pc ∈ l → attached env Version ct pc (db st) ≠ []) →
  for_each_acc l (handle_page_content env ct) acc st = Ok acc st.
Proof.
  induction l as [|pc l IH]; intros Hv; [reflexivity|].
  cbn [for_each_acc]. unfold bind. rewrite handle_page_content_run.
  rewrite decide_False by (apply Hv; left).
  apply IH. intros pc' Hpc'. apply Hv. right. exact Hpc'.
Qed.

Lemma page_loop_clean (ct : Obj) (l : list Obj) (acc : Stats) (st : State) :
  (∀ page, page ∈ l →
     evaluate env (_get_page_contents page) (db st) ≠ [] ∧
     ∀ pc, pc ∈ evaluate env (_get_page_contents page) (db st) →
           attached env Version ct pc (db st) ≠ []) →
  for_each_acc l (handle_page env ct) acc st =
  Ok {| page_count := page_count acc;
        page_deleted := page_deleted acc;
        pagecontents_count :=
          pagecontents_count acc +
          Z.of_nat (sum_list_with
                      (λ page, length (evaluate env (_get_page_contents page) (db st))) l);
        pagecontents_deleted := pagecontents_deleted acc |} st.
Proof.
  revert acc. induction l as [|q l IH]; intros acc Hclean.
  - simpl. unfold ret. destruct acc. simpl. do 2 f_equal. lia.
  - cbn [for_each_acc]. unfold bind.
    destruct (Hclean q) as [Hne Hv]; [left|].
    rewrite handle_page_contents by exact Hne.
    rewrite content_loop_versioned by exact Hv.
    rewrite IH by (intros page Hpage; apply Hclean; right; exact Hpage).
    unfold add_pagecontents_count. simpl. do 2 f_equal. lia.
Qed.

(** X3. A site with nothing to clean up is left as it is. When every page has
    a page content and every page content of a page has a version, the run
    makes no call that writes to the database: whatever such calls would
    raise, it returns, the tables are what they were, and the one record it
    logs is the statistics, with no page and no page content deleted. A site
    without pages is the simplest case. *)
Theorem clean_site_is_left_as_it_is (st : State) (ct : Obj) :
  evaluate env (qfilter [Exact "app_label" (Some (Str "cms"));
                         Exact "model" (Some (Str "pagecontent"))]
                        (all ContentType objects)) (db st) = [ct] →
  (∀ p, is_Some (table (db st) Page !! p) → has_content (db st) p) →
  (∀ k r p, table (db st) PageContent !! k = Some r →
            fields r !! "page" = Some (Int p) →
            is_Some (table (db st) Page !! p) →
            versioned (db st) ct k) →
  handle env st =
  Ok () {| db := db st;
           log := log st ++
             [{| level := INFO; msg := "Stats: %s";
                 args := [AStats
                   {| page_count := Z.of_nat (size (table (db st) Page));
                      page_deleted := 0;
                      pagecontents_count :=
                        Z.of_nat (sum_list_with
                          (λ page, length (evaluate env (_get_page_contents page) (db st)))
                          (instances (table (db st) Page)));
                      pagecontents_deleted := 0 |}] |}] |}.
Proof.
  intros Hct Hcontent Hversion.
  rewrite handle_run. unfold get. rewrite Hct.
  rewrite page_loop_clean.
  - rewrite all_pages, length_instances. reflexivity.
  - intros page Hpage. apply elem_of_all_pages in Hpage. split.
    + apply has_content_iff, Hcontent. eauto.
    + intros pc Hpc. apply elem_of_page_contents in Hpc as [Hrow Hfield].
      intros Hnil. apply versions_nil_iff in Hnil. apply Hnil.
      eapply Hversion; eauto.
Qed.

End Clean.

(** ** The two statements of [_delete_page] *)

Section Partial.

Variable env : Env.

(** X4. [_delete_page] is not undone when its second statement fails. When
    the [DELETE] on [cms_pageurl] goes through and the one on [cms_page]
    raises, the rows of [PageUrl] of the page are gone and the row of the page
    is still there; a [ProtectedError] is then logged and swallowed, so that
    [_delete_page] returns, and any other exception leaves it. *)
Theorem delete_page_keeps_first_delete (page : Obj) (st : State) (e : Exn) :
  fault env (Execute "DELETE FROM cms_pageurl WHERE page_id = %s" [pk page]) (db st) = None →
  (∀ tb, fault env (Execute "DELETE FROM cms_page WHERE id = %s" [pk page]) tb = Some e) →
  let st' := final (_delete_page env page st) in
  table (db st') Page = table (db st) Page ∧
  (∀ k, table (db st') PageUrl !! k =
        r ← table (db st) PageUrl !! k;
        if decide (fields r !! "page" = Some (Int (pk page))) then None else Some r) ∧
  (∀ m, m ≠ PageUrl → table (db st') m = table (db st) m) ∧
  _delete_page env page st =
    (if decide (e = ProtectedError) then Ok () st' else Raise e st') ∧
  log st' =
    log st ++ [{| level := INFO; msg := "Deleting Page %s"; args := [AInt (pk page)] |}]
           ++ (if decide (e = ProtectedError)
               then [{| level := ERROR; msg := "Couldn't delete Page %s %s";
                        args := [AInt (pk page); AExn ProtectedError] |}]
               else []).
Proof.
  intros H1 H2 st'. subst st'. rewrite delete_page_run. cbv zeta. rewrite H1, H2.
  set (tb1 := delete_keys PageUrl _ (db st)).
  assert (Hdb : db (final (match e with
                           | ProtectedError =>
                               Ok () {| db := tb1;
                                        log := (log st ++ [{| level := INFO;
                                                              msg := "Deleting Page %s";
                                                              args := [AInt (pk page)] |}]) ++
                                               [{| level := ERROR;
                                                   msg := "Couldn't delete Page %s %s";
                                                   args := [AInt (pk page);
                                                            AExn ProtectedError] |}] |}
                           | _ => Raise e {| db := tb1;
                                            log := log st ++ [{| level := INFO;
                                                                 msg := "Deleting Page %s";
                                                                 args := [AInt (pk page)] |}] |}
                           end)) = tb1).
  { destruct e; reflexivity. }
  rewrite Hdb.
  split; [subst tb1; unfold delete_keys; apply table_insert_ne; discriminate|].
  split.
  { intros k. subst tb1. rewrite table_delete_keys.
    destruct (table (db st) PageUrl !! k) as [r|] eqn:Hr; simpl.
    - destruct (decide (fields r !! "page" = Some (Int (pk page)))) as [Hp|Hp].
      + rewrite decide_True; [reflexivity|]. split; [reflexivity|].
        apply list_elem_of_fmap. exists {| pk := k; row := r |}. split; [reflexivity|].
        apply list_elem_of_filter. split.
        * apply Is_true_true. simpl. apply bool_decide_eq_true. exact Hp.
        * apply elem_of_instances. exact Hr.
      + rewrite decide_False; [reflexivity|].
        intros [_ (obj & -> & Hobj)%list_elem_of_fmap].
        apply list_elem_of_filter in Hobj as [Hh Hobj].
        apply Is_true_true, bool_decide_eq_true in Hh.
        apply elem_of_instances in Hobj. rewrite Hr in Hobj.
        injection Hobj as Heq. apply Hp. rewrite Heq. exact Hh.
    - destruct (decide _); reflexivity. }
  split.
  { intros m Hm. subst tb1. unfold delete_keys. apply table_insert_ne. congruence. }
  destruct e; simpl; rewrite <- ?app_assoc; split; reflexivity.
Qed.

End Partial.

(** ** After [_fix_page_references] *)

Lemma refers_set_field (rel : Field) (target : Obj) (k : Z) (r : Row) (f : string)
    (v : Value) :
  field_name rel ≠ "id" → field_name rel ≠ "pk" →
  refers rel target k (set_field f v r) =
  if many_to_many rel then refers rel target k r
  else if decide (f = field_name rel) then bool_decide (v = Int (pk target))
       else refers rel target k r.
Proof.
  intros Hid Hpk. unfold refers, refers_to.
  destruct (many_to_many rel); [reflexivity|].
  unfold lookup_holds, getattr, ref. simpl.
  rewrite (bool_decide_eq_false_2 (field_name rel = "id" ∨ field_name rel = "pk")) by tauto.
  destruct (decide (f = field_name rel)) as [->|Hne].
  - rewrite lookup_insert_eq. apply bool_decide_ext. split; congruence.
  - rewrite lookup_insert_ne by exact Hne. reflexivity.
Qed.

Lemma refers_repoint (rel : Field) (target : Obj) (k : Z) (r : Row) (f : string)
    (page replacement_page : Z) :
  refers rel target k (repoint f page replacement_page r) =
  if many_to_many rel && bool_decide (f = field_name rel)
  then bool_decide (pk target ∈ related_keys r f ∖ {[page]} ∪ {[replacement_page]})
  else refers rel target k r.
Proof.
  unfold refers, refers_to.
  destruct (many_to_many rel); [|reflexivity]. simpl.
  unfold repoint, set_related, related_keys. simpl.
  destruct (bool_decide_reflect (f = field_name rel)) as [Hf|Hf].
  - subst f. rewrite lookup_insert_eq. reflexivity.
  - rewrite lookup_insert_ne by exact Hf. reflexivity.
Qed.

Section References.

Variable env : Env.

(** What the body of the loop over [relations] does to the table of the
    related model. *)
Lemma fix_relation_effect (page replacement_page : Obj) (rel : Field) (st st' : State) :
  related_model rel ≠ PageUrl →
  fix_relation env page replacement_page rel st = Ok () st' →
  (∀ m, m ≠ related_model rel → table (db st') m = table (db st) m) ∧
  (∀ k, table (db st') (related_model rel) !! k =
        if decide (k ∈ pk <$> related_objects env rel page (db st))
        then r ← table (db st) (related_model rel) !! k;
             if one_to_one rel then None
             else if many_to_many rel
                  then Some (repoint (field_name rel) (pk page) (pk replacement_page) r)
                  else Some (set_field (field_name rel) (Int (pk replacement_page)) r)
        else table (db st) (related_model rel) !! k).
Proof.
  intros Hurl. unfold fix_relation, related_objects.
  rewrite bool_decide_eq_false_2 by exact Hurl.
  destruct (one_to_one rel).
  { intros [_ ->]%write_ok. simpl. split.
    - intros m Hm. unfold delete_keys. apply table_insert_ne. congruence.
    - intros k. rewrite table_delete_keys.
      destruct (decide (k ∈ pk <$> _)) as [Hk|Hk].
      + rewrite decide_True by auto. destruct (table (db st) _ !! k); reflexivity.
      + rewrite decide_False by tauto. reflexivity. }
  destruct (many_to_many rel).
  { intros Hrun. unfold bind at 1, iterate in Hrun.
    apply for_each_repoint in Hrun; [|apply NoDup_pk_evaluate].
    destruct Hrun as (Hk & Hm & _). simpl in *. split; [exact Hm|].
    intros k. rewrite Hk.
    destruct (decide (k ∈ pk <$> _)); [|reflexivity].
    destruct (table (db st) _ !! k); reflexivity. }
  intros [_ ->]%write_ok. simpl. split.
  - intros m Hm. unfold update_keys. apply table_insert_ne. congruence.
  - intros k. rewrite table_update_keys.
    destruct (decide (k ∈ pk <$> _)) as [Hk|Hk].
    + rewrite decide_True by auto. destruct (table (db st) _ !! k); reflexivity.
    + rewrite decide_False by tauto. reflexivity.
Qed.

(** A row after the body of the loop is the row before it, as it was or with
    the field of the relation set to the replacement page. *)
Lemma fix_relation_rows (page replacement_page : Obj) (rel : Field) (st st' : State)
    (m : Model) (k : Z) (r' : Row) :
  fix_relation env page replacement_page rel st = Ok () st' →
  table (db st') m !! k = Some r' →
  ∃ r, table (db st) m !! k = Some r ∧
       (r' = r ∨ r' = set_field (field_name rel) (Int (pk replacement_page)) r ∨
        r' = repoint (field_name rel) (pk page) (pk replacement_page) r).
Proof.
  intros Hrun Hr'.
  destruct (decide (related_model rel = PageUrl)) as [Hurl|Hurl].
  { unfold fix_relation in Hrun. rewrite bool_decide_eq_true_2 in Hrun by exact Hurl.
    injection Hrun as <-. eauto. }
  destruct (fix_relation_effect page replacement_page rel st st' Hurl Hrun) as [Hm Hk].
  destruct (decide (m = related_model rel)) as [->|Hne].
  - rewrite Hk in Hr'. destruct (decide _).
    + destruct (table (db st) (related_model rel) !! k) as [r|]; [|discriminate].
      simpl in Hr'. exists r. split; [reflexivity|].
      destruct (one_to_one rel); [discriminate|].
      destruct (many_to_many rel); injection Hr' as <-; auto.
    + eauto.
  - rewrite Hm in Hr' by exact Hne. eauto.
Qed.

Lemma for_each_fix_relation_rows (φ : Z → Row → Prop) (page replacement_page : Obj)
    (l : list Field) (st st' : State) :
  (∀ f k r, φ k r → φ k (set_field f (Int (pk replacement_page)) r)) →
  (∀ f k r, φ k r → φ k (repoint f (pk page) (pk replacement_page) r)) →
  for_each l (fix_relation env page replacement_page) st = Ok () st' →
  ∀ m k r', table (db st') m !! k = Some r' →
            ∃ r, table (db st) m !! k = Some r ∧ (φ k r → φ k r').
Proof.
  intros Hset Hrep. revert st. induction l as [|rel l IH]; intros st; cbn [for_each].
  - intros [= <-] m k r' Hr'. eauto.
  - unfold bind.
    destruct (fix_relation env page replacement_page rel st) as [[] s1|] eqn:H1;
      [|discriminate].
    intros Hrest m k r' Hr'.
    destruct (IH s1 Hrest m k r' Hr') as (r1 & Hr1 & Hφ1).
    destruct (fix_relation_rows _ _ _ _ _ _ _ _ H1 Hr1) as (r & Hr & Hcase).
    exists r. split; [exact Hr|]. intros Hφ. apply Hφ1.
    destruct Hcase as [->|[->| ->]]; auto.
Qed.

Lemma elem_of_pk_related_objects (rel : Field) (page : Obj) (tb : Tables) (k : Z) :
  related_model rel ≠ PageContent →
  k ∈ pk <$> related_objects env rel page tb ↔
  ∃ r, table tb (related_model rel) !! k = Some r ∧ refers rel page k r = true.
Proof.
  intros Hpc. rewrite list_elem_of_fmap. unfold related_objects. split.
  - intros (obj & -> & Hobj). apply elem_of_evaluate_filter in Hobj as [Hrow Hh].
    simpl in Hh. rewrite andb_true_r in Hh.
    rewrite manager_rows_objects in Hrow by exact Hpc.
    apply elem_of_instances in Hrow. exists (row obj). split; [exact Hrow|].
    unfold refers. destruct obj; exact Hh.
  - intros (r & Hr & Hh). exists {| pk := k; row := r |}. split; [reflexivity|].
    apply elem_of_evaluate_filter. split.
    + rewrite manager_rows_objects by exact Hpc. apply elem_of_instances. exact Hr.
    + simpl. rewrite andb_true_r. exact Hh.
Qed.

Lemma not_refers_set_field (rel : Field) (page replacement_page : Obj) (f : string)
    (k : Z) (r : Row) :
  field_name rel ≠ "id" → field_name rel ≠ "pk" → pk replacement_page ≠ pk page →
  refers rel page k r = false →
  refers rel page k (set_field f (Int (pk replacement_page)) r) = false.
Proof.
  intros Hid Hpk Hne Hh. rewrite refers_set_field by assumption.
  destruct (many_to_many rel); [exact Hh|].
  destruct (decide _); [apply bool_decide_eq_false; congruence | exact Hh].
Qed.

Lemma not_refers_repoint (rel : Field) (page replacement_page : Obj) (f : string)
    (k : Z) (r : Row) :
  pk replacement_page ≠ pk page →
  refers rel page k r = false →
  refers rel page k (repoint f (pk page) (pk replacement_page) r) = false.
Proof.
  intros Hne Hh. rewrite refers_repoint.
  destruct (many_to_many rel) eqn:Hmm; [|exact Hh]. simpl.
  destruct (bool_decide_reflect (f = field_name rel)) as [Hf|Hf]; [|exact Hh]. subst f.
  apply bool_decide_eq_false. rewrite elem_of_union, elem_of_difference,
    !elem_of_singleton. intros [[_ H]|H]; congruence.
Qed.

Lemma replacement_is_another_page (page replacement_page : Obj) (tb : Tables) :
  siblings page tb = [replacement_page] → pk replacement_page ≠ pk page.
Proof.
  intros Hsib.
  assert (Hin : replacement_page ∈ siblings page tb) by (rewrite Hsib; left).
  apply list_elem_of_filter in Hin as [[_ H] _]. exact H.
Qed.

(** After the turn of a relation no row of its related model refers to the
    page, and none does after the relations that follow. *)
Lemma for_each_fix_relation_free (page replacement_page : Obj) (l1 l2 : list Field)
    (rel : Field) (st st' : State) :
  pk replacement_page ≠ pk page →
  related_model rel ≠ PageUrl → related_model rel ≠ PageContent →
  field_name rel ≠ "id" → field_name rel ≠ "pk" →
  for_each (l1 ++ rel :: l2) (fix_relation env page replacement_page) st = Ok () st' →
  ∀ k r, table (db st') (related_model rel) !! k = Some r → refers rel page k r = false.
Proof.
  intros Hne Hurl Hpc Hid Hpk Hrun.
  rewrite for_each_app in Hrun.
  destruct (for_each l1 (fix_relation env page replacement_page) st) as [[] s1|] eqn:H1;
    [|discriminate].
  cbn [for_each] in Hrun. unfold bind at 1 in Hrun.
  destruct (fix_relation env page replacement_page rel s1) as [[] s2|] eqn:H2;
    [|discriminate].
  destruct (fix_relation_effect page replacement_page rel s1 s2 Hurl H2) as [_ Hk2].
  assert (Hfree2 : ∀ k r, table (db s2) (related_model rel) !! k = Some r →
                          refers rel page k r = false).
  { intros k r. rewrite Hk2. destruct (decide _) as [Hin|Hin].
    - destruct (table (db s1) (related_model rel) !! k) as [r1|]; [|discriminate].
      simpl. destruct (one_to_one rel); [discriminate|].
      destruct (many_to_many rel) eqn:Hmm; intros [= <-].
      + rewrite refers_repoint, Hmm. simpl.
        rewrite bool_decide_eq_true_2 by reflexivity.
        apply bool_decide_eq_false. rewrite elem_of_union, elem_of_difference,
          !elem_of_singleton. intros [[_ H]|H]; congruence.
      + rewrite refers_set_field by assumption. rewrite Hmm.
        rewrite decide_True by reflexivity. apply bool_decide_eq_false. congruence.
    - intros Hr. destruct (refers rel page k r) eqn:Hh; [|reflexivity].
      exfalso. apply Hin. apply elem_of_pk_related_objects; eauto. }
  intros k r Hr.
  destruct (for_each_fix_relation_rows (λ k r, refers rel page k r = false)
              page replacement_page l2 s2 st') with (m := related_model rel) (k := k)
              (r' := r) as (r2 & Hr2 & Hφ); [| |exact Hrun|exact Hr|].
  - intros f k' r' Hh. apply not_refers_set_field; assumption.
  - intros f k' r' Hh. apply not_refers_repoint; assumption.
  - apply Hφ, (Hfree2 k r2 Hr2).
Qed.

(** X5. When [_fix_page_references] returns, the references to the page
    through a reverse relation are gone: of a related model other than
    [PageUrl], which is skipped, and [PageContent], whose default manager may
    hide rows, no row refers to the page through the field of the relation
    (a field that is not the primary key), whatever the other relations on
    the same model have done to the row. A row that referred to the page
    through a relation that is not one-to-one refers to the replacement page,
    if it is still there. *)
Theorem fix_page_references_leaves_no_reference (page : Obj) (st st' : State)
    (rel : Field) :
  _fix_page_references env page st = Ok () st' →
  rel ∈ relations env →
  related_model rel ≠ PageUrl → related_model rel ≠ PageContent →
  field_name rel ≠ "id" → field_name rel ≠ "pk" →
  ∃ replacement_page,
    siblings page (db st) = [replacement_page] ∧
    (∀ k r, table (db st') (related_model rel) !! k = Some r →
            refers rel page k r = false) ∧
    related_objects env rel page (db st') = [] ∧
    (one_to_one rel = false →
     ∀ k r r', table (db st) (related_model rel) !! k = Some r →
               refers rel page k r = true →
               table (db st') (related_model rel) !! k = Some r' →
               refers rel replacement_page k r' = true).
Proof.
  intros Hrun Hrel Hurl Hpc Hid Hpk.
  rewrite fix_page_references_run, get_replacement_page_run in Hrun.
  destruct (siblings page (db st)) as [|repl [|? ?]] eqn:Hsib; try discriminate.
  exists repl. split; [reflexivity|].
  pose proof (replacement_is_another_page page repl (db st) Hsib) as Hne.
  unfold bind at 1, logger_info, emit in Hrun.
  set (s0 := {| db := db st; log := _ |}) in Hrun.
  apply list_elem_of_split in Hrel as (l1 & l2 & Hl). rewrite Hl in Hrun.
  pose proof (for_each_fix_relation_free page repl l1 l2 rel s0 st'
                Hne Hurl Hpc Hid Hpk Hrun) as Hfree.
  split; [exact Hfree|]. split.
  { apply evaluate_nil_iff. intros obj Hobj.
    assert (Hin : pk obj ∈ pk <$> related_objects env rel page (db st')).
    { apply list_elem_of_fmap. exists obj. auto. }
    apply elem_of_pk_related_objects in Hin as (r & Hr & Hh); [|exact Hpc].
    rewrite (Hfree _ _ Hr) in Hh. discriminate. }
  intros H11 k r r' Hr Hh Hr'.
  rewrite for_each_app in Hrun.
  destruct (for_each l1 (fix_relation env page repl) s0) as [[] s1|] eqn:H1;
    [|discriminate].
  cbn [for_each] in Hrun. unfold bind at 1 in Hrun.
  destruct (fix_relation env page repl rel s1) as [[] s2|] eqn:H2; [|discriminate].
  destruct (fix_relation_effect page repl rel s1 s2 Hurl H2) as [_ Hk2].
  (* the row refers to the page or to its replacement until the turn of the
     relation, and to the replacement from then on *)
  assert (Hset : ∀ target f k r, refers rel target k r = true ∨ refers rel repl k r = true →
            refers rel target k (set_field f (Int (pk repl)) r) = true ∨
            refers rel repl k (set_field f (Int (pk repl)) r) = true).
  { intros target f k0 r0. rewrite !refers_set_field by assumption.
    destruct (many_to_many rel); [auto|].
    destruct (decide _); [|auto]. intros _. right. apply bool_decide_eq_true. reflexivity. }
  assert (Hrep : ∀ target f k r, refers rel target k r = true ∨ refers rel repl k r = true →
            refers rel target k (repoint f (pk page) (pk repl) r) = true ∨
            refers rel repl k (repoint f (pk page) (pk repl) r) = true).
  { intros target f k0 r0. rewrite !refers_repoint.
    destruct (many_to_many rel); [|auto]. simpl.
    case_bool_decide; [|auto]. intros _. right. apply bool_decide_eq_true.
    rewrite elem_of_union, elem_of_singleton. auto. }
  destruct (for_each_fix_relation_rows (λ k r, refers rel repl k r = true)
              page repl l2 s2 st') with (m := related_model rel) (k := k) (r' := r')
    as (r2 & Hr2 & Hφ2); [| |exact Hrun|exact Hr'|].
  { intros f k0 r0 H0. destruct (Hset repl f k0 r0); auto. }
  { intros f k0 r0 H0. destruct (Hrep repl f k0 r0); auto. }
  apply Hφ2.
  pose proof Hr2 as Hr1. rewrite Hk2 in Hr1.
  destruct (decide (k ∈ pk <$> related_objects env rel page (db s1))) as [Hin|Hin].
  - destruct (table (db s1) (related_model rel) !! k) as [r1|]; [|discriminate].
    simpl in Hr1. rewrite H11 in Hr1.
    destruct (many_to_many rel) eqn:Hmm; injection Hr1 as <-.
    + rewrite refers_repoint, Hmm. simpl. rewrite bool_decide_eq_true_2 by reflexivity.
      apply bool_decide_eq_true. rewrite elem_of_union, elem_of_singleton. auto.
    + rewrite refers_set_field by assumption. rewrite Hmm, decide_True by reflexivity.
      apply bool_decide_eq_true. reflexivity.
  - destruct (for_each_fix_relation_rows
                (λ k r, refers rel page k r = true ∨ refers rel repl k r = true)
                page repl l1 s0 s1) with (m := related_model rel) (k := k) (r' := r2)
      as (r0 & Hr0 & Hφ1); [apply Hset | apply Hrep | exact H1 | exact Hr1 |].
    subst s0. simpl in Hr0. rewrite Hr in Hr0. injection Hr0 as <-.
    destruct Hφ1 as [Hp|Hp]; [left; exact Hh | | exact Hp].
    exfalso. apply Hin. apply elem_of_pk_related_objects; eauto.
Qed.

End References.

(** ** The page contents at the end of a run *)

Section AtTheEnd.

Variable env : Env.
Variable ct : Obj.
Variable tb0 : Tables.

Hypothesis schema : cms_schema env = true.
Hypothesis deletes_go_through : ∀ m k tb, fault env (InstanceDelete m k) tb = None.

Lemma attached_versioned (pc : Obj) (tb : Tables) :
  attached env Version ct pc tb ≠ [] → versioned tb ct (pk pc).
Proof.
  intros Hne. destruct (attached env Version ct pc tb) as [|v l] eqn:Ha; [contradiction|].
  assert (Hin : v ∈ attached env Version ct pc tb) by (rewrite Ha; left).
  apply elem_of_attached in Hin as (Hrow & Hid & Hct); [|discriminate].
  exists (pk v), (row v). auto.
Qed.

Lemma handle_page_content_deleted (stats stats' : Stats) (pc : Obj) (s s' : State) :
  table (db s) Version = table tb0 Version →
  attached env Version ct pc tb0 = [] →
  handle_page_content env ct stats pc s = Ok stats' s' →
  table (db s') PageContent !! pk pc = None.
Proof.
  intros Hver Hnil. rewrite handle_page_content_run.
  rewrite decide_True by (rewrite (attached_ext env Version ct pc tb0 (db s));
                          [exact Hnil | discriminate | exact Hver]).
  unfold bind at 1.
  destruct (for_each_delete_placeholder_ok env (attached env Placeholder ct pc (db s)) s)
    as (s1 & -> & _); [intros k tb; apply deletes_go_through|].
  unfold bind at 1. rewrite delete_page_content_run. cbv zeta.
  rewrite deletes_go_through. intros [= _ <-]. simpl.
  rewrite table_delete_keys. rewrite decide_True by (split; [reflexivity | left]).
  reflexivity.
Qed.

Lemma content_loop_deleted (l : list Obj) (acc acc' : Stats) (s s' : State) :
  table (db s) Version = table tb0 Version →
  for_each_acc l (handle_page_content env ct) acc s = Ok acc' s' →
  ∀ pc, pc ∈ l → attached env Version ct pc tb0 = [] →
        table (db s') PageContent !! pk pc = None.
Proof.
  revert acc s. induction l as [|x l IH]; intros acc s Hver Hrun pc Hpc Hnil.
  { inversion Hpc. }
  cbn [for_each_acc] in Hrun. unfold bind in Hrun.
  destruct (handle_page_content env ct acc x s) as [a1 s1|] eqn:Hx; [|discriminate].
  destruct (handle_page_content_step env ct acc x s) as (Ho & _).
  rewrite Hx in Ho. simpl in Ho.
  assert (Hver1 : table (db s1) Version = table tb0 Version).
  { rewrite (Ho Version); [exact Hver|]. intros [H|H]; discriminate. }
  apply elem_of_cons in Hpc as [->|Hpc].
  - destruct (content_loop env ct tb0 l a1 s1 Hver1) as (_ & Hsh & _).
    rewrite Hrun in Hsh. simpl in Hsh.
    destruct (Hsh (pk x)) as [H|[_ H]]; [|exact H].
    rewrite H. exact (handle_page_content_deleted acc a1 x s s1 Hver Hnil Hx).
  - eapply IH; eassumption.
Qed.

Lemma versionless_gone_step (n : Z) (processed : list Obj) (q : Obj) (s : State)
    (stats1 : Stats) (s1 : State) :
  page_loop_invariant env ct tb0 processed (db s) →
  (∀ q', q' ∈ processed → pk q' ≠ pk q) →
  versionless_gone ct tb0 processed (db s) →
  handle_page env ct (stats_after env ct tb0 n processed) q s = Ok stats1 s1 →
  versionless_gone ct tb0 (processed ++ [q]) (db s1).
Proof.
  intros Hinv Hq Hgone Hrun k r q' Hq' Hr Hpage Hnv.
  destruct (handle_page_kept env ct (stats_after env ct tb0 n processed) q s schema)
    as [Hkept _].
  rewrite Hrun in Hkept. simpl in Hkept.
  assert (Hpc : unchanged_or_gone PageContent s s1).
  { apply Hkept. rewrite !elem_of_cons. auto. }
  apply elem_of_app in Hq' as [Hq'|Hq'].
  - destruct (Hpc k) as [H|H]; [|exact H]. rewrite H. eapply Hgone; eassumption.
  - apply list_elem_of_singleton in Hq' as ->.
    destruct Hinv as ((Hver & _) & _ & Hb2 & _).
    assert (Hrs : table (db s) PageContent !! k = Some r).
    { apply Hb2; [exact Hr|]. intros q' Hq'. rewrite Hpage. intros [= H].
      exact (Hq q' Hq' (eq_sym H)). }
    assert (Hin : {| pk := k; row := r |} ∈ evaluate env (_get_page_contents q) (db s)).
    { apply elem_of_page_contents. auto. }
    assert (Hne : evaluate env (_get_page_contents q) (db s) ≠ []).
    { intros Hnil. rewrite Hnil in Hin. inversion Hin. }
    rewrite handle_page_contents in Hrun by exact Hne.
    apply (content_loop_deleted _ _ _ _ _ Hver Hrun {| pk := k; row := r |} Hin).
    apply versions_nil_iff. exact Hnv.
Qed.

Lemma page_loop_versionless (n : Z) (rest processed : list Obj) (s : State)
    (stats' : Stats) (s' : State) :
  NoDup (pk <$> (processed ++ rest)) →
  page_loop_invariant env ct tb0 processed (db s) →
  versionless_gone ct tb0 processed (db s) →
  for_each_acc rest (handle_page env ct) (stats_after env ct tb0 n processed) s
    = Ok stats' s' →
  versionless_gone ct tb0 (processed ++ rest) (db s').
Proof.
  revert processed s. induction rest as [|q rest IH]; intros processed s Hnd Hinv Hgone.
  - simpl. intros [= _ <-]. rewrite app_nil_r. exact Hgone.
  - cbn [for_each_acc]. unfold bind.
    assert (Hq : ∀ q', q' ∈ processed → pk q' ≠ pk q).
    { intros q' Hq' Heq. rewrite fmap_app, fmap_cons in Hnd.
      apply NoDup_app in Hnd as (_ & Hdisj & _).
      apply (Hdisj (pk q')); [apply list_elem_of_fmap; eauto|].
      rewrite Heq. left. }
    destruct (page_step env ct tb0 n schema processed q s Hinv Hq) as [_ Hok].
    destruct (handle_page env ct _ q s) as [stats1 s1|] eqn:Hrun; [|discriminate].
    destruct (Hok _ _ eq_refl) as [Hinv1 ->].
    intros Hrest. specialize (IH (processed ++ [q]) s1).
    rewrite <- app_assoc in IH. simpl in IH. apply IH; try assumption.
    eapply versionless_gone_step; eassumption.
Qed.

End AtTheEnd.

Section AtTheEndOfHandle.

Variable env : Env.

Hypothesis schema : cms_schema env = true.
Hypothesis deletes_go_through : ∀ m k tb, fault env (InstanceDelete m k) tb = None.

(** When a run returns, the invariant of the loop holds of all the pages, and
    their page contents that had no version are gone. *)
Lemma handle_versionless_gone (st st' : State) (ct : Obj) :
  evaluate env (qfilter [Exact "app_label" (Some (Str "cms"));
                         Exact "model" (Some (Str "pagecontent"))]
                        (all ContentType objects)) (db st) = [ct] →
  handle env st = Ok () st' →
  page_loop_invariant env ct (db st) (evaluate env (all Page objects) (db st)) (db st') ∧
  versionless_gone ct (db st) (evaluate env (all Page objects) (db st)) (db st').
Proof.
  intros Hct Hrun.
  pose proof (handle_invariant env st schema) as Hinv.
  unfold get in Hinv. rewrite Hct, Hrun in Hinv. destruct Hinv as [Hinv _].
  split; [exact Hinv|].
  rewrite handle_run in Hrun. unfold get in Hrun. rewrite Hct in Hrun.
  destruct (for_each_acc _ (handle_page env ct) _ st) as [stats s|] eqn:Hloop;
    [|discriminate].
  injection Hrun as <-. simpl.
  apply (page_loop_versionless env ct (db st) schema deletes_go_through
           (Z.of_nat (length (evaluate env (all Page objects) (db st))))
           (evaluate env (all Page objects) (db st)) [] st stats s).
  - apply NoDup_pk_evaluate.
  - apply page_loop_invariant_start.
  - intros k r q Hq. inversion Hq.
  - exact Hloop.
Qed.

(** X6. The page contents a run leaves. Under the schema of the CMS, when
    the calls of [delete()] go through and the run returns, a page content is
    there at the end exactly when it was there at the start and has a version
    or is not a page content of a page (its field [page] is the key of no row
    of [Page], so that the loop never comes to it); its row is unchanged. *)
Theorem page_contents_left_are_the_versioned (st st' : State) (ct : Obj) :
  evaluate env (qfilter [Exact "app_label" (Some (Str "cms"));
                         Exact "model" (Some (Str "pagecontent"))]
                        (all ContentType objects)) (db st) = [ct] →
  handle env st = Ok () st' →
  ∀ k r, table (db st') PageContent !! k = Some r ↔
         table (db st) PageContent !! k = Some r ∧
         (versioned (db st) ct k ∨ ¬ of_a_page (db st) r).
Proof.
  intros Hct Hrun.
  destruct (handle_versionless_gone st st' ct Hct Hrun) as [Hinv Hgone].
  destruct Hinv as ((_ & _ & Hb3 & _) & Hb1 & Hb2 & _).
  intros k r. split.
  - intros Hr. pose proof (Hb1 k r Hr) as Hr0. split; [exact Hr0|].
    destruct (decide (attached env Version ct {| pk := k; row := r |} (db st) = []))
      as [Hnil|Hne].
    + right. intros (p & Hp & [rp Hrp]).
      apply versions_nil_iff in Hnil. simpl in Hnil.
      rewrite (Hgone k r {| pk := p; row := rp |}) in Hr; try assumption; [discriminate|].
      apply elem_of_all_pages. exact Hrp.
    + left. apply (attached_versioned env ct {| pk := k; row := r |}), Hne.
  - intros [Hr0 [Hv|Hnot]].
    + apply Hb3; assumption.
    + apply Hb2; [exact Hr0|]. intros q Hq Hpage. apply Hnot.
      exists (pk q). split; [exact Hpage|].
      apply elem_of_all_pages in Hq. eauto.
Qed.

(** X7. The command makes orphans of its own. Under the same conditions, a
    page all of whose page contents lack a version keeps its row and is left
    without a page content: [_get_page_contents] finds none at the end, so
    that a following run takes the page for an orphan, and ends with
    [DoesNotExist] at this page when the page has no sibling. *)
Theorem page_is_left_without_page_content (st st' : State) (ct : Obj) (page : Obj) :
  evaluate env (qfilter [Exact "app_label" (Some (Str "cms"));
                         Exact "model" (Some (Str "pagecontent"))]
                        (all ContentType objects)) (db st) = [ct] →
  handle env st = Ok () st' →
  table (db st) Page !! pk page = Some (row page) →
  has_content (db st) (pk page) →
  (∀ k r, table (db st) PageContent !! k = Some r →
          fields r !! "page" = Some (Int (pk page)) →
          ¬ versioned (db st) ct k) →
  table (db st') Page !! pk page = Some (row page) ∧
  evaluate env (_get_page_contents page) (db st') = [] ∧
  (siblings page (db st') = [] →
   ∀ ct' stats, handle_page env ct' stats page st' = Raise DoesNotExist st').
Proof.
  intros Hct Hrun Hpage Hcont Hnv.
  destruct (handle_versionless_gone st st' ct Hct Hrun) as [Hinv Hgone].
  destruct Hinv as ((_ & _ & _ & Hd & _) & Hb1 & _).
  assert (Hnil : evaluate env (_get_page_contents page) (db st') = []).
  { apply evaluate_nil_iff. intros pc Hpc.
    apply elem_of_page_contents in Hpc as [Hrow Hfield].
    pose proof (Hb1 _ _ Hrow) as Hrow0.
    rewrite (Hgone (pk pc) (row pc) page) in Hrow; try assumption; [discriminate| |].
    - apply elem_of_all_pages. exact Hpage.
    - exact (Hnv _ _ Hrow0 Hfield). }
  split; [rewrite Hd; assumption|]. split; [exact Hnil|].
  intros Hsib ct' stats. rewrite handle_page_orphan by exact Hnil.
  unfold bind at 1. rewrite fix_page_references_run, get_replacement_page_run, Hsib.
  reflexivity.
Qed.

End AtTheEndOfHandle.

(** ** Statistics, log and tables *)

Lemma logged_app (m : string) (l1 l2 : list LogRecord) :
  logged m (l1 ++ l2) = logged m l1 + logged m l2.
Proof. unfold logged. rewrite filter_app, length_app. lia. Qed.

Lemma logged_other (m : string) (l : list LogRecord) (r : LogRecord) :
  msg r ≠ m → logged m (l ++ [r]) = logged m l.
Proof.
  intros Hne. rewrite logged_app. unfold logged at 2.
  rewrite filter_cons_False by exact Hne. simpl. lia.
Qed.

Lemma logged_one (m : string) (l : list LogRecord) (r : LogRecord) :
  msg r = m → logged m (l ++ [r]) = logged m l + 1.
Proof.
  intros Heq. rewrite logged_app. unfold logged at 2.
  rewrite filter_cons_True by exact Heq. simpl. lia.
Qed.

Lemma logged_singleton (m : string) (r : LogRecord) :
  logged m [r] = if decide (msg r = m) then 1 else 0.
Proof.
  unfold logged. rewrite filter_cons, filter_nil. destruct (decide _); reflexivity.
Qed.

(** Counting the records of a log that ends with records that are known. *)
Ltac count_logged :=
  rewrite ?logged_app, ?logged_singleton; simpl;
  repeat case_decide; try congruence; try lia.

Lemma for_each_keeps_log {A} (l : list A) (body : A → M unit) (st st' : State) :
  (∀ x s s', body x s = Ok () s' → log s' = log s) →
  for_each l body st = Ok () st' → log st' = log st.
Proof.
  intros Hbody. revert st. induction l as [|x l IH]; intros st; cbn [for_each].
  - intros [= <-]. reflexivity.
  - unfold bind. destruct (body x st) as [[] s1|] eqn:Hx; [|discriminate].
    intros Hrest. rewrite (IH _ Hrest). eapply Hbody, Hx.
Qed.

Section Accounting.

Variable env : Env.

Hypothesis schema : cms_schema env = true.

Lemma fix_relation_log (page replacement_page : Obj) (rel : Field) (st st' : State) :
  fix_relation env page replacement_page rel st = Ok () st' → log st' = log st.
Proof.
  unfold fix_relation. case_bool_decide; [intros [= <-]; reflexivity|].
  destruct (one_to_one rel); [intros [_ ->]%write_ok; reflexivity|].
  destruct (many_to_many rel); [|intros [_ ->]%write_ok; reflexivity].
  unfold bind at 1, iterate. intros Hrun.
  apply for_each_repoint in Hrun; [|apply NoDup_pk_evaluate]. apply Hrun.
Qed.

(** The two functions that fix references log one record each, and leave the
    tables of the CMS as they are when the page has no page contents. *)
Lemma fix_references_balance (page : Obj) (st s2 : State) :
  evaluate env (_get_page_contents page) (db st) = [] →
  (_fix_page_references env page ;;; _fix_pagefield_references env page) st = Ok () s2 →
  (∀ m, m ∈ cms_tables → table (db s2) m = table (db st) m) ∧
  ∃ r1 r2, msg r1 = "Fixing reference from Page %s to %s" ∧
           msg r2 = "Fixing PageField references from Page %s to %s" ∧
           log s2 = (log st ++ [r1]) ++ [r2].
Proof.
  intros Horphan. unfold bind at 1.
  pose proof (fix_page_references_cms env page st schema Horphan) as H1.
  destruct (_fix_page_references env page st) as [[] s1|] eqn:Hrun1; [|discriminate].
  pose proof (fix_pagefield_references_cms env page s1 schema) as H2.
  intros Hrun2. rewrite Hrun2 in H2. simpl in H1, H2. split.
  { intros m Hm. rewrite H2, H1 by tauto. reflexivity. }
  rewrite fix_page_references_run in Hrun1.
  destruct (_get_replacement_page env page st) as [r s|] eqn:Hget; [|discriminate].
  rewrite get_replacement_page_run in Hget.
  assert (s = st) as ->.
  { destruct (siblings page (db st)) as [|? [|? ?]]; try discriminate.
    injection Hget as _ <-. reflexivity. }
  unfold bind at 1, logger_info, emit in Hrun1.
  apply for_each_keeps_log in Hrun1; [|intros rel s s'; apply fix_relation_log].
  simpl in Hrun1.
  rewrite fix_pagefield_references_run in Hrun2.
  destruct (_get_replacement_page env page s1) as [r' s|] eqn:Hget'; [|discriminate].
  rewrite get_replacement_page_run in Hget'.
  assert (s = s1) as ->.
  { destruct (siblings page (db s1)) as [|? [|? ?]]; try discriminate.
    injection Hget' as _ <-. reflexivity. }
  unfold bind at 1, logger_info, emit in Hrun2.
  apply for_each_keeps_log in Hrun2.
  2: { intros rel s s' [_ ->]%write_ok. reflexivity. }
  simpl in Hrun2. rewrite Hrun2, Hrun1. eexists _, _.
  split; [|split; [|reflexivity]]; reflexivity.
Qed.

Lemma Page_in_cms : Page ∈ cms_tables.
Proof. unfold cms_tables. rewrite !elem_of_cons. auto. Qed.

(** A page without page contents in its turn. *)
Lemma handle_page_orphan_balance (ct : Obj) (stats stats' : Stats) (page : Obj)
    (s s' : State) :
  evaluate env (_get_page_contents page) (db s) = [] →
  is_Some (table (db s) Page !! pk page) →
  handle_page env ct stats page s = Ok stats' s' →
  page_balance stats' s' = page_balance stats s ∧
  pagecontent_balance stats' s' = pagecontent_balance stats s.
Proof.
  intros Horphan Hrow. rewrite handle_page_orphan by exact Horphan.
  unfold bind at 1.
  destruct (_fix_page_references env page s) as [[] s1|] eqn:H1; [|discriminate].
  unfold bind at 1.
  destruct (_fix_pagefield_references env page s1) as [[] s2|] eqn:H2; [|discriminate].
  destruct (fix_references_balance page s s2 Horphan) as (Htb & r1 & r2 & Hr1 & Hr2 & Hlog).
  { unfold bind. rewrite H1. exact H2. }
  unfold bind at 1. rewrite delete_page_run. cbv zeta.
  assert (Hpage : table (db s2) Page = table (db s) Page) by apply Htb, Page_in_cms.
  assert (Hpc : table (db s2) PageContent = table (db s) PageContent)
    by apply Htb, cms_tables_PageContent.
  assert (Hl0 : ∀ m, m ≠ "Fixing reference from Page %s to %s" →
                     m ≠ "Fixing PageField references from Page %s to %s" →
                     logged m (log s2) = logged m (log s)).
  { intros m Hm1 Hm2. rewrite Hlog. count_logged. }
  destruct (fault env (Execute "DELETE FROM cms_pageurl WHERE page_id = %s" _) (db s2))
    as [[]|]; try discriminate.
  { (* the first statement is refused: nothing is deleted, one error is logged *)
    intros [= <- <-]. unfold page_balance, pagecontent_balance, add_page_deleted. simpl.
    rewrite Hpage, Hpc, !logged_app, !Hl0 by discriminate. count_logged. }
  set (tb1 := delete_keys PageUrl _ (db s2)).
  assert (Hpage1 : table tb1 Page = table (db s) Page).
  { subst tb1. unfold delete_keys. rewrite table_insert_ne by discriminate. exact Hpage. }
  assert (Hpc1 : table tb1 PageContent = table (db s) PageContent).
  { subst tb1. unfold delete_keys. rewrite table_insert_ne by discriminate. exact Hpc. }
  destruct (fault env (Execute "DELETE FROM cms_page WHERE id = %s" _) tb1)
    as [[]|]; try discriminate.
  { (* the second statement is refused: the page is there, one error is logged *)
    intros [= <- <-]. unfold page_balance, pagecontent_balance, add_page_deleted. simpl.
    rewrite Hpage1, Hpc1, !logged_app, !Hl0 by discriminate. count_logged. }
  (* both go through: the page is deleted, no error is logged *)
  intros [= <- <-]. unfold page_balance, pagecontent_balance, add_page_deleted. simpl.
  unfold delete_keys. rewrite table_insert_eq, table_insert_ne by discriminate.
  simpl. rewrite Hpage1, Hpc1.
  rewrite map_size_delete_Some by exact Hrow.
  rewrite !logged_app, !Hl0 by discriminate.
  destruct Hrow as [r Hr].
  assert (size (table (db s) Page) ≠ 0%nat).
  { intros H0. apply map_size_empty_inv in H0. rewrite H0 in Hr. discriminate. }
  count_logged.
Qed.

Lemma for_each_delete_placeholder_log (m : string) (l : list Obj) (st st' : State) :
  m ≠ "Deleting PageContent Placeholder %s" →
  m ≠ "Couldn't delete PageContent Placeholder %s %s" →
  for_each l (delete_placeholder env) st = Ok () st' →
  logged m (log st') = logged m (log st).
Proof.
  intros Hm1 Hm2. revert st. induction l as [|ph l IH]; intros st; cbn [for_each].
  - intros [= <-]. reflexivity.
  - unfold bind. rewrite delete_placeholder_run. cbv zeta.
    destruct (fault env _ (db st)) as [[]|]; try discriminate;
      intros Hrest; rewrite (IH _ Hrest); simpl; count_logged.
Qed.

(** A page content in its turn. *)
Lemma handle_page_content_balance (ct : Obj) (stats stats' : Stats) (pc : Obj)
    (s s' : State) :
  is_Some (table (db s) PageContent !! pk pc) →
  handle_page_content env ct stats pc s = Ok stats' s' →
  pagecontent_balance stats' s' = pagecontent_balance stats s ∧
  page_balance stats' s' = page_balance stats s.
Proof.
  intros Hrow. rewrite handle_page_content_run.
  destruct (decide _); [|intros [= <- <-]; auto].
  unfold bind at 1.
  pose proof (for_each_delete_placeholder_deletes env
                (attached env Placeholder ct pc (db s)) s) as [Ho _].
  destruct (for_each _ (delete_placeholder env) s) as [[] s1|] eqn:Hph; [|discriminate].
  simpl in Ho.
  assert (Hl1 : ∀ m, m ≠ "Deleting PageContent Placeholder %s" →
                     m ≠ "Couldn't delete PageContent Placeholder %s %s" →
                     logged m (log s1) = logged m (log s)).
  { intros m Hm1 Hm2. eapply for_each_delete_placeholder_log; eassumption. }
  assert (Hpc : table (db s1) PageContent = table (db s) PageContent)
    by (apply Ho; discriminate).
  assert (Hpage : table (db s1) Page = table (db s) Page) by (apply Ho; discriminate).
  unfold bind at 1. rewrite delete_page_content_run. cbv zeta.
  destruct (fault env _ (db s1)) as [[]|]; try discriminate.
  - (* the delete is refused *)
    intros [= <- <-].
    unfold pagecontent_balance, page_balance, add_pagecontents_deleted. simpl.
    rewrite Hpc, Hpage, !logged_app, !Hl1 by discriminate. count_logged.
  - (* the delete goes through *)
    intros [= <- <-].
    unfold pagecontent_balance, page_balance, add_pagecontents_deleted. simpl.
    unfold delete_keys. rewrite table_insert_eq, table_insert_ne by discriminate.
    simpl. rewrite Hpc, Hpage. rewrite map_size_delete_Some by exact Hrow.
    rewrite !logged_app, !Hl1 by discriminate.
    destruct Hrow as [r Hr].
    assert (size (table (db s) PageContent) ≠ 0%nat).
    { intros H0. apply map_size_empty_inv in H0. rewrite H0 in Hr. discriminate. }
    count_logged.
Qed.

Lemma content_loop_balance (ct : Obj) (l : list Obj) (acc acc' : Stats) (s s' : State) :
  NoDup (pk <$> l) →
  (∀ pc, pc ∈ l → is_Some (table (db s) PageContent !! pk pc)) →
  for_each_acc l (handle_page_content env ct) acc s = Ok acc' s' →
  pagecontent_balance acc' s' = pagecontent_balance acc s ∧
  page_balance acc' s' = page_balance acc s.
Proof.
  revert acc s. induction l as [|x l IH]; intros acc s Hnd Hrows; cbn [for_each_acc].
  - intros [= <- <-]. auto.
  - unfold bind.
    destruct (handle_page_content env ct acc x s) as [a1 s1|] eqn:Hx; [|discriminate].
    intros Hrest. rewrite fmap_cons in Hnd. apply NoDup_cons in Hnd as [Hnotin Hnd].
    destruct (handle_page_content_balance ct acc a1 x s s1) as [H1 H2];
      [apply Hrows; left | exact Hx |].
    destruct (handle_page_content_step env ct acc x s) as (_ & Hsh & _).
    rewrite Hx in Hsh. simpl in Hsh.
    assert (Hrows1 : ∀ pc, pc ∈ l → is_Some (table (db s1) PageContent !! pk pc)).
    { intros pc Hpc. destruct (Hsh (pk pc)) as [H|[Hin _]].
      - rewrite H. apply Hrows. right. exact Hpc.
      - exfalso. apply Hnotin. destruct (bool_decide _); [|inversion Hin].
        apply list_elem_of_singleton in Hin. rewrite <- Hin.
        apply list_elem_of_fmap. eauto. }
    destruct (IH a1 s1 Hnd Hrows1 Hrest) as [H3 H4].
    split; congruence.
Qed.

(** A page in its turn. *)
Lemma handle_page_balance (ct : Obj) (stats stats' : Stats) (page : Obj) (s s' : State) :
  is_Some (table (db s) Page !! pk page) →
  handle_page env ct stats page s = Ok stats' s' →
  page_balance stats' s' = page_balance stats s ∧
  pagecontent_balance stats' s' = pagecontent_balance stats s.
Proof.
  intros Hrow.
  destruct (decide (evaluate env (_get_page_contents page) (db s) = [])) as [Horphan|Hne].
  - apply handle_page_orphan_balance; assumption.
  - rewrite handle_page_contents by exact Hne. intros Hrun.
    apply content_loop_balance in Hrun as [H1 H2].
    + split; [exact H2 | exact H1].
    + apply NoDup_pk_evaluate.
    + intros pc Hpc. apply (evaluate_sub env) in Hpc. simpl in Hpc. eauto.
Qed.

Lemma page_loop_balance (ct : Obj) (l : list Obj) (acc acc' : Stats) (s s' : State) :
  NoDup (pk <$> l) →
  (∀ q, q ∈ l → is_Some (table (db s) Page !! pk q)) →
  for_each_acc l (handle_page env ct) acc s = Ok acc' s' →
  page_balance acc' s' = page_balance acc s ∧
  pagecontent_balance acc' s' = pagecontent_balance acc s.
Proof.
  revert acc s. induction l as [|x l IH]; intros acc s Hnd Hrows; cbn [for_each_acc].
  - intros [= <- <-]. auto.
  - unfold bind.
    destruct (handle_page env ct acc x s) as [a1 s1|] eqn:Hx; [|discriminate].
    intros Hrest. rewrite fmap_cons in Hnd. apply NoDup_cons in Hnd as [Hnotin Hnd].
    destruct (handle_page_balance ct acc a1 x s s1) as [H1 H2];
      [apply Hrows; left | exact Hx |].
    assert (Hrows1 : ∀ q, q ∈ l → is_Some (table (db s1) Page !! pk q)).
    { intros q Hq.
      assert (Hne : pk q ≠ pk x).
      { intros Heq. apply Hnotin. rewrite <- Heq. apply list_elem_of_fmap. eauto. }
      assert (Hsame : table (db s1) Page !! pk q = table (db s) Page !! pk q).
      { destruct (decide (evaluate env (_get_page_contents x) (db s) = []))
          as [Horphan|Hcont].
        - destruct (handle_page_orphan_step env ct acc x s schema Horphan) as [Hrow _].
          rewrite Hx in Hrow. simpl in Hrow.
          apply (only_page_row_other x s s1 (pk q) Hrow Hne).
        - destruct (handle_page_contents_step env ct (db s) acc x s eq_refl Hcont)
            as (Ho & _). rewrite Hx in Ho. simpl in Ho.
          rewrite (Ho Page); [reflexivity|]. intros [H|H]; discriminate. }
      rewrite Hsame. apply Hrows. right. exact Hq. }
    destruct (IH a1 s1 Hnd Hrows1 Hrest) as [H3 H4].
    split; congruence.
Qed.

(** X8. The statistics, the log and the tables agree. Under the schema of
    the CMS, when the run returns, the rows of [Page] that are gone are as
    many as the statistics count as deleted, less the records
    ["Couldn't delete Page"] the run has logged; and the rows of
    [PageContent] that are gone are as many as [pagecontents_deleted], less
    the records ["Couldn't delete PageContent"]. *)
Theorem deleted_rows_are_attempts_less_logged_errors (st st' : State) :
  handle env st = Ok () st' →
  ∃ stats l,
    log st' = l ++ [{| level := INFO; msg := "Stats: %s"; args := [AStats stats] |}] ∧
    Z.of_nat (size (table (db st) Page)) - Z.of_nat (size (table (db st') Page)) =
      page_deleted stats
      - (logged "Couldn't delete Page %s %s" (log st')
         - logged "Couldn't delete Page %s %s" (log st)) ∧
    Z.of_nat (size (table (db st) PageContent))
      - Z.of_nat (size (table (db st') PageContent)) =
      pagecontents_deleted stats
      - (logged "Couldn't delete PageContent %s %s" (log st')
         - logged "Couldn't delete PageContent %s %s" (log st)).
Proof.
  rewrite handle_run.
  destruct (get env _ st) as [ct s|] eqn:Hget; [|discriminate].
  apply get_ok in Hget as [-> _].
  destruct (for_each_acc _ (handle_page env ct) _ st) as [stats s|] eqn:Hloop;
    [|discriminate].
  intros [= <-]. exists stats, (log s). split; [reflexivity|].
  apply page_loop_balance in Hloop as [H1 H2].
  - unfold page_balance, pagecontent_balance, initial_stats in H1, H2. simpl in *.
    count_logged.
  - apply NoDup_pk_evaluate.
  - intros q Hq. apply elem_of_all_pages in Hq. eauto.
Qed.

End Accounting.

(** ** A deleted page is referred to nowhere *)

Lemma refers_through_set_field (f : string) (target : Obj) (k : Z) (r : Row) (f' : string)
    (v : Value) :
  f ≠ "id" → f ≠ "pk" →
  refers_through f target k (set_field f' v r) =
  if decide (f' = f) then bool_decide (v = Int (pk target)) else refers_through f target k r.
Proof.
  intros Hid Hpk. unfold refers_through, lookup_holds, getattr, ref. simpl.
  rewrite (bool_decide_eq_false_2 (f = "id" ∨ f = "pk")) by tauto.
  destruct (decide (f' = f)) as [->|Hne].
  - rewrite lookup_insert_eq. apply bool_decide_ext. split; congruence.
  - rewrite lookup_insert_ne by exact Hne. reflexivity.
Qed.

Lemma not_refers_through_set_field (f : string) (page replacement_page : Obj) (f' : string)
    (k : Z) (r : Row) :
  f ≠ "id" → f ≠ "pk" → pk replacement_page ≠ pk page →
  refers_through f page k r = false →
  refers_through f page k (set_field f' (Int (pk replacement_page)) r) = false.
Proof.
  intros Hid Hpk Hne Hh. rewrite refers_through_set_field by assumption.
  destruct (decide _); [apply bool_decide_eq_false; congruence | exact Hh].
Qed.

Lemma refers_through_repoint (f : string) (target : Obj) (k : Z) (r : Row) (f' : string)
    (page replacement_page : Z) :
  refers_through f target k (repoint f' page replacement_page r) =
  refers_through f target k r.
Proof. reflexivity. Qed.

Section Nowhere.

Variable env : Env.

Lemma for_each_pagefield_rows (φ : Z → Row → Prop) (page replacement_page : Obj)
    (l : list RelatedField) (st st' : State) :
  (∀ f k r, φ k r → φ k (set_field f (Int (pk replacement_page)) r)) →
  for_each l (λ rel,
    qupdate env (qfilter [Exact (name rel) (ref page)] (all (model rel) objects))
            (name rel) (Int (pk replacement_page))) st = Ok () st' →
  ∀ m k r', table (db st') m !! k = Some r' →
            ∃ r, table (db st) m !! k = Some r ∧ (φ k r → φ k r').
Proof.
  intros Hset. revert st. induction l as [|rel l IH]; intros st; cbn [for_each].
  - intros [= <-] m k r' Hr'. eauto.
  - unfold bind.
    destruct (qupdate env _ (name rel) (Int (pk replacement_page)) st) as [[] s1|] eqn:H1;
      [|discriminate].
    intros Hrest m k r' Hr'.
    destruct (IH s1 Hrest m k r' Hr') as (r1 & Hr1 & Hφ1).
    apply write_ok in H1 as [_ ->]. simpl in Hr1.
    rewrite table_update_keys in Hr1. destruct (decide _).
    + destruct (table (db st) m !! k) as [r|]; [|discriminate].
      injection Hr1 as <-. exists r. split; [reflexivity|]. auto.
    + eauto.
Qed.

Lemma delete_page_rows (page : Obj) (st st' : State) (m : Model) (k : Z) (r : Row) :
  _delete_page env page st = Ok () st' →
  table (db st') m !! k = Some r → table (db st) m !! k = Some r.
Proof.
  rewrite delete_page_run. cbv zeta.
  destruct (fault env _ (db st)) as [[]|]; try discriminate.
  { intros [= <-]. auto. }
  destruct (fault env _ _) as [[]|]; try discriminate; intros [= <-]; simpl.
  - rewrite table_delete_keys. case_decide; [discriminate | auto].
  - rewrite !table_delete_keys. repeat case_decide; try discriminate. auto.
Qed.

(** After the turn of a [PageField] no row of its model refers to the page,
    and none does after the fields that follow. *)
Lemma for_each_pagefield_free (page replacement_page : Obj) (l1 l2 : list RelatedField)
    (rel : RelatedField) (st st' : State) :
  pk replacement_page ≠ pk page →
  model rel ≠ PageContent → name rel ≠ "id" → name rel ≠ "pk" →
  for_each (l1 ++ rel :: l2) (λ rel,
    qupdate env (qfilter [Exact (name rel) (ref page)] (all (model rel) objects))
            (name rel) (Int (pk replacement_page))) st = Ok () st' →
  ∀ k r, table (db st') (model rel) !! k = Some r →
         refers_through (name rel) page k r = false.
Proof.
  intros Hne Hpc Hid Hpk Hrun. rewrite for_each_app in Hrun.
  destruct (for_each l1 _ st) as [[] s1|]; [|discriminate].
  cbn [for_each] in Hrun. unfold bind at 1 in Hrun.
  destruct (qupdate env _ (name rel) (Int (pk replacement_page)) s1) as [[] s2|] eqn:H2;
    [|discriminate].
  apply write_ok in H2 as [_ Hs2].
  intros k r Hr.
  destruct (for_each_pagefield_rows (λ k r, refers_through (name rel) page k r = false)
              page replacement_page l2 s2 st') with (m := model rel) (k := k) (r' := r)
    as (r2 & Hr2 & Hφ); [|exact Hrun|exact Hr|].
  { intros f k' r' Hh. apply not_refers_through_set_field; assumption. }
  apply Hφ. rewrite Hs2 in Hr2. simpl in Hr2. rewrite table_update_keys in Hr2.
  destruct (decide _) as [Hin|Hin].
  - destruct (table (db s1) (model rel) !! k) as [r1|]; [|discriminate].
    injection Hr2 as <-. rewrite refers_through_set_field by assumption.
    rewrite decide_True by reflexivity. apply bool_decide_eq_false. congruence.
  - destruct (refers_through (name rel) page k r2) eqn:Hh; [|reflexivity].
    exfalso. apply Hin. split; [reflexivity|].
    apply list_elem_of_fmap. exists {| pk := k; row := r2 |}. split; [reflexivity|].
    apply elem_of_evaluate_filter. split.
    + rewrite manager_rows_objects by exact Hpc. apply elem_of_instances. exact Hr2.
    + simpl. rewrite andb_true_r. exact Hh.
Qed.

(** X9. The page that is deleted is referred to nowhere. When the treatment
    of a page without page contents returns and no [ProtectedError] of the
    raw SQL was swallowed, the row of the page is gone, and no row refers to
    the page: none of [PageUrl] or [PageContent] through the field [page],
    none of a related model through the field of its reverse relation, and
    none through a [PageField] of the relation tree (the fields are not
    primary keys; [PageContent], whose default manager may hide rows, is not
    among the related models). *)
Theorem deleted_page_is_referred_to_nowhere (ct : Obj) (stats stats' : Stats) (page : Obj)
    (st st' : State) :
  evaluate env (_get_page_contents page) (db st) = [] →
  (∀ sql params tb, fault env (Execute sql params) tb ≠ Some ProtectedError) →
  handle_page env ct stats page st = Ok stats' st' →
  table (db st') Page !! pk page = None ∧
  (∀ k r, table (db st') PageUrl !! k = Some r → refers_through "page" page k r = false) ∧
  (∀ k r, table (db st') PageContent !! k = Some r →
          refers_through "page" page k r = false) ∧
  (∀ rel, rel ∈ relations env →
          related_model rel ≠ PageUrl → related_model rel ≠ PageContent →
          field_name rel ≠ "id" → field_name rel ≠ "pk" →
          ∀ k r, table (db st') (related_model rel) !! k = Some r →
                 refers rel page k r = false) ∧
  (∀ rel, rel ∈ plugin_relation_models env →
          model rel ≠ PageContent → name rel ≠ "id" → name rel ≠ "pk" →
          ∀ k r, table (db st') (model rel) !! k = Some r →
                 refers_through (name rel) page k r = false).
Proof.
  intros Horphan Hf. rewrite handle_page_orphan by exact Horphan.
  unfold bind at 1.
  destruct (_fix_page_references env page st) as [[] s1|] eqn:H1; [|discriminate].
  unfold bind at 1.
  destruct (_fix_pagefield_references env page s1) as [[] s2|] eqn:H2; [|discriminate].
  unfold bind at 1.
  destruct (_delete_page env page s2) as [[] s3|] eqn:H3; [|discriminate].
  intros [= _ <-].
  (* the loop over the relations *)
  rewrite fix_page_references_run, get_replacement_page_run in H1.
  destruct (siblings page (db st)) as [|repl [|? ?]] eqn:Hsib; try discriminate.
  pose proof (replacement_is_another_page page repl (db st) Hsib) as Hne.
  unfold bind at 1, logger_info, emit in H1.
  set (s0 := {| db := db st; log := _ |}) in H1.
  (* the loop over the fields of type PageField *)
  rewrite fix_pagefield_references_run, get_replacement_page_run in H2.
  destruct (siblings page (db s1)) as [|repl' [|? ?]] eqn:Hsib'; try discriminate.
  pose proof (replacement_is_another_page page repl' (db s1) Hsib') as Hne'.
  unfold bind at 1, logger_info, emit in H2.
  set (s1' := {| db := db s1; log := _ |}) in H2.
  (* a row at the end is a row of before, with fields set to a replacement *)
  assert (Hrows : ∀ φ : Z → Row → Prop,
            (∀ f k r, φ k r → φ k (set_field f (Int (pk repl)) r)) →
            (∀ f k r, φ k r → φ k (set_field f (Int (pk repl')) r)) →
            (∀ f k r, φ k r → φ k (repoint f (pk page) (pk repl) r)) →
            ∀ m k r', table (db s3) m !! k = Some r' →
                      ∃ r1 r, table (db s1) m !! k = Some r1 ∧ table (db st) m !! k = Some r ∧
                              (φ k r1 → φ k r') ∧ (φ k r → φ k r1)).
  { intros φ Hset Hset' Hrep m k r' Hr'.
    apply (delete_page_rows page s2 s3 m k r' H3) in Hr'.
    destruct (for_each_pagefield_rows φ page repl' (plugin_relation_models env) s1' s2
                Hset' H2 m k r' Hr')
      as (r1 & Hr1 & Hφ1).
    destruct (for_each_fix_relation_rows env φ page repl (relations env) s0 s1
                Hset Hrep H1 m k r1 Hr1)
      as (r & Hr & Hφ).
    exists r1, r. auto. }
  split; [eapply delete_page_ok_deleted; eassumption|].
  split.
  { (* the URLs of the page are deleted by the first statement *)
    intros k r. rewrite delete_page_run in H3. cbv zeta in H3.
    destruct (fault env _ (db s2)) as [e|] eqn:Hf1.
    { destruct e; try discriminate. exfalso. eapply Hf, Hf1. }
    destruct (fault env (Execute "DELETE FROM cms_page WHERE id = %s" _) _) as [e|] eqn:Hf2.
    { destruct e; try discriminate. exfalso. eapply Hf, Hf2. }
    injection H3 as <-. simpl.
    unfold delete_keys at 1. rewrite table_insert_ne by discriminate.
    rewrite table_delete_keys. case_decide as Hin; [discriminate|].
    intros Hr. destruct (refers_through "page" page k r) eqn:Hh; [|reflexivity].
    exfalso. apply Hin. split; [reflexivity|].
    apply list_elem_of_fmap. exists {| pk := k; row := r |}. split; [reflexivity|].
    apply list_elem_of_filter. split; [apply Is_true_true; exact Hh|].
    apply elem_of_instances. exact Hr. }
  split.
  { (* the page has no page content, and gets none *)
    intros k r' Hr'.
    destruct (Hrows (λ k r, refers_through "page" page k r = false))
      with (m := PageContent) (k := k) (r' := r') as (r1 & r & _ & Hr & Hφ1 & Hφ);
      [| | |exact Hr'|].
    - intros f k0 r0. apply not_refers_through_set_field; [discriminate..|exact Hne].
    - intros f k0 r0. apply not_refers_through_set_field; [discriminate..|exact Hne'].
    - intros f k0 r0 H. exact H.
    - apply Hφ1, Hφ.
      destruct (refers_through "page" page k r) eqn:Hh; [|reflexivity].
      exfalso. apply (proj1 (evaluate_nil_iff env _ _) Horphan {| pk := k; row := r |}).
      apply elem_of_page_contents. split; [exact Hr|].
      apply bool_decide_eq_true in Hh. exact Hh. }
  split.
  { (* the reverse relations *)
    intros rel Hrel Hurl Hpc Hid Hpk k r' Hr'.
    apply list_elem_of_split in Hrel as (l1 & l2 & Hl). rewrite Hl in H1.
    pose proof (for_each_fix_relation_free env page repl l1 l2 rel s0 s1
                  Hne Hurl Hpc Hid Hpk H1) as Hfree.
    apply (delete_page_rows page s2 s3 _ k r' H3) in Hr'.
    destruct (for_each_pagefield_rows (λ k r, refers rel page k r = false) page repl'
                (plugin_relation_models env) s1' s2)
      with (m := related_model rel) (k := k) (r' := r')
      as (r1 & Hr1 & Hφ1); [|exact H2|exact Hr'|].
    - intros f k0 r0. apply not_refers_set_field; assumption.
    - apply Hφ1, (Hfree k r1 Hr1). }
  (* the fields of type PageField *)
  intros rel Hrel Hpc Hid Hpk k r' Hr'.
  apply list_elem_of_split in Hrel as (l1 & l2 & Hl). rewrite Hl in H2.
  apply (delete_page_rows page s2 s3 _ k r' H3) in Hr'.
  exact (for_each_pagefield_free page repl' l1 l2 rel s1' s2 Hne' Hpc Hid Hpk H2 k r' Hr').
Qed.

End Nowhere.

(** ** The placeholders at the end of a run *)

Section Placeholders.

Variable env : Env.
Variable ct : Obj.
Variable tb0 : Tables.

Hypothesis schema : cms_schema env = true.
Hypothesis deletes_go_through : ∀ m k tb, fault env (InstanceDelete m k) tb = None.

Lemma elem_of_pk_attached (pc : Obj) (tb : Tables) (k : Z) :
  k ∈ pk <$> attached env Placeholder ct pc tb ↔
  ∃ r, table tb Placeholder !! k = Some r ∧ attached_to ct r (pk pc).
Proof.
  rewrite list_elem_of_fmap. split.
  - intros (obj & -> & Hobj). apply elem_of_attached in Hobj; [|discriminate].
    exists (row obj). exact Hobj.
  - intros (r & Hr & Ha). exists {| pk := k; row := r |}. split; [reflexivity|].
    apply elem_of_attached; [discriminate|]. split; [exact Hr | exact Ha].
Qed.

(** A page content in its turn: when it has no version its placeholders are
    deleted, and no other placeholder is. *)
Lemma handle_page_content_placeholders_ok (stats stats' : Stats) (pc : Obj) (s s' : State) :
  table (db s) Version = table tb0 Version →
  handle_page_content env ct stats pc s = Ok stats' s' →
  ∀ k, table (db s') Placeholder !! k =
       if decide (attached env Version ct pc tb0 = [] ∧
                  k ∈ pk <$> attached env Placeholder ct pc (db s))
       then None else table (db s) Placeholder !! k.
Proof.
  intros Hver. rewrite handle_page_content_run.
  rewrite (attached_ext env Version ct pc tb0 (db s)) by (discriminate || exact Hver).
  destruct (decide (attached env Version ct pc tb0 = [])) as [Hnil|Hne].
  2: { intros [= _ <-] k. rewrite decide_False by tauto. reflexivity. }
  unfold bind at 1.
  destruct (for_each_delete_placeholder_ok env (attached env Placeholder ct pc (db s)) s)
    as (s1 & -> & Hk & _); [intros k tb; apply deletes_go_through|].
  unfold bind at 1. rewrite delete_page_content_run. cbv zeta.
  rewrite deletes_go_through. intros [= _ <-] k. simpl.
  unfold delete_keys. rewrite table_insert_ne by discriminate. rewrite Hk.
  destruct (decide (k ∈ _)).
  - rewrite decide_True by tauto. reflexivity.
  - rewrite decide_False by tauto. reflexivity.
Qed.

Lemma content_loop_placeholders (l : list Obj) (acc acc' : Stats) (s s' : State) :
  table (db s) Version = table tb0 Version →
  for_each_acc l (handle_page_content env ct) acc s = Ok acc' s' →
  (∀ k, table (db s') Placeholder !! k = table (db s) Placeholder !! k ∨
        (table (db s') Placeholder !! k = None ∧
         ∃ r pc, table (db s) Placeholder !! k = Some r ∧ pc ∈ l ∧
                 attached env Version ct pc tb0 = [] ∧ attached_to ct r (pk pc))) ∧
  (∀ pc k r, pc ∈ l → attached env Version ct pc tb0 = [] →
             table (db s) Placeholder !! k = Some r → attached_to ct r (pk pc) →
             table (db s') Placeholder !! k = None).
Proof.
  revert acc s. induction l as [|x l IH]; intros acc s Hver; cbn [for_each_acc].
  { intros [= _ <-]. split; [auto|]. intros pc k r Hpc. inversion Hpc. }
  unfold bind.
  destruct (handle_page_content env ct acc x s) as [a1 s1|] eqn:Hx; [|discriminate].
  intros Hrest.
  pose proof (handle_page_content_placeholders_ok acc a1 x s s1 Hver Hx) as Hk.
  destruct (handle_page_content_step env ct acc x s) as (Ho & _).
  rewrite Hx in Ho. simpl in Ho.
  assert (Hver1 : table (db s1) Version = table tb0 Version).
  { rewrite (Ho Version); [exact Hver|]. intros [H|H]; discriminate. }
  destruct (IH a1 s1 Hver1 Hrest) as [HS HL].
  assert (HS' : ∀ k, table (db s') Placeholder !! k = table (db s) Placeholder !! k ∨
            (table (db s') Placeholder !! k = None ∧
             ∃ r pc, table (db s) Placeholder !! k = Some r ∧ pc ∈ x :: l ∧
                     attached env Version ct pc tb0 = [] ∧ attached_to ct r (pk pc))).
  { intros k. specialize (Hk k). destruct (HS k) as [H|[H (r & pc & Hr & Hpc & Hnil & Ha)]].
    - rewrite H, Hk. destruct (decide _) as [[Hnil Hin]|]; [|auto].
      apply elem_of_pk_attached in Hin as (r & Hr & Ha).
      right. split; [reflexivity|]. exists r, x. split; [exact Hr|].
      split; [left|]. auto.
    - right. split; [exact H|]. exists r, pc. rewrite Hr in Hk.
      destruct (decide _); [discriminate|]. split; [auto|]. split; [right; exact Hpc|].
      auto. }
  split; [exact HS'|].
  intros pc k r Hpc Hnil Hr Ha. specialize (Hk k).
  destruct (decide (attached env Version ct x tb0 = [] ∧
                    k ∈ pk <$> attached env Placeholder ct x (db s))) as [Hd|Hd].
  - destruct (HS k) as [H|[H _]]; [rewrite H; exact Hk | exact H].
  - apply elem_of_cons in Hpc as [->|Hpc].
    + exfalso. apply Hd. split; [exact Hnil|]. apply elem_of_pk_attached. eauto.
    + apply (HL pc k r Hpc Hnil); [|exact Ha]. rewrite Hk. exact Hr.
Qed.

Lemma placeholders_step (n : Z) (processed : list Obj) (q : Obj) (s : State)
    (stats1 : Stats) (s1 : State) :
  page_loop_invariant env ct tb0 processed (db s) →
  (∀ q', q' ∈ processed → pk q' ≠ pk q) →
  is_Some (table tb0 Page !! pk q) →
  placeholders_kept ct tb0 (db s) →
  placeholders_gone ct tb0 processed (db s) →
  handle_page env ct (stats_after env ct tb0 n processed) q s = Ok stats1 s1 →
  placeholders_kept ct tb0 (db s1) ∧ placeholders_gone ct tb0 (processed ++ [q]) (db s1).
Proof.
  intros Hinv Hq Hpage Hkept Hgone Hrun.
  destruct (decide (evaluate env (_get_page_contents q) (db s) = [])) as [Horphan|Hne].
  - (* a page without page contents: the placeholders are as they were *)
    destruct (handle_page_orphan_step env ct (stats_after env ct tb0 n processed) q s
                schema Horphan) as [[Ho _] _].
    rewrite Hrun in Ho. simpl in Ho.
    assert (Hsame : table (db s1) Placeholder = table (db s) Placeholder).
    { apply Ho. intros [H|H]; [|discriminate]. apply H.
      unfold cms_tables. rewrite !elem_of_cons. auto. }
    split; [intros k; rewrite Hsame; apply Hkept|].
    intros q' k r kc rc [Hq'|Hq']%elem_of_app Hr Ha Hrc Hp Hnv; rewrite Hsame.
    + eapply Hgone; eassumption.
    + apply list_elem_of_singleton in Hq' as ->. exfalso.
      destruct Hinv as (_ & _ & Hb2 & _).
      apply (proj1 (evaluate_nil_iff env _ _) Horphan {| pk := kc; row := rc |}).
      apply elem_of_page_contents. split; [|exact Hp].
      apply Hb2; [exact Hrc|]. intros q' Hq'. simpl. rewrite Hp. intros [= H].
      exact (Hq q' Hq' (eq_sym H)).
  - (* a page with page contents *)
    destruct Hinv as ((Hver & _) & Hb1 & Hb2 & _).
    rewrite handle_page_contents in Hrun by exact Hne.
    destruct (content_loop_placeholders _ _ _ _ _ Hver Hrun) as [HS HL].
    split.
    + intros k. destruct (HS k) as [H|[H (r & pc & Hr & Hpc & Hnil & Ha)]].
      * rewrite H. apply Hkept.
      * right. split; [exact H|]. exists r. split.
        -- destruct (Hkept k) as [Hk|[Hk _]]; congruence.
        -- apply elem_of_page_contents in Hpc as [Hrow Hp].
           exists (pk pc), (row pc). split; [exact Ha|]. split; [apply Hb1, Hrow|].
           split; [exists (pk q); auto|].
           apply (versions_nil_iff env ct pc tb0). exact Hnil.
    + intros q' k r kc rc [Hq'|Hq']%elem_of_app Hr Ha Hrc Hp Hnv.
      * destruct (HS k) as [H|[H _]]; [|exact H]. rewrite H. eapply Hgone; eassumption.
      * apply list_elem_of_singleton in Hq' as ->.
        destruct (Hkept k) as [Hk|[Hk _]].
        2: { destruct (HS k) as [H|[H _]]; [rewrite H; exact Hk | exact H]. }
        apply (HL {| pk := kc; row := rc |} k r).
        -- apply elem_of_page_contents. split; [|exact Hp].
           apply Hb2; [exact Hrc|]. intros q' Hq'. simpl. rewrite Hp. intros [= H].
           exact (Hq q' Hq' (eq_sym H)).
        -- apply versions_nil_iff. exact Hnv.
        -- rewrite Hk. exact Hr.
        -- exact Ha.
Qed.

Lemma page_loop_placeholders (n : Z) (rest processed : list Obj) (s : State)
    (stats' : Stats) (s' : State) :
  NoDup (pk <$> (processed ++ rest)) →
  (∀ q, q ∈ rest → is_Some (table tb0 Page !! pk q)) →
  page_loop_invariant env ct tb0 processed (db s) →
  placeholders_kept ct tb0 (db s) →
  placeholders_gone ct tb0 processed (db s) →
  for_each_acc rest (handle_page env ct) (stats_after env ct tb0 n processed) s
    = Ok stats' s' →
  placeholders_kept ct tb0 (db s') ∧ placeholders_gone ct tb0 (processed ++ rest) (db s').
Proof.
  revert processed s.
  induction rest as [|q rest IH]; intros processed s Hnd Hpages Hinv Hkept Hgone.
  - simpl. intros [= _ <-]. rewrite app_nil_r. auto.
  - cbn [for_each_acc]. unfold bind.
    assert (Hq : ∀ q', q' ∈ processed → pk q' ≠ pk q).
    { intros q' Hq' Heq. rewrite fmap_app, fmap_cons in Hnd.
      apply NoDup_app in Hnd as (_ & Hdisj & _).
      apply (Hdisj (pk q')); [apply list_elem_of_fmap; eauto|].
      rewrite Heq. left. }
    destruct (page_step env ct tb0 n schema processed q s Hinv Hq) as [_ Hok].
    destruct (handle_page env ct _ q s) as [stats1 s1|] eqn:Hrun; [|discriminate].
    destruct (Hok _ _ eq_refl) as [Hinv1 ->].
    destruct (placeholders_step n processed q s
                (stats_after env ct tb0 n (processed ++ [q])) s1 Hinv Hq)
      as [Hkept1 Hgone1];
      [apply Hpages; left | exact Hkept | exact Hgone | exact Hrun |].
    intros Hrest. specialize (IH (processed ++ [q]) s1).
    rewrite <- app_assoc in IH. simpl in IH. apply IH; try assumption.
    intros q' Hq'. apply Hpages. right. exact Hq'.
Qed.

End Placeholders.

Section PlaceholdersOfHandle.

Variable env : Env.

Hypothesis schema : cms_schema env = true.
Hypothesis deletes_go_through : ∀ m k tb, fault env (InstanceDelete m k) tb = None.

(** X10. The placeholders a run leaves. Under the schema of the CMS, when
    the calls of [delete()] go through and the run returns, a placeholder that
    is there at the end was there at the start, with the same row, and is not
    attached, by [object_id] and [content_type], to a page content of a page
    that has no version. And where [Page] has no one-to-one relation, so that
    no query set is deleted, these are the placeholders left: each of them is
    there at the end. *)
Theorem placeholders_left_are_those_of_the_versioned (st st' : State) (ct : Obj) :
  evaluate env (qfilter [Exact "app_label" (Some (Str "cms"));
                         Exact "model" (Some (Str "pagecontent"))]
                        (all ContentType objects)) (db st) = [ct] →
  handle env st = Ok () st' →
  ∀ k r,
    (table (db st') Placeholder !! k = Some r →
     table (db st) Placeholder !! k = Some r ∧ ¬ of_versionless ct (db st) r) ∧
    ((∀ rel, rel ∈ relations env → one_to_one rel = false) →
     table (db st) Placeholder !! k = Some r → ¬ of_versionless ct (db st) r →
     table (db st') Placeholder !! k = Some r).
Proof.
  intros Hct Hrun.
  rewrite handle_run in Hrun. unfold get in Hrun. rewrite Hct in Hrun.
  destruct (for_each_acc _ (handle_page env ct) _ st) as [stats s|] eqn:Hloop;
    [|discriminate].
  injection Hrun as <-. simpl.
  destruct (page_loop_placeholders env ct (db st) schema deletes_go_through
              (Z.of_nat (length (evaluate env (all Page objects) (db st))))
              (evaluate env (all Page objects) (db st)) [] st stats s)
    as [Hkept Hgone].
  - apply NoDup_pk_evaluate.
  - intros q Hq. apply elem_of_all_pages in Hq. eauto.
  - apply page_loop_invariant_start.
  - intros k. auto.
  - intros q k r kc rc Hq. inversion Hq.
  - exact Hloop.
  - simpl in Hgone. intros k r. split.
    + intros Hr. destruct (Hkept k) as [Hk|[Hk _]]; [|congruence].
      split; [congruence|].
      intros (kc & rc & Ha & Hrc & (p & Hp & [rp Hrp]) & Hnv).
      rewrite (Hgone {| pk := p; row := rp |} k r kc rc) in Hr; try assumption;
        [discriminate | | congruence].
      apply elem_of_all_pages. exact Hrp.
    + intros _ Hr Hnot. destruct (Hkept k) as [Hk|[_ (r' & Hr' & Hd)]]; [congruence|].
      exfalso. apply Hnot. congruence.
Qed.

End PlaceholdersOfHandle.


(** ** The URLs at the end of a run *)

Section Urls.

Variable env : Env.
Variable ct : Obj.
Variable tb0 : Tables.

Hypothesis schema : cms_schema env = true.
Hypothesis sql_goes_through : ∀ sql params tb, fault env (Execute sql params) tb = None.
Hypothesis no_pagefield_of_urls :
  ∀ rel, rel ∈ plugin_relation_models env → model rel ≠ PageUrl.

(** A page without page contents in its turn: its URLs are deleted, and no
    other URL is. *)
Lemma handle_page_orphan_urls (stats stats' : Stats) (page : Obj) (s s' : State) :
  evaluate env (_get_page_contents page) (db s) = [] →
  handle_page env ct stats page s = Ok stats' s' →
  ∀ k, table (db s') PageUrl !! k =
       r ← table (db s) PageUrl !! k;
       if decide (fields r !! "page" = Some (Int (pk page))) then None else Some r.
Proof.
  intros Horphan. rewrite handle_page_orphan by exact Horphan. unfold bind at 1.
  pose proof (fix_page_references_same_outside env page s) as H1.
  destruct (_fix_page_references env page s) as [[] s1|]; [|discriminate].
  unfold bind at 1.
  pose proof (fix_pagefield_references_same_outside env page s1) as H2.
  destruct (_fix_pagefield_references env page s1) as [[] s2|]; [|discriminate].
  simpl in H1, H2.
  assert (Hsame : table (db s2) PageUrl = table (db s) PageUrl).
  { rewrite H2, H1; [reflexivity|tauto|].
    intros (rel & Hrel & Heq). exact (no_pagefield_of_urls rel Hrel (eq_sym Heq)). }
  unfold bind at 1.
  destruct (delete_page_ok env page s2) as (s3 & -> & _ & Hk & _);
    [intros sql tb; apply sql_goes_through|].
  intros [= _ <-] k. rewrite Hk, Hsame. reflexivity.
Qed.

Lemma urls_step (n : Z) (processed : list Obj) (q : Obj) (s : State)
    (stats1 : Stats) (s1 : State) :
  page_loop_invariant env ct tb0 processed (db s) →
  (∀ q', q' ∈ processed → pk q' ≠ pk q) →
  is_Some (table tb0 Page !! pk q) →
  urls_kept tb0 (db s) →
  urls_gone tb0 processed (db s) →
  handle_page env ct (stats_after env ct tb0 n processed) q s = Ok stats1 s1 →
  urls_kept tb0 (db s1) ∧ urls_gone tb0 (processed ++ [q]) (db s1).
Proof.
  intros Hinv Hq Hpage Hkept Hgone Hrun.
  pose proof (contents_as_at_start env ct tb0 processed q (db s) Hinv Hq) as Hperm.
  destruct (decide (evaluate env (_get_page_contents q) (db s) = [])) as [Horphan|Hne].
  - (* a page without page contents *)
    assert (Hno : ¬ has_content tb0 (pk q)).
    { intros Hc. apply (has_content_iff env q tb0) in Hc. apply Hc.
      rewrite Horphan in Hperm. symmetry. apply Permutation_nil_l. exact Hperm. }
    pose proof (handle_page_orphan_urls _ _ q s s1 Horphan Hrun) as Hk.
    split.
    + intros k. rewrite Hk. destruct (Hkept k) as [H|[H Hd]].
      * rewrite H. destruct (table tb0 PageUrl !! k) as [r|] eqn:Hr; [|auto]. simpl.
        destruct (decide _) as [Hp|Hp]; [|auto].
        right. split; [reflexivity|]. exists r. split; [reflexivity|].
        exists (pk q). auto.
      * rewrite H. simpl. auto.
    + intros q' k r [Hq'|Hq']%elem_of_app Hno' Hr Hp; rewrite Hk.
      * rewrite (Hgone q' k r Hq' Hno' Hr Hp). reflexivity.
      * apply list_elem_of_singleton in Hq' as ->.
        destruct (Hkept k) as [H|[H _]]; rewrite H; [|reflexivity].
        rewrite Hr. simpl. rewrite decide_True by exact Hp. reflexivity.
  - (* a page with page contents: the URLs are as they were *)
    destruct Hinv as ((Hver & _) & _).
    destruct (handle_page_contents_step env ct tb0 (stats_after env ct tb0 n processed)
                q s Hver Hne) as (Ho & _).
    rewrite Hrun in Ho. simpl in Ho.
    assert (Hsame : table (db s1) PageUrl = table (db s) PageUrl).
    { apply Ho. intros [H|H]; discriminate. }
    split; [intros k; rewrite Hsame; apply Hkept|].
    intros q' k r [Hq'|Hq']%elem_of_app Hno' Hr Hp; rewrite Hsame.
    + eapply Hgone; eassumption.
    + apply list_elem_of_singleton in Hq' as ->. exfalso. apply Hno'.
      apply (has_content_iff env q tb0). intros Hnil. rewrite Hnil in Hperm.
      apply Permutation_nil_r in Hperm. contradiction.
Qed.

Lemma page_loop_urls (n : Z) (rest processed : list Obj) (s : State)
    (stats' : Stats) (s' : State) :
  NoDup (pk <$> (processed ++ rest)) →
  (∀ q, q ∈ rest → is_Some (table tb0 Page !! pk q)) →
  page_loop_invariant env ct tb0 processed (db s) →
  urls_kept tb0 (db s) →
  urls_gone tb0 processed (db s) →
  for_each_acc rest (handle_page env ct) (stats_after env ct tb0 n processed) s
    = Ok stats' s' →
  urls_kept tb0 (db s') ∧ urls_gone tb0 (processed ++ rest) (db s').
Proof.
  revert processed s.
  induction rest as [|q rest IH]; intros processed s Hnd Hpages Hinv Hkept Hgone.
  - simpl. intros [= _ <-]. rewrite app_nil_r. auto.
  - cbn [for_each_acc]. unfold bind.
    assert (Hq : ∀ q', q' ∈ processed → pk q' ≠ pk q).
    { intros q' Hq' Heq. rewrite fmap_app, fmap_cons in Hnd.
      apply NoDup_app in Hnd as (_ & Hdisj & _).
      apply (Hdisj (pk q')); [apply list_elem_of_fmap; eauto|].
      rewrite Heq. left. }
    destruct (page_step env ct tb0 n schema processed q s Hinv Hq) as [_ Hok].
    destruct (handle_page env ct _ q s) as [stats1 s1|] eqn:Hrun; [|discriminate].
    destruct (Hok _ _ eq_refl) as [Hinv1 ->].
    destruct (urls_step n processed q s
                (stats_after env ct tb0 n (processed ++ [q])) s1 Hinv Hq)
      as [Hkept1 Hgone1];
      [apply Hpages; left | exact Hkept | exact Hgone | exact Hrun |].
    intros Hrest. specialize (IH (processed ++ [q]) s1).
    rewrite <- app_assoc in IH. simpl in IH. apply IH; try assumption.
    intros q' Hq'. apply Hpages. right. exact Hq'.
Qed.

End Urls.

Section UrlsOfHandle.

Variable env : Env.

Hypothesis schema : cms_schema env = true.
Hypothesis sql_goes_through : ∀ sql params tb, fault env (Execute sql params) tb = None.
Hypothesis no_pagefield_of_urls :
  ∀ rel, rel ∈ plugin_relation_models env → model rel ≠ PageUrl.

(** X11. The URLs a run leaves. Under the schema of the CMS, with no
    [PageField] among the fields of [PageUrl], when the raw SQL goes through
    and the run returns, a URL is there at the end exactly when it was there
    at the start and is not the URL of a page without page contents: the
    URLs are deleted with their pages, and no other URL is deleted or
    changed. *)
Theorem urls_left_are_those_of_the_pages_left (st st' : State) :
  handle env st = Ok () st' →
  ∀ k r, table (db st') PageUrl !! k = Some r ↔
         table (db st) PageUrl !! k = Some r ∧ ¬ of_an_orphan (db st) r.
Proof.
  intros Hrun.
  rewrite handle_run in Hrun.
  destruct (get env _ st) as [ct s|] eqn:Hget; [|discriminate].
  apply get_ok in Hget as [-> _].
  destruct (for_each_acc _ (handle_page env ct) _ st) as [stats s|] eqn:Hloop;
    [|discriminate].
  injection Hrun as <-. simpl.
  destruct (page_loop_urls env ct (db st) schema sql_goes_through no_pagefield_of_urls
              (Z.of_nat (length (evaluate env (all Page objects) (db st))))
              (evaluate env (all Page objects) (db st)) [] st stats s)
    as [Hkept Hgone].
  - apply NoDup_pk_evaluate.
  - intros q Hq. apply elem_of_all_pages in Hq. eauto.
  - apply page_loop_invariant_start.
  - intros k. auto.
  - intros q k r Hq. inversion Hq.
  - exact Hloop.
  - simpl in Hgone. intros k r. split.
    + intros Hr. destruct (Hkept k) as [Hk|[Hk _]]; [|congruence].
      split; [congruence|].
      intros (p & Hp & [rp Hrp] & Hno).
      rewrite (Hgone {| pk := p; row := rp |} k r) in Hr; try assumption;
        [discriminate | | congruence].
      apply elem_of_all_pages. exact Hrp.
    + intros [Hr Hnot]. destruct (Hkept k) as [Hk|[_ (r' & Hr' & Hd)]]; [congruence|].
      exfalso. apply Hnot. congruence.
Qed.

End UrlsOfHandle.

(** ** Running the command again *)

Section Again.

Variable env : Env.

Hypothesis schema : cms_schema env = true.
Hypothesis deletes_go_through : ∀ m k tb, fault env (InstanceDelete m k) tb = None.

(** X12. Running the command again. Under the schema of the CMS, when the
    calls of [delete()] go through and a run returns leaving no page without
    a page content, a second run has nothing to do: it makes no call that
    writes, leaves the tables as they are and logs statistics with no page
    and no page content deleted. *)
Theorem second_run_changes_nothing (st st' : State) (ct : Obj) :
  evaluate env (qfilter [Exact "app_label" (Some (Str "cms"));
                         Exact "model" (Some (Str "pagecontent"))]
                        (all ContentType objects)) (db st) = [ct] →
  handle env st = Ok () st' →
  (∀ p, is_Some (table (db st') Page !! p) → has_content (db st') p) →
  ∃ stats,
    handle env st' =
      Ok () {| db := db st';
               log := log st' ++ [{| level := INFO; msg := "Stats: %s";
                                     args := [AStats stats] |}] |} ∧
    page_count stats = Z.of_nat (size (table (db st') Page)) ∧
    page_deleted stats = 0 ∧ pagecontents_deleted stats = 0.
Proof.
  intros Hct Hrun Hcontent.
  destruct (handle_versionless_gone env schema deletes_go_through st st' ct Hct Hrun)
    as [Hinv Hgone].
  destruct Hinv as ((Hver & Hcts & _ & _ & Hpages) & Hb1 & _).
  assert (Hct' : evaluate env (qfilter [Exact "app_label" (Some (Str "cms"));
                                        Exact "model" (Some (Str "pagecontent"))]
                                       (all ContentType objects)) (db st') = [ct]).
  { rewrite (evaluate_objects_ext env ContentType _ (db st) (db st'));
      [exact Hct | discriminate | exact Hcts]. }
  rewrite handle_run. unfold get. rewrite Hct'.
  rewrite page_loop_clean.
  - eexists. split; [reflexivity|]. simpl.
    rewrite all_pages, length_instances. auto.
  - intros page Hpage. apply elem_of_all_pages in Hpage. split.
    + apply has_content_iff, Hcontent. eauto.
    + intros pc Hpc. apply elem_of_page_contents in Hpc as [Hrow Hfield].
      rewrite (attached_ext env Version ct pc (db st) (db st'))
        by (discriminate || exact Hver).
      intros Hnil. apply versions_nil_iff in Hnil.
      assert (Hpage0 : table (db st) Page !! pk page = Some (row page)).
      { destruct (Hpages (pk page)) as [H|H]; congruence. }
      rewrite (Hgone (pk pc) (row pc) page) in Hrow; try assumption; [discriminate| |].
      * apply elem_of_all_pages. exact Hpage0.
      * apply Hb1. exact Hrow.
Qed.

End Again.

(** ** What the treatment of a page without page contents logs *)

Section OrphanLog.

Variable env : Env.

Hypothesis schema : cms_schema env = true.

(** X13. The records of a page without page contents. Under the schema of
    the CMS, when the treatment of such a page returns it has logged, in this
    order, that the references and the [PageField] references are fixed, both
    times from the page to the same replacement page (the one sibling of the
    page when its turn begins), and that the page is deleted; one record of
    an error follows when a [ProtectedError] was swallowed, and nothing else
    is logged. *)
Theorem orphan_is_logged (ct : Obj) (stats stats' : Stats) (page : Obj) (st st' : State) :
  evaluate env (_get_page_contents page) (db st) = [] →
  handle_page env ct stats page st = Ok stats' st' →
  ∃ replacement_page tail,
    siblings page (db st) = [replacement_page] ∧
    log st' =
      log st ++
      [ {| level := INFO; msg := "Fixing reference from Page %s to %s";
           args := [AInt (pk page); AInt (pk replacement_page)] |};
        {| level := INFO; msg := "Fixing PageField references from Page %s to %s";
           args := [AInt (pk page); AInt (pk replacement_page)] |};
        {| level := INFO; msg := "Deleting Page %s"; args := [AInt (pk page)] |} ]
      ++ tail ∧
    (tail = [] ∧ table (db st') Page !! pk page = None ∨
     tail = [{| level := ERROR; msg := "Couldn't delete Page %s %s";
                args := [AInt (pk page); AExn ProtectedError] |}] ∧
     table (db st') Page = table (db st) Page).
Proof.
  intros Horphan. rewrite handle_page_orphan by exact Horphan. unfold bind at 1.
  pose proof (fix_page_references_cms env page st schema Horphan) as Hcms1.
  destruct (_fix_page_references env page st) as [[] s1|] eqn:H1; [|discriminate].
  unfold bind at 1.
  pose proof (fix_pagefield_references_cms env page s1 schema) as Hcms2.
  destruct (_fix_pagefield_references env page s1) as [[] s2|] eqn:H2; [|discriminate].
  simpl in Hcms1, Hcms2.
  assert (Hpage1 : table (db s1) Page = table (db st) Page).
  { apply Hcms1. intros H. apply H. apply Page_in_cms. }
  assert (Hpage2 : table (db s2) Page = table (db st) Page).
  { rewrite <- Hpage1. apply Hcms2. intros H. apply H. apply Page_in_cms. }
  (* the first record *)
  rewrite fix_page_references_run, get_replacement_page_run in H1.
  destruct (siblings page (db st)) as [|repl [|? ?]] eqn:Hsib; try discriminate.
  unfold bind at 1, logger_info, emit in H1.
  apply for_each_keeps_log in H1; [|intros rel s s'; apply fix_relation_log].
  simpl in H1.
  (* the second record: the sibling is the same *)
  rewrite fix_pagefield_references_run, get_replacement_page_run in H2.
  rewrite (siblings_ext page (db st) (db s1) Hpage1), Hsib in H2.
  unfold bind at 1, logger_info, emit in H2.
  apply for_each_keeps_log in H2.
  2: { intros rel s s' [_ ->]%write_ok. reflexivity. }
  simpl in H2.
  (* the deletion *)
  unfold bind at 1. rewrite delete_page_run. cbv zeta.
  destruct (fault env (Execute "DELETE FROM cms_pageurl WHERE page_id = %s" _) (db s2))
    as [[]|]; try discriminate.
  { intros [= _ <-]. exists repl. eexists. split; [reflexivity|]. simpl. rewrite H2, H1.
    split; [rewrite <- !app_assoc; reflexivity|]. right. auto. }
  destruct (fault env (Execute "DELETE FROM cms_page WHERE id = %s" _) _)
    as [[]|]; try discriminate.
  { intros [= _ <-]. exists repl. eexists. split; [reflexivity|]. simpl. rewrite H2, H1.
    split; [rewrite <- !app_assoc; reflexivity|]. right. split; [reflexivity|].
    unfold delete_keys. rewrite table_insert_ne by discriminate. exact Hpage2. }
  intros [= _ <-]. exists repl, []. split; [reflexivity|]. simpl. rewrite H2, H1.
  split; [rewrite <- !app_assoc; reflexivity|]. left. split; [reflexivity|].
  rewrite table_delete_keys. rewrite decide_True by (split; [reflexivity | left]).
  reflexivity.
Qed.

End OrphanLog.


(** ** A page content that cannot be deleted *)

Section Protected.

Variable env : Env.

(** X14. A page content that cannot be deleted loses its placeholders. When
    a page content has no version, the [delete()] of its placeholders goes
    through and its own [delete()] raises [ProtectedError], the treatment of
    the page content returns with the placeholders deleted and the page
    content still there, unchanged; the error is the last record logged, and
    the page content is counted as deleted. *)
Theorem protected_page_content_loses_placeholders (ct : Obj) (stats : Stats) (pc : Obj)
    (st : State) :
  attached env Version ct pc (db st) = [] →
  (∀ k tb, fault env (InstanceDelete Placeholder k) tb = None) →
  (∀ tb, fault env (InstanceDelete PageContent (pk pc)) tb = Some ProtectedError) →
  ∃ st' l,
    handle_page_content env ct stats pc st = Ok (add_pagecontents_deleted stats) st' ∧
    table (db st') PageContent = table (db st) PageContent ∧
    (∀ k, table (db st') Placeholder !! k =
          if decide (k ∈ pk <$> attached env Placeholder ct pc (db st)) then None
          else table (db st) Placeholder !! k) ∧
    attached env Placeholder ct pc (db st') = [] ∧
    log st' = l ++ [{| level := ERROR; msg := "Couldn't delete PageContent %s %s";
                       args := [AInt (pk pc); AExn ProtectedError] |}].
Proof.
  intros Hnil Hph Hpc. rewrite handle_page_content_run.
  rewrite decide_True by exact Hnil. unfold bind at 1.
  destruct (for_each_delete_placeholder_ok env (attached env Placeholder ct pc (db st)) st)
    as (s1 & -> & Hk & Ho); [exact Hph|].
  unfold bind at 1. rewrite delete_page_content_run. cbv zeta. rewrite Hpc.
  eexists _, _. split; [reflexivity|]. simpl.
  split; [apply Ho; discriminate|]. split; [exact Hk|]. split; [|reflexivity].
  apply evaluate_nil_iff. intros obj Hobj.
  pose proof Hobj as Hobj'. apply elem_of_attached in Hobj' as [Hrow Ha]; [|discriminate].
  rewrite Hk in Hrow. destruct (decide _) as [Hin|Hin]; [discriminate|].
  apply Hin. apply list_elem_of_fmap. exists obj. split; [reflexivity|].
  apply elem_of_attached; [discriminate|]. auto.
Qed.

End Protected.

(** ** When the run returns *)

Lemma elem_of_siblings (page obj : Obj) (tb : Tables) :
  obj ∈ siblings page tb ↔
  table tb Page !! pk obj = Some (row obj) ∧
  getattr obj "node_id" = getattr page "node_id" ∧ pk obj ≠ pk page.
Proof.
  unfold siblings. rewrite list_elem_of_filter, elem_of_instances. tauto.
Qed.

Section Turns.

Variable env : Env.
Variable ct : Obj.
Variable tb0 : Tables.
Variable n : Z.

Hypothesis schema : cms_schema env = true.
Hypothesis calls_go_through : ∀ c tb, fault env c tb = None.

(** The rows of the pages that the loop has not come to are as they were. *)
Lemma unprocessed_rows (l : list Obj) (acc acc' : Stats) (s s' : State) (p : Z) :
  for_each_acc l (handle_page env ct) acc s = Ok acc' s' →
  p ∉ pk <$> l →
  table (db s') Page !! p = table (db s) Page !! p.
Proof.
  revert acc s. induction l as [|x l IH]; intros acc s; cbn [for_each_acc].
  - intros [= _ <-] _. reflexivity.
  - unfold bind.
    destruct (handle_page env ct acc x s) as [a1 s1|] eqn:Hx; [|discriminate].
    intros Hrest Hp. rewrite fmap_cons, not_elem_of_cons in Hp. destruct Hp as [Hne Hp].
    rewrite (IH a1 s1 Hrest Hp).
    destruct (decide (evaluate env (_get_page_contents x) (db s) = [])) as [Horphan|Hcont].
    + destruct (handle_page_orphan_step env ct acc x s schema Horphan) as [Hrow _].
      rewrite Hx in Hrow. simpl in Hrow.
      apply (only_page_row_other x s s1 p Hrow Hne).
    + destruct (handle_page_contents_step env ct (db s) acc x s eq_refl Hcont) as (Ho & _).
      rewrite Hx in Ho. simpl in Ho.
      rewrite (Ho Page); [reflexivity|]. intros [H|H]; discriminate.
Qed.

(** The table of pages when the loop has done with the pages [pre]. *)
Lemma pages_after (pre rest : list Obj) (st s : State) (stats : Stats) :
  db st = tb0 →
  NoDup (pk <$> (pre ++ rest)) →
  for_each_acc pre (handle_page env ct) (stats_after env ct tb0 n []) st = Ok stats s →
  page_loop_invariant env ct tb0 pre (db s) ∧
  stats = stats_after env ct tb0 n pre ∧
  ∀ p, (deleted_in env tb0 pre p → table (db s) Page !! p = None) ∧
       (¬ deleted_in env tb0 pre p → table (db s) Page !! p = table tb0 Page !! p).
Proof.
  intros Hdb Hnd Hrun.
  pose proof (page_loop env ct tb0 n schema pre [] st) as Hloop.
  simpl in Hloop. rewrite Hrun in Hloop.
  destruct Hloop as [Hinv ->].
  { rewrite fmap_app in Hnd. apply NoDup_app in Hnd. apply Hnd. }
  { rewrite Hdb. apply page_loop_invariant_start. }
  split; [exact Hinv|]. split; [reflexivity|].
  destruct Hinv as ((_ & _ & _ & Hd & _) & _ & _ & Hdel).
  intros p. split.
  - intros (obj & Hobj & <- & Horphan). apply Hdel; [|exact Hobj|exact Horphan].
    intros sql params tb. rewrite calls_go_through. discriminate.
  - intros Hnot. destruct (decide (p ∈ pk <$> pre)) as [Hin|Hnin].
    + apply list_elem_of_fmap in Hin as (obj & -> & Hobj). apply Hd.
      apply (has_content_iff env obj tb0). intros Hnil. apply Hnot. exists obj. auto.
    + rewrite <- Hdb. eapply unprocessed_rows; eassumption.
Qed.

(** The treatment of a page without page contents returns only when the page
    has one sibling. *)
Lemma orphan_turn (q : Obj) (s : State) (stats stats1 : Stats) (s1 : State) :
  evaluate env (_get_page_contents q) (db s) = [] →
  handle_page env ct stats q s = Ok stats1 s1 →
  ∃ r, siblings q (db s) = [r].
Proof.
  intros Horphan. rewrite handle_page_orphan by exact Horphan. unfold bind at 1.
  rewrite fix_page_references_run, get_replacement_page_run.
  destruct (siblings q (db s)) as [|r [|? ?]]; try discriminate. eauto.
Qed.

End Turns.

Section WhenItReturns.

Variable env : Env.

Hypothesis schema : cms_schema env = true.
Hypothesis calls_go_through : ∀ c tb, fault env c tb = None.

(** The turn of a page of a run that returns: the pages before it are done
    with, and its own treatment returns. *)
Lemma turn_of (ct : Obj) (st : State) (stats' : Stats) (s' : State) (q : Obj)
    (pre post : list Obj) :
  let tb0 := db st in
  let n := Z.of_nat (length (pre ++ q :: post)) in
  NoDup (pk <$> (pre ++ q :: post)) →
  for_each_acc (pre ++ q :: post) (handle_page env ct) (stats_after env ct tb0 n []) st
    = Ok stats' s' →
  ∃ s stats1 s1,
    handle_page env ct (stats_after env ct tb0 n pre) q s = Ok stats1 s1 ∧
    evaluate env (_get_page_contents q) (db s) ≡ₚ evaluate env (_get_page_contents q) tb0 ∧
    ∀ p, (deleted_in env tb0 pre p → table (db s) Page !! p = None) ∧
         (¬ deleted_in env tb0 pre p → table (db s) Page !! p = table tb0 Page !! p).
Proof.
  intros tb0 n Hnd Hrun. rewrite for_each_acc_app in Hrun.
  destruct (for_each_acc pre _ _ st) as [stats s|] eqn:Hpre; [|discriminate].
  destruct (pages_after env ct tb0 n schema calls_go_through pre (q :: post) st s stats
              eq_refl Hnd Hpre) as (Hinv & -> & Hpages).
  cbn [for_each_acc] in Hrun. unfold bind at 1 in Hrun.
  destruct (handle_page env ct _ q s) as [stats1 s1|] eqn:Hq; [|discriminate].
  exists s, stats1, s1. split; [exact Hq|]. split; [|exact Hpages].
  apply (contents_as_at_start env ct tb0 pre q (db s) Hinv).
  intros q' Hq' Heq. rewrite fmap_app, fmap_cons in Hnd.
  apply NoDup_app in Hnd as (_ & Hdisj & _).
  apply (Hdisj (pk q')); [apply list_elem_of_fmap; eauto|]. rewrite Heq. left.
Qed.

(** In a run that returns every page without page contents has one sibling,
    and this sibling has page contents. *)
Lemma orphans_of_a_run_that_returns (ct : Obj) (st : State) (stats' : Stats) (s' : State)
    (q : Obj) :
  let pages := evaluate env (all Page objects) (db st) in
  for_each_acc pages (handle_page env ct)
    (stats_after env ct (db st) (Z.of_nat (length pages)) []) st = Ok stats' s' →
  q ∈ pages →
  evaluate env (_get_page_contents q) (db st) = [] →
  ∃ r, siblings q (db st) = [r] ∧ has_content (db st) (pk r).
Proof.
  intros pages Hrun Hq Horphan.
  assert (Hnd : NoDup (pk <$> pages)) by apply NoDup_pk_evaluate.
  assert (Hpage : ∀ obj, obj ∈ pages ↔ table (db st) Page !! pk obj = Some (row obj)).
  { intros obj. apply elem_of_all_pages. }
  (* an orphan that the loop is done with is deleted, another page is there *)
  assert (Hgone : ∀ pre obj p, obj ∈ pre → pk obj = p →
            evaluate env (_get_page_contents obj) (db st) = [] →
            deleted_in env (db st) pre p) by (intros pre obj p; exists obj; auto).
  assert (Hthere : ∀ pre post x obj, pages = pre ++ x :: post → obj ∈ pages →
            (obj ∈ pre → evaluate env (_get_page_contents obj) (db st) ≠ []) →
            ¬ deleted_in env (db st) pre (pk obj)).
  { intros pre post x obj Hl Hobj Hcont (obj' & Hobj' & Hpk & Hnil).
    assert (obj' = obj) as ->.
    { unfold pages in *. rewrite all_pages in Hobj, Hl.
      apply (instances_pk_inj (table (db st) Page)); [|exact Hobj|exact Hpk].
      rewrite Hl. apply elem_of_app. auto. }
    exact (Hcont Hobj' Hnil). }
  (* the turn of [q] *)
  pose proof Hq as Hsplit. apply list_elem_of_split in Hsplit as (pre & post & Hl).
  pose proof Hrun as Hrun'. pose proof Hnd as Hnd'. rewrite Hl in Hrun', Hnd'.
  destruct (turn_of ct st stats' s' q pre post Hnd' Hrun')
    as (s & stats1 & s1 & Hturn & Hperm & Hpages).
  assert (Horphan_s : evaluate env (_get_page_contents q) (db s) = []).
  { rewrite Horphan in Hperm. apply Permutation_nil_r. exact Hperm. }
  destruct (orphan_turn env ct q s _ stats1 s1 Horphan_s Hturn) as [r Hr].
  assert (Hq_pre : q ∉ pre).
  { intros Hin. rewrite fmap_app, fmap_cons in Hnd'.
    apply NoDup_app in Hnd' as (_ & Hdisj & _).
    apply (Hdisj (pk q)); [apply list_elem_of_fmap; eauto | left]. }
  assert (Hrin : r ∈ siblings q (db s)) by (rewrite Hr; left).
  apply elem_of_siblings in Hrin as (Hrrow & Hrnode & Hrne).
  assert (Hr_not : ¬ deleted_in env (db st) pre (pk r)).
  { intros Hd. rewrite (proj1 (Hpages (pk r)) Hd) in Hrrow. discriminate. }
  assert (Hrrow0 : table (db st) Page !! pk r = Some (row r)).
  { rewrite <- (proj2 (Hpages (pk r)) Hr_not). exact Hrrow. }
  assert (Hr_pre : r ∉ pre ∨ evaluate env (_get_page_contents r) (db st) ≠ []).
  { destruct (decide (evaluate env (_get_page_contents r) (db st) = [])) as [Hnil|]; [|auto].
    left. intros Hin. apply Hr_not. eauto. }
  (* the sibling has page contents: otherwise its own turn comes later, when
     [q] is gone, and then it has no sibling *)
  assert (Hcont : evaluate env (_get_page_contents r) (db st) ≠ []).
  { intros Hnil. destruct Hr_pre as [Hr_pre|]; [|contradiction].
    assert (Hr_post : r ∈ post).
    { assert (Hin : r ∈ pages) by (apply Hpage; exact Hrrow0).
      rewrite Hl in Hin. apply elem_of_app in Hin as [Hin|Hin]; [contradiction|].
      apply elem_of_cons in Hin as [->|Hin]; [contradiction | exact Hin]. }
    apply list_elem_of_split in Hr_post as (mid & post' & Hpost).
    assert (Hl' : pages = (pre ++ q :: mid) ++ r :: post').
    { rewrite Hl, Hpost, <- app_assoc. reflexivity. }
    pose proof Hrun as Hrun''. pose proof Hnd as Hnd''. rewrite Hl' in Hrun'', Hnd''.
    destruct (turn_of ct st stats' s' r (pre ++ q :: mid) post' Hnd'' Hrun'')
      as (sr & statsr & sr1 & Hturn_r & Hperm_r & Hpages_r).
    assert (Horphan_r : evaluate env (_get_page_contents r) (db sr) = []).
    { rewrite Hnil in Hperm_r. apply Permutation_nil_r. exact Hperm_r. }
    destruct (orphan_turn env ct r sr _ statsr sr1 Horphan_r Hturn_r) as [x Hx].
    assert (Hxin : x ∈ siblings r (db sr)) by (rewrite Hx; left).
    apply elem_of_siblings in Hxin as (Hxrow & Hxnode & Hxne).
    assert (Hx_not : ¬ deleted_in env (db st) (pre ++ q :: mid) (pk x)).
    { intros Hd. rewrite (proj1 (Hpages_r (pk x)) Hd) in Hxrow. discriminate. }
    assert (Hxq : pk x ≠ pk q).
    { intros Heq. apply Hx_not. exists q. split; [|auto].
      apply elem_of_app. right. left. }
    assert (Hx_in_s : x ∈ siblings q (db s)).
    { apply elem_of_siblings. split; [|split; [congruence | exact Hxq]].
      rewrite (proj2 (Hpages (pk x))).
      - rewrite <- (proj2 (Hpages_r (pk x)) Hx_not). exact Hxrow.
      - intros (obj & Hobj & Hpk & Hnil'). apply Hx_not. exists obj.
        split; [apply elem_of_app; auto | auto]. }
    rewrite Hr in Hx_in_s. apply list_elem_of_singleton in Hx_in_s. congruence. }
  exists r. split; [|exact (proj1 (has_content_iff env r (db st)) Hcont)].
  (* and it is the only sibling there was *)
  apply Permutation_singleton_r, NoDup_Permutation.
  { eapply NoDup_fmap_1, NoDup_pk_filter, NoDup_pk_instances. }
  { apply NoDup_singleton. }
  intros obj. rewrite list_elem_of_singleton. split.
  2: { intros ->. apply elem_of_siblings. auto. }
  intros (Horow & Honode & Hone)%elem_of_siblings.
  assert (Hobj : obj ∈ pages) by (apply Hpage; exact Horow).
  destruct (decide (obj ∈ pre ∧ evaluate env (_get_page_contents obj) (db st) = []))
    as [[Hopre Honil]|Hno].
  2: { (* [obj] is there at the turn of [q] *)
    assert (Hin : obj ∈ siblings q (db s)).
    { apply elem_of_siblings. split; [|auto].
      rewrite (proj2 (Hpages (pk obj))); [exact Horow|].
      apply (Hthere pre post q obj Hl Hobj). intros Hin Hnil. apply Hno. auto. }
    rewrite Hr in Hin. apply list_elem_of_singleton in Hin. exact Hin. }
  (* [obj] had its turn before [q]: then [q] and [r] were both its siblings *)
  exfalso. apply list_elem_of_split in Hopre as (pre' & mid & Hpre).
  assert (Hl' : pages = pre' ++ obj :: (mid ++ q :: post)).
  { rewrite Hl, Hpre, <- app_assoc. reflexivity. }
  pose proof Hrun as Hrun''. pose proof Hnd as Hnd''. rewrite Hl' in Hrun'', Hnd''.
  destruct (turn_of ct st stats' s' obj pre' (mid ++ q :: post) Hnd'' Hrun'')
    as (so & statso & so1 & Hturn_o & Hperm_o & Hpages_o).
  assert (Horphan_o : evaluate env (_get_page_contents obj) (db so) = []).
  { rewrite Honil in Hperm_o. apply Permutation_nil_r. exact Hperm_o. }
  destruct (orphan_turn env ct obj so _ statso so1 Horphan_o Hturn_o) as [x Hx].
  assert (Hsub : ∀ p, deleted_in env (db st) pre' p → deleted_in env (db st) pre p).
  { intros p (o & Ho & Hpk & Hnil'). exists o. split; [|auto].
    rewrite Hpre. apply elem_of_app. auto. }
  assert (Hq_in : q ∈ siblings obj (db so)).
  { apply elem_of_siblings. split; [|split; [congruence | congruence]].
    rewrite (proj2 (Hpages_o (pk q))); [apply Hpage, Hq|].
    intros Hd. apply Hsub in Hd. destruct Hd as (o & Ho & Hpk & _).
    assert (o = q) as ->.
    { unfold pages in *. rewrite all_pages in Hq, Hl.
      apply (instances_pk_inj (table (db st) Page)); [|exact Hq|exact Hpk].
      rewrite Hl. apply elem_of_app. auto. }
    contradiction. }
  assert (Hr_in : r ∈ siblings obj (db so)).
  { apply elem_of_siblings. split; [|split; [congruence|]].
    - rewrite (proj2 (Hpages_o (pk r))); [exact Hrrow0|].
      intros Hd. apply Hr_not, Hsub, Hd.
    - intros Heq. apply Hr_not. exists obj. split; [|auto].
      rewrite Hpre. apply elem_of_app. right. left. }
  rewrite Hx in Hq_in, Hr_in.
  apply list_elem_of_singleton in Hq_in, Hr_in. congruence.
Qed.

(** X15. When the run returns. Under the schema of the CMS, with the content
    type of [PageContent] there and the calls to the database going through,
    the run returns exactly when every page without page contents has one
    sibling, and that sibling has page contents. So the run does not return
    when two pages without page contents share a node, whatever else there
    is on the node. *)
Theorem run_returns_iff (st : State) (ct : Obj) :
  evaluate env (qfilter [Exact "app_label" (Some (Str "cms"));
                         Exact "model" (Some (Str "pagecontent"))]
                        (all ContentType objects)) (db st) = [ct] →
  (∃ st', handle env st = Ok () st') ↔
  (∀ page, page ∈ evaluate env (all Page objects) (db st) →
           evaluate env (_get_page_contents page) (db st) = [] →
           ∃ r, siblings page (db st) = [r] ∧ has_content (db st) (pk r)).
Proof.
  intros Hct. split.
  - intros [st' Hrun] page Hpage Horphan.
    rewrite handle_run in Hrun. unfold get in Hrun. rewrite Hct in Hrun.
    destruct (for_each_acc _ (handle_page env ct) _ st) as [stats s|] eqn:Hloop;
      [|discriminate].
    exact (orphans_of_a_run_that_returns ct st stats s page Hloop Hpage Horphan).
  - intros Hsib. apply (handle_returns env schema) with (ct := ct); [|exact Hct|exact Hsib].
    intros c tb e He. rewrite calls_go_through in He. discriminate.
Qed.

End WhenItReturns.

(** * The properties on the site *)

Lemma site_has_cms_schema : cms_schema site = true.
Proof. reflexivity. Qed.

Lemma site_calls_go_through (c : Call) (tb : Tables) : fault site c tb = None.
Proof. reflexivity. Qed.

(** On the site, page 2, which has page content 5, is kept and page 1, which
    has no page content, is deleted. *)
Lemma page_deleted_iff_no_page_content_witness :
  table (db (final (handle site site_state))) Page !! 2 = table site_tables Page !! 2 ∧
  (table (db (final (handle site site_state))) Page !! 1 = None ↔
   ¬ has_content site_tables 1).
Proof.
  destruct (page_deleted_iff_no_page_content site site_state eq_refl)
    as (_ & _ & Hkept & Hgone & _).
  split.
  - apply Hkept. exists 5, (row page_content_5). split; reflexivity.
  - apply Hgone.
    + intros sql params tb. discriminate.
    + vm_compute. reflexivity.
    + exists (row page_1). reflexivity.
Defined.

(** On the site the replacement of page 1 is page 2; on the lonely site, where
    page 4 has no sibling, the command ends with [DoesNotExist]. *)
Lemma replacement_page_is_the_unique_sibling_witness :
  _get_replacement_page site page_1 site_state = Ok page_2 site_state ∧
  handle site lonely_state = Raise DoesNotExist lonely_state.
Proof.
  split.
  - pose proof (replacement_page_is_the_unique_sibling site page_1 content_type_7
                  (initial_stats 3) site_state) as H.
    assert (Hs : siblings page_1 (db site_state) = [page_2]) by (vm_compute; reflexivity).
    rewrite Hs in H. apply H.
  - pose proof (replacement_page_is_the_unique_sibling site page_4 content_type_7
                  (initial_stats 1) lonely_state) as H.
    assert (Hs : siblings page_4 (db lonely_state) = []) by (vm_compute; reflexivity).
    rewrite Hs in H. destruct H as (_ & _ & H).
    destruct H as [_ H]; [vm_compute; reflexivity|].
    apply (H lonely_state [] []); vm_compute; reflexivity.
Defined.


(** On the site whose page contents are protected, the [ProtectedError] of the
    [delete()] of page content 5 does not end the run: the run returns, and
    does the same where nothing but [ProtectedError] is raised. *)
Lemma only_ProtectedError_is_caught_witness :
  (∀ e st', handle protecting_site site_state = Raise e st' →
            e = DoesNotExist ∨ e = MultipleObjectsReturned) ∧
  handle (only_protected protecting_site) site_state =
    Ok () (final (handle protecting_site site_state)).
Proof.
  destruct (only_ProtectedError_is_caught protecting_site site_state)
    as (_ & _ & _ & Hsame & Hcaught).
  split.
  - apply Hcaught. intros c tb e. destruct c; simpl; try discriminate.
    destruct (bool_decide (m = PageContent)); [|discriminate].
    intros [= <-]. auto.
  - apply Hsame. vm_compute. reflexivity.
Defined.


(** On the site, the link plugin that referred to page 1 refers to page 2
    after [_fix_pagefield_references], and [_delete_page] deletes page 1 and
    its URL 11. *)
Lemma pagefield_references_then_raw_delete_witness :
  points_to (db (final (_fix_pagefield_references site page_1 site_state)))
            Link 95 "internal_link" 2 ∧
  ∃ st', _delete_page site page_1 site_state = Ok () st' ∧
         table (db st') Page !! 1 = None ∧
         table (db st') PageUrl !! 11 = None ∧
         table (db st') PageUrl !! 12 = table site_tables PageUrl !! 12.
Proof.
  destruct (pagefield_references_then_raw_delete site page_1 site_state)
    as (Hpf & _ & _ & _ & Hdel & _).
  split.
  - destruct (Hpf (final (_fix_pagefield_references site page_1 site_state)))
      as (repl & Hrepl & Hall); [vm_compute; reflexivity|].
    assert (Hs : siblings page_1 (db site_state) = [page_2]) by (vm_compute; reflexivity).
    rewrite Hs in Hrepl. injection Hrepl as <-.
    apply (Hall link_field 95 (make_row [("internal_link", Int 1)] [])).
    + simpl. unfold site_relation_tree. rewrite !elem_of_cons. tauto.
    + reflexivity.
    + discriminate.
    + reflexivity.
    + reflexivity.
  - destruct Hdel as (st' & Hrun & Hpage & Hurl & _); [reflexivity|].
    exists st'. split; [exact Hrun|]. split; [|split].
    + rewrite Hpage. apply lookup_delete_eq.
    + rewrite (Hurl 11). vm_compute. reflexivity.
    + rewrite (Hurl 12). vm_compute. reflexivity.
Defined.

(** On the site the run logs the statistics: three pages, one of them deleted,
    two page contents, one of them deleted. *)
Lemma stats_logged_at_end_witness :
  ∃ st' l,
    handle site site_state = Ok () st' ∧
    log st' = l ++ [{| level := INFO; msg := "Stats: %s";
                       args := [AStats {| page_count := 3; page_deleted := 1;
                                          pagecontents_count := 2;
                                          pagecontents_deleted := 1 |}] |}].
Proof.
  assert (He : expected_stats site content_type_7 (db site_state) =
               {| page_count := 3; page_deleted := 1;
                  pagecontents_count := 2; pagecontents_deleted := 1 |})
    by (vm_compute; reflexivity).
  rewrite <- He.
  apply (proj2 (stats_logged_at_end site site_state) eq_refl).
  - intros c tb e. discriminate.
  - vm_compute. reflexivity.
  - intros page Hin Horphan.
    assert (Hpages : evaluate site (all Page objects) (db site_state) =
                     [ {| pk := 3; row := make_row [("node_id", Int 11)] [] |};
                       page_2; page_1 ]) by (vm_compute; reflexivity).
    rewrite Hpages in Hin. rewrite !elem_of_cons, elem_of_nil in Hin.
    destruct Hin as [->|[->|[->|[]]]]; try (vm_compute in Horphan; discriminate).
    exists page_2. split; [vm_compute; reflexivity|].
    exists 5, (row page_content_5). split; reflexivity.
Defined.

(** On the site no page content is published, and page 2 is kept for its page
    content 5, which the default manager does not return. *)
Lemma hidden_page_content_keeps_page_witness :
  evaluate site (qfilter [Exact "page" (ref page_2)] (all PageContent objects)) site_tables
    = [] ∧
  table (db (final (handle_page site content_type_7 (initial_stats 3) page_2 site_state)))
        Page = table site_tables Page.
Proof.
  split; [vm_compute; reflexivity|].
  apply (hidden_page_content_keeps_page site content_type_7 (initial_stats 3) page_2
           site_state 5 (row page_content_5)).
  - reflexivity.
  - reflexivity.
  - vm_compute. reflexivity.
Defined.


(** On the site, whatever page content or placeholder is there when the run
    ends was there, the same, when it started. *)
Lemma own_rows_are_deleted_never_changed_witness :
  (∀ k r, table (db (final (handle site site_state))) PageContent !! k = Some r →
          table site_tables PageContent !! k = Some r) ∧
  (∀ k r, table (db (final (handle site site_state))) Placeholder !! k = Some r →
          table site_tables Placeholder !! k = Some r).
Proof.
  pose proof (own_rows_are_deleted_never_changed site site_state eq_refl) as Hrows.
  split; intros k r; apply Hrows; rewrite !elem_of_cons; auto.
Defined.

(** On the clean site the run logs that there is one page with one page
    content, and changes nothing. *)
Lemma clean_site_is_left_as_it_is_witness :
  handle site clean_state =
  Ok () {| db := db clean_state;
           log := [{| level := INFO; msg := "Stats: %s";
                      args := [AStats {| page_count := 1; page_deleted := 0;
                                         pagecontents_count := 1;
                                         pagecontents_deleted := 0 |}] |}] |}.
Proof.
  rewrite (clean_site_is_left_as_it_is site clean_state content_type_7).
  - vm_compute. reflexivity.
  - vm_compute. reflexivity.
  - intros p [r Hr].
    assert (Hp : p = 3).
    { destruct (decide (p = 3)) as [H|H]; [exact H|].
      assert (Ht : table (db clean_state) Page = {[3 := make_row [("node_id", Int 11)] []]})
        by (vm_compute; reflexivity).
      rewrite Ht, lookup_singleton_ne in Hr by congruence. discriminate. }
    subst p. exists 6, (make_row [("page", Int 3)] []). split; reflexivity.
  - intros k r p Hr _ _.
    assert (Hk : k = 6).
    { destruct (decide (k = 6)) as [H|H]; [exact H|].
      assert (Ht : table (db clean_state) PageContent = {[6 := make_row [("page", Int 3)] []]})
        by (vm_compute; reflexivity).
      rewrite Ht, lookup_singleton_ne in Hr by congruence. discriminate. }
    subst k. exists 100, (make_row [("object_id", Int 6); ("content_type", Int 7)] []).
    split; [reflexivity|]. split; reflexivity.
Defined.

(** On the site where the [DELETE] on [cms_page] is refused, [_delete_page]
    returns with URL 11 of page 1 deleted and page 1 still there. *)
Lemma delete_page_keeps_first_delete_witness :
  _delete_page page_protecting_site page_1 site_state =
    Ok () (final (_delete_page page_protecting_site page_1 site_state)) ∧
  table (db (final (_delete_page page_protecting_site page_1 site_state))) Page !! 1 =
    table site_tables Page !! 1 ∧
  table (db (final (_delete_page page_protecting_site page_1 site_state))) PageUrl !! 11 =
    None.
Proof.
  destruct (delete_page_keeps_first_delete page_protecting_site page_1 site_state
              ProtectedError) as (Hpage & Hurl & _ & Hrun & _).
  - reflexivity.
  - intros tb. reflexivity.
  - split; [exact Hrun|]. split.
    + rewrite Hpage. reflexivity.
    + rewrite (Hurl 11). vm_compute. reflexivity.
Defined.

(** On the site, after [_fix_page_references] for page 1 no permission refers
    to page 1, and permission 70, which did, refers to page 2. *)
Lemma fix_page_references_leaves_no_reference_witness :
  (∀ k r, table (db (final (_fix_page_references site page_1 site_state)))
                PagePermission !! k = Some r →
          refers permission_rel page_1 k r = false) ∧
  (∀ r', table (db (final (_fix_page_references site page_1 site_state)))
               PagePermission !! 70 = Some r' →
         refers permission_rel page_2 70 r' = true).
Proof.
  set (st' := final (_fix_page_references site page_1 site_state)).
  destruct (fix_page_references_leaves_no_reference site page_1 site_state st'
              permission_rel) as (repl & Hsib & Hfree & _ & Hrepl);
    try discriminate.
  - vm_compute. reflexivity.
  - assert (Hl : relations site = [pagecontent_rel; pageurl_rel; permission_rel;
                                   extension_rel; menu_rel; link_rel])
      by (vm_compute; reflexivity).
    rewrite Hl, !elem_of_cons. auto.
  - assert (Hs : siblings page_1 (db site_state) = [page_2]) by (vm_compute; reflexivity).
    rewrite Hs in Hsib. injection Hsib as <-.
    split; [exact Hfree|]. intros r'.
    apply (Hrepl eq_refl 70 (make_row [("page", Int 1)] [])); reflexivity.
Defined.

(** On the site, page content 6, which has a version, is there when the run
    ends, and page content 5, which has none, is not. *)
Lemma page_contents_left_are_the_versioned_witness :
  table (db (final (handle site site_state))) PageContent !! 6 =
    Some (make_row [("page", Int 3)] []) ∧
  table (db (final (handle site site_state))) PageContent !! 5 ≠
    Some (make_row [("page", Int 2)] []).
Proof.
  pose proof (page_contents_left_are_the_versioned site eq_refl (λ _ _ _, eq_refl)
                site_state (final (handle site site_state)) content_type_7) as H.
  split.
  - apply H; [vm_compute; reflexivity | vm_compute; reflexivity|].
    split; [reflexivity|]. left.
    exists 100, (make_row [("object_id", Int 6); ("content_type", Int 7)] []).
    split; [reflexivity|]. split; reflexivity.
  - intros H5. apply H in H5 as [_ [Hv|Hnot]];
      [| |vm_compute; reflexivity | vm_compute; reflexivity].
    + revert Hv. apply (versions_nil_iff site content_type_7 page_content_5).
      vm_compute. reflexivity.
    + apply Hnot. exists 2. split; [reflexivity|]. eexists. reflexivity.
Defined.

(** On the site, page 2 has page content 5 only, which has no version: when
    the run ends page 2 is there without a page content, and without a
    sibling, page 1 being deleted. *)
Lemma page_is_left_without_page_content_witness :
  table (db (final (handle site site_state))) Page !! 2 = Some (row page_2) ∧
  evaluate site (_get_page_contents page_2) (db (final (handle site site_state))) = [] ∧
  ∀ ct' stats, handle_page site ct' stats page_2 (final (handle site site_state)) =
               Raise DoesNotExist (final (handle site site_state)).
Proof.
  set (st' := final (handle site site_state)).
  destruct (page_is_left_without_page_content site eq_refl (λ _ _ _, eq_refl)
              site_state st' content_type_7 page_2) as (Hpage & Hnil & Hnext).
  - vm_compute. reflexivity.
  - vm_compute. reflexivity.
  - reflexivity.
  - exists 5, (row page_content_5). split; reflexivity.
  - intros k r Hr Hp.
    assert (Hin : {| pk := k; row := r |} ∈
                  evaluate site (_get_page_contents page_2) (db site_state)).
    { apply elem_of_page_contents. auto. }
    assert (Hl : evaluate site (_get_page_contents page_2) (db site_state) =
                 [page_content_5]) by (vm_compute; reflexivity).
    rewrite Hl in Hin. apply list_elem_of_singleton in Hin. injection Hin as -> ->.
    apply (versions_nil_iff site content_type_7 page_content_5).
    vm_compute. reflexivity.
  - split; [exact Hpage|]. split; [exact Hnil|].
    apply Hnext. vm_compute. reflexivity.
Defined.

(** On the site where the page contents are protected: one page is deleted,
    as the statistics say, and of the page contents none, the statistics
    saying one and the log that one could not be deleted. *)
Lemma deleted_rows_are_attempts_less_logged_errors_witness :
  ∃ stats l,
    log (final (handle protecting_site site_state)) =
      l ++ [{| level := INFO; msg := "Stats: %s"; args := [AStats stats] |}] ∧
    3 - Z.of_nat (size (table (db (final (handle protecting_site site_state))) Page)) =
      page_deleted stats - (0 - 0) ∧
    2 - 2 = pagecontents_deleted stats - (1 - 0).
Proof.
  destruct (deleted_rows_are_attempts_less_logged_errors protecting_site eq_refl
              site_state (final (handle protecting_site site_state)))
    as (stats & l & Hlog & Hpage & Hpc); [vm_compute; reflexivity|].
  exists stats, l. split; [exact Hlog|].
  assert (H1 : logged "Couldn't delete Page %s %s"
                 (log (final (handle protecting_site site_state))) = 0)
    by (vm_compute; reflexivity).
  assert (H2 : logged "Couldn't delete PageContent %s %s"
                 (log (final (handle protecting_site site_state))) = 1)
    by (vm_compute; reflexivity).
  assert (H3 : size (table (db (final (handle protecting_site site_state))) PageContent)
               = 2%nat) by (vm_compute; reflexivity).
  rewrite H1 in Hpage. rewrite H2, H3 in Hpc. split; [exact Hpage | exact Hpc].
Defined.

(** On the site, when page 1 has had its turn, menu 90 and link 95, which
    referred to it, do not, and its URL 11 is gone. *)
Lemma deleted_page_is_referred_to_nowhere_witness :
  table (db (final (handle_page site content_type_7 (initial_stats 3) page_1 site_state)))
        Page !! 1 = None ∧
  (∀ k r, table (db (final (handle_page site content_type_7 (initial_stats 3) page_1
                              site_state))) Menu !! k = Some r →
          refers menu_rel page_1 k r = false) ∧
  (∀ k r, table (db (final (handle_page site content_type_7 (initial_stats 3) page_1
                              site_state))) Link !! k = Some r →
          refers_through "internal_link" page_1 k r = false).
Proof.
  set (st' := final (handle_page site content_type_7 (initial_stats 3) page_1 site_state)).
  destruct (deleted_page_is_referred_to_nowhere site content_type_7 (initial_stats 3)
              (add_page_deleted (initial_stats 3)) page_1 site_state st')
    as (Hpage & _ & _ & Hrel & Hfield).
  - vm_compute. reflexivity.
  - intros sql params tb. discriminate.
  - vm_compute. reflexivity.
  - clearbody st'. split; [exact Hpage|]. split.
    + assert (Hin : menu_rel ∈ relations site).
      { assert (Hl : relations site = [pagecontent_rel; pageurl_rel; permission_rel;
                                       extension_rel; menu_rel; link_rel])
          by (vm_compute; reflexivity).
        rewrite Hl, !elem_of_cons. auto 10. }
      intros k r Hr.
      refine (Hrel menu_rel Hin _ _ _ _ k r Hr); discriminate.
    + assert (Hin : link_field ∈ plugin_relation_models site).
      { assert (Hl : plugin_relation_models site = [link_field])
          by (vm_compute; reflexivity).
        rewrite Hl. left. }
      intros k r Hr.
      refine (Hfield link_field Hin _ _ _ k r Hr); discriminate.
Defined.

(** On the site without the one-to-one relation, placeholder 60 of page
    content 6, which has a version, is there when the run ends, and
    placeholder 50 of page content 5 is not. *)
Lemma placeholders_left_are_those_of_the_versioned_witness :
  table (db (final (handle plain_site site_state))) Placeholder !! 60 =
    Some (make_row [("object_id", Int 6); ("content_type", Int 7)] []) ∧
  table (db (final (handle plain_site site_state))) Placeholder !! 50 ≠
    Some (make_row [("object_id", Int 5); ("content_type", Int 7)] []).
Proof.
  assert (Hct : evaluate plain_site
                  (qfilter [Exact "app_label" (Some (Str "cms"));
                            Exact "model" (Some (Str "pagecontent"))]
                           (all ContentType objects)) (db site_state) = [content_type_7])
    by (vm_compute; reflexivity).
  assert (Hrun : handle plain_site site_state = Ok () (final (handle plain_site site_state)))
    by (vm_compute; reflexivity).
  pose proof (placeholders_left_are_those_of_the_versioned plain_site eq_refl
                (λ _ _ _, eq_refl) site_state (final (handle plain_site site_state))
                content_type_7 Hct Hrun) as H.
  clear Hrun. split.
  - apply (H 60).
    + intros rel Hrel.
      assert (Hl : relations plain_site = [pagecontent_rel; pageurl_rel; permission_rel;
                                           menu_rel; link_rel])
        by (vm_compute; reflexivity).
      rewrite Hl in Hrel. rewrite !elem_of_cons, elem_of_nil in Hrel.
      destruct Hrel as [->|[->|[->|[->|[->|[]]]]]]; reflexivity.
    + reflexivity.
    + intros (kc & rc & [Hid _] & Hrc & _ & Hnv). injection Hid as <-.
      apply Hnv. exists 100, (make_row [("object_id", Int 6); ("content_type", Int 7)] []).
      split; [reflexivity|]. split; reflexivity.
  - intros H50. apply (H 50) in H50 as [_ Hnot].
    apply Hnot. exists 5, (row page_content_5).
    split; [split; reflexivity|]. split; [reflexivity|].
    split; [exists 2; split; [reflexivity | eexists; reflexivity]|].
    apply (versions_nil_iff plain_site content_type_7 page_content_5).
    vm_compute. reflexivity.
Defined.


(** On the site, URL 12 of page 2 is there when the run ends, and URL 11 of
    page 1, which has no page content, is not. *)
Lemma urls_left_are_those_of_the_pages_left_witness :
  table (db (final (handle site site_state))) PageUrl !! 12 =
    Some (make_row [("page", Int 2)] []) ∧
  table (db (final (handle site site_state))) PageUrl !! 11 ≠
    Some (make_row [("page", Int 1)] []).
Proof.
  assert (Hfields : ∀ rel, rel ∈ plugin_relation_models site → model rel ≠ PageUrl).
  { intros rel Hrel.
    assert (Hl : plugin_relation_models site = [link_field]) by (vm_compute; reflexivity).
    rewrite Hl in Hrel. apply list_elem_of_singleton in Hrel as ->. discriminate. }
  pose proof (urls_left_are_those_of_the_pages_left site eq_refl (λ _ _ _, eq_refl) Hfields
                site_state (final (handle site site_state))) as H.
  split.
  - apply H; [vm_compute; reflexivity|].
    split; [reflexivity|].
    intros (p & Hp & _ & Hno). injection Hp as <-.
    apply Hno. exists 5, (row page_content_5). split; reflexivity.
  - intros H11. apply H in H11 as [_ Hnot]; [|vm_compute; reflexivity].
    apply Hnot. exists 1. split; [reflexivity|]. split; [eexists; reflexivity|].
    intros Hc. apply (has_content_iff site page_1 site_tables) in Hc. apply Hc.
    vm_compute. reflexivity.
Defined.

(** On the site whose page has a page content with a version and one without,
    the run deletes the latter, and the run that follows it changes
    nothing. *)
Lemma second_run_changes_nothing_witness :
  table (db (final (handle site mixed_state))) PageContent !! 8 = None ∧
  ∃ stats,
    handle site (final (handle site mixed_state)) =
      Ok () {| db := db (final (handle site mixed_state));
               log := log (final (handle site mixed_state)) ++
                        [{| level := INFO; msg := "Stats: %s";
                            args := [AStats stats] |}] |} ∧
    page_count stats = Z.of_nat (size (table (db (final (handle site mixed_state))) Page)) ∧
    page_deleted stats = 0 ∧ pagecontents_deleted stats = 0.
Proof.
  split; [vm_compute; reflexivity|].
  apply (second_run_changes_nothing site eq_refl (λ _ _ _, eq_refl) mixed_state
           (final (handle site mixed_state)) content_type_7).
  - vm_compute. reflexivity.
  - vm_compute. reflexivity.
  - intros p [r Hr].
    assert (Hp : p = 3).
    { destruct (decide (p = 3)) as [H|H]; [exact H|].
      assert (Ht : table (db (final (handle site mixed_state))) Page
                   = {[3 := make_row [("node_id", Int 11)] []]})
        by (vm_compute; reflexivity).
      rewrite Ht, lookup_singleton_ne in Hr by congruence. discriminate. }
    subst p. exists 6, (make_row [("page", Int 3)] []). split; vm_compute; reflexivity.
Defined.

(** On the site the treatment of page 1 logs that the references are fixed
    from page 1 to page 2, twice, and that page 1 is deleted. *)
Lemma orphan_is_logged_witness :
  log (final (handle_page site content_type_7 (initial_stats 3) page_1 site_state)) =
  [ {| level := INFO; msg := "Fixing reference from Page %s to %s";
       args := [AInt 1; AInt 2] |};
    {| level := INFO; msg := "Fixing PageField references from Page %s to %s";
       args := [AInt 1; AInt 2] |};
    {| level := INFO; msg := "Deleting Page %s"; args := [AInt 1] |} ].
Proof.
  destruct (orphan_is_logged site eq_refl content_type_7 (initial_stats 3)
              (add_page_deleted (initial_stats 3)) page_1 site_state
              (final (handle_page site content_type_7 (initial_stats 3) page_1 site_state)))
    as (repl & tail & Hsib & Hlog & Htail).
  - vm_compute. reflexivity.
  - vm_compute. reflexivity.
  - assert (Hs : siblings page_1 (db site_state) = [page_2]) by (vm_compute; reflexivity).
    rewrite Hs in Hsib. injection Hsib as <-.
    destruct Htail as [[-> _]|[_ Hsame]]; [exact Hlog|].
    exfalso.
    assert (Hgone : table (db (final (handle_page site content_type_7 (initial_stats 3)
                                        page_1 site_state))) Page !! 1 = None)
      by (vm_compute; reflexivity).
    rewrite Hsame in Hgone. discriminate Hgone.
Defined.

(** On the site where the page contents are protected, page content 5 is left
    without its placeholder 50. *)
Lemma protected_page_content_loses_placeholders_witness :
  ∃ st',
    handle_page_content protecting_site content_type_7 (initial_stats 3) page_content_5
      site_state = Ok (add_pagecontents_deleted (initial_stats 3)) st' ∧
    table (db st') PageContent !! 5 = table site_tables PageContent !! 5 ∧
    table (db st') Placeholder !! 50 = None.
Proof.
  destruct (protected_page_content_loses_placeholders protecting_site content_type_7
              (initial_stats 3) page_content_5 site_state)
    as (st' & l & Hrun & Hpc & Hph & _).
  - vm_compute. reflexivity.
  - intros k tb. reflexivity.
  - intros tb. reflexivity.
  - exists st'. split; [exact Hrun|]. split; [rewrite Hpc; reflexivity|].
    rewrite (Hph 50). vm_compute. reflexivity.
Defined.

(** On the site with the two pages without page contents on one node the run
    does not return: page 1 has page 2 as its one sibling, which has no page
    content. *)
Lemma run_returns_iff_witness :
  ¬ ∃ st', handle site twins_state = Ok () st'.
Proof.
  intros Hret.
  assert (Hct : evaluate site (qfilter [Exact "app_label" (Some (Str "cms"));
                                        Exact "model" (Some (Str "pagecontent"))]
                                       (all ContentType objects)) (db twins_state)
                = [content_type_7]) by (vm_compute; reflexivity).
  assert (Hin : page_1 ∈ evaluate site (all Page objects) (db twins_state)).
  { apply elem_of_all_pages. vm_compute. reflexivity. }
  assert (Hnil : evaluate site (_get_page_contents page_1) (db twins_state) = [])
    by (vm_compute; reflexivity).
  destruct (proj1 (run_returns_iff site eq_refl (λ _ _, eq_refl) twins_state
                     content_type_7 Hct) Hret page_1 Hin Hnil)
    as (r & _ & k & r0 & Hrow & _).
  assert (Ht : table (db twins_state) PageContent = ∅) by (vm_compute; reflexivity).
  rewrite Ht, lookup_empty in Hrow. discriminate.
Defined.
